(** * codex-ratelimit-vscode: the webview renderer and its sanitizers

    A shallow embedding of [src/utils/sanitize.ts] and of the
    [RateLimitWebView] class, with the properties the specification states
    about them.

    Conventions of the embedding.
    - A JavaScript string is the list of its UTF-16 code units ([jsstring]).
    - A JavaScript number is an IEEE-754 value ([spec_float] of the standard
      library: signed zeros, infinities, NaN, finite mantissa/exponent).
    - A regular expression written [/^...$/] is the abstract syntax of the
      part between the anchors; [RegExp_test] decides whether the whole
      subject string belongs to it.
    - The class keeps its objects in a store; the static field
      [currentPanel] refers to one of them. *)

From Stdlib Require Import Ascii String.
From Stdlib Require Import Strings.Byte.
From Stdlib Require Import DecimalString.
From Stdlib Require Import List ZArith NArith Lia Bool.
From Stdlib Require Import Floats.SpecFloat.
Import ListNotations.

Set Implicit Arguments.

(* ------------------------------------------------------------------ *)
(** * JavaScript strings *)

Module JsString.

Definition jsstring := list N.

Inductive lit_mode :=
| Plain
| Escape
| Unicode (k : nat) (acc : N).

Definition hex_digit_value (c : ascii) : N :=
  let n := N_of_ascii c in
  if (48 <=? n)%N && (n <=? 57)%N then (n - 48)%N
  else if (65 <=? n)%N && (n <=? 70)%N then (n - 55)%N
  else if (97 <=? n)%N && (n <=? 102)%N then (n - 87)%N
  else 0%N.

(** String literals of the source are written as Rocq strings in which
    [\q] stands for the double quote, [\n] for a line feed and [\uXXXX]
    for the code unit with that hexadecimal number. *)
Fixpoint lit_from (m : lit_mode) (s : string) : jsstring :=
  match s with
  | EmptyString => []
  | String c s' =>
      match m with
      | Plain =>
          if Ascii.eqb c "\"%char then lit_from Escape s'
          else N_of_ascii c :: lit_from Plain s'
      | Escape =>
          if Ascii.eqb c "q"%char then 34%N :: lit_from Plain s'
          else if Ascii.eqb c "n"%char then 10%N :: lit_from Plain s'
          else if Ascii.eqb c "u"%char then lit_from (Unicode 3 0%N) s'
          else N_of_ascii c :: lit_from Plain s'
      | Unicode k acc =>
          let acc' := (16 * acc + hex_digit_value c)%N in
          match k with
          | O => acc' :: lit_from Plain s'
          | S k' => lit_from (Unicode k' acc') s'
          end
      end
  end.

Definition lit (s : string) : jsstring := lit_from Plain s.

Definition eqb (a b : jsstring) : bool :=
  if list_eq_dec N.eq_dec a b then true else false.

(** ECMAScript WhiteSpace and LineTerminator code units: what
    [String.prototype.trim] strips and what [\s] matches. *)
Definition isWhiteSpace (c : N) : bool :=
  ((9 <=? c) && (c <=? 13) || (c =? 32) || (c =? 160) || (c =? 5760)
   || (8192 <=? c) && (c <=? 8202) || (c =? 8232) || (c =? 8233)
   || (c =? 8239) || (c =? 8287) || (c =? 12288) || (c =? 65279))%N.

Fixpoint trimStart (s : jsstring) : jsstring :=
  match s with
  | c :: s' => if isWhiteSpace c then trimStart s' else s
  | [] => []
  end.

Definition trimEnd (s : jsstring) : jsstring := rev (trimStart (rev s)).

Definition trim (s : jsstring) : jsstring := trimEnd (trimStart s).

(** [Array.prototype.join] on an array of strings. *)
Fixpoint join (sep : jsstring) (parts : list jsstring) : jsstring :=
  match parts with
  | [] => []
  | [p] => p
  | p :: rest => p ++ sep ++ join sep rest
  end.

(** [s] occurs in [t] as a contiguous substring. *)
Definition includes (t s : jsstring) : Prop :=
  exists pre post, t = pre ++ s ++ post.

End JsString.
Import JsString.

(* ------------------------------------------------------------------ *)
(** * JavaScript numbers *)

Module JsNumber.

Definition number := spec_float.

Definition prec : Z := 53.
Definition emax : Z := 1024.

(** The double nearest to an integer: the value of an integer literal. *)
Definition of_Z (z : Z) : number := binary_normalize prec emax z 0 false.

Definition NaN : number := S754_nan.
Definition Infinity : number := S754_infinity false.
Definition NegInfinity : number := S754_infinity true.
Definition zero : number := S754_zero false.
Definition neg_zero : number := S754_zero true.

(** [Number.isFinite(value)] *)
Definition Number_isFinite (x : number) : bool :=
  match x with
  | S754_zero _ | S754_finite _ _ _ => true
  | S754_infinity _ | S754_nan => false
  end.

Definition is_nan (x : number) : bool :=
  match x with S754_nan => true | _ => false end.

Definition is_zero (sign : bool) (x : number) : bool :=
  match x with S754_zero s => Bool.eqb s sign | _ => false end.

(** [a < b], [a > b] and [a >= b]: a comparison with NaN is false. *)
Definition lt (a b : number) : bool := SFltb a b.
Definition gt (a b : number) : bool := SFltb b a.
Definition ge (a b : number) : bool :=
  match SFcompare a b with
  | None => false
  | Some Lt => false
  | Some _ => true
  end.

Definition le (a b : number) : bool :=
  match SFcompare a b with
  | Some Lt | Some Eq => true
  | _ => false
  end.

(** [a === b] on numbers. *)
Definition strict_eq (a b : number) : bool := SFeqb a b.

(** [Math.max(...args)]: NaN if an argument is NaN, +0 above -0. *)
Fixpoint Math_max_from (highest : number) (args : list number) : number :=
  match args with
  | [] => highest
  | x :: rest =>
      if is_nan x then NaN
      else
        let highest := if is_zero false x && is_zero true highest then zero else highest in
        let highest := if gt x highest then x else highest in
        Math_max_from highest rest
  end.

Definition Math_max (args : list number) : number := Math_max_from NegInfinity args.

(** [Math.min(...args)]: NaN if an argument is NaN, -0 below +0. *)
Fixpoint Math_min_from (lowest : number) (args : list number) : number :=
  match args with
  | [] => lowest
  | x :: rest =>
      if is_nan x then NaN
      else
        let lowest := if is_zero true x && is_zero false lowest then neg_zero else lowest in
        let lowest := if lt x lowest then x else lowest in
        Math_min_from lowest rest
  end.

Definition Math_min (args : list number) : number := Math_min_from Infinity args.

(** The decimal digits of a natural number. *)
Definition decimal (n : N) : jsstring :=
  map N_of_ascii (list_ascii_of_string (NilZero.string_of_uint (N.to_uint n))).

(** A finite non-zero double is [m * 2^e]; [magnitude_ge m e k] is
    [m * 2^e >= k]. *)
Definition magnitude_ge (m : positive) (e : Z) (k : Z) : bool :=
  if (0 <=? e)%Z then (k <=? Z.pos m * 2 ^ e)%Z
  else (k * 2 ^ (- e) <=? Z.pos m)%Z.

Definition is_integer (m : positive) (e : Z) : bool :=
  if (0 <=? e)%Z then true else (Z.pos m mod 2 ^ (- e) =? 0)%Z.

Definition integer_value (m : positive) (e : Z) : Z :=
  if (0 <=? e)%Z then Z.pos m * 2 ^ e else Z.pos m / 2 ^ (- e).

Section ToString.

(** [Number::toString] of a finite value that is not an integer below
    [10^21] is the shortest decimal text that reads back as the same
    double; the embedding takes those texts from the host. *)
Variable shortest_decimal : number -> jsstring.

Definition Number_toString (x : number) : jsstring :=
  match x with
  | S754_nan => lit "NaN"
  | S754_zero _ => lit "0"
  | S754_infinity false => lit "Infinity"
  | S754_infinity true => lit "-Infinity"
  | S754_finite s m e =>
      if is_integer m e && negb (magnitude_ge m e (10 ^ 21))
      then (if s then lit "-" else []) ++ decimal (Z.to_N (integer_value m e))
      else shortest_decimal x
  end.

(** [Number.prototype.toFixed(1)]: the integer [n] nearest to [10 * |x|]
    (the larger one on a tie), written with one digit after the point. *)
Definition tenths (m : positive) (e : Z) : Z :=
  if (0 <=? e)%Z then 10 * Z.pos m * 2 ^ e
  else (2 * 10 * Z.pos m + 2 ^ (- e)) / (2 * 2 ^ (- e)).

Definition fixed1 (n : Z) : jsstring :=
  let m := decimal (Z.to_N n) in
  let m := if (length m <=? 1)%nat then repeat 48%N (2 - length m) ++ m else m in
  let k := length m in
  firstn (k - 1) m ++ lit "." ++ skipn (k - 1) m.

Definition toFixed1 (x : number) : jsstring :=
  match x with
  | S754_nan | S754_infinity _ => Number_toString x
  | S754_zero _ => fixed1 0
  | S754_finite s m e =>
      if magnitude_ge m e (10 ^ 21) then Number_toString x
      else (if s then lit "-" else []) ++ fixed1 (tenths m e)
  end.

End ToString.

End JsNumber.
Import JsNumber.

(* ------------------------------------------------------------------ *)
(** * Regular expressions *)

Module Regex.

Inductive regex :=
| Void
| Eps
| Class (p : N -> bool)
| Cat (a b : regex)
| Alt (a b : regex)
| Star (a : regex).

Definition Chr (c : N) : regex := Class (N.eqb c).
Definition Lit (s : jsstring) : regex := fold_right (fun c r => Cat (Chr c) r) Eps s.
Definition Opt (r : regex) : regex := Alt r Eps.
Definition Plus (r : regex) : regex := Cat r (Star r).
Definition Seq (rs : list regex) : regex := fold_right Cat Eps rs.
Definition Alts (rs : list regex) : regex := fold_right Alt Void rs.

Fixpoint Rep (n : nat) (r : regex) : regex :=
  match n with
  | O => Eps
  | S n' => Cat r (Rep n' r)
  end.

(** [r{lo,lo+extra}] *)
Fixpoint RepUpTo (extra : nat) (r : regex) : regex :=
  match extra with
  | O => Eps
  | S e => Opt (Cat r (RepUpTo e r))
  end.

Definition RepRange (lo extra : nat) (r : regex) : regex :=
  Cat (Rep lo r) (RepUpTo extra r).

Fixpoint nullable (r : regex) : bool :=
  match r with
  | Void => false
  | Eps => true
  | Class _ => false
  | Cat a b => nullable a && nullable b
  | Alt a b => nullable a || nullable b
  | Star _ => true
  end.

Definition mkCat (a b : regex) : regex :=
  match a, b with
  | Void, _ => Void
  | _, Void => Void
  | Eps, _ => b
  | _, _ => Cat a b
  end.

Definition mkAlt (a b : regex) : regex :=
  match a, b with
  | Void, _ => b
  | _, Void => a
  | _, _ => Alt a b
  end.

Fixpoint deriv (c : N) (r : regex) : regex :=
  match r with
  | Void => Void
  | Eps => Void
  | Class p => if p c then Eps else Void
  | Cat a b =>
      if nullable a then mkAlt (mkCat (deriv c a) b) (deriv c b)
      else mkCat (deriv c a) b
  | Alt a b => mkAlt (deriv c a) (deriv c b)
  | Star a => mkCat (deriv c a) (Star a)
  end.

(** [RegExp.prototype.test] for an anchored pattern [/^r$/] without flags. *)
Definition RegExp_test (r : regex) (s : jsstring) : bool :=
  nullable (fold_left (fun r c => deriv c r) s r).

(** The language of a regular expression. *)
Fixpoint lang (r : regex) (s : jsstring) : Prop :=
  match r with
  | Void => False
  | Eps => s = []
  | Class p => exists c, s = [c] /\ p c = true
  | Cat a b => exists s1 s2, s = s1 ++ s2 /\ lang a s1 /\ lang b s2
  | Alt a b => lang a s \/ lang b s
  | Star a => exists ss, s = concat ss /\ Forall (lang a) ss
  end.

End Regex.
Import Regex.

(* ------------------------------------------------------------------ *)
(** * src/utils/sanitize.ts *)

Definition in_range (lo hi : string) (c : N) : bool :=
  match lit lo, lit hi with
  | [a], [b] => ((a <=? c) && (c <=? b))%N
  | _, _ => false
  end.

Definition one_of (chars : string) (c : N) : bool :=
  existsb (N.eqb c) (lit chars).

Definition digit : N -> bool := in_range "0" "9".
Definition hex_digit (c : N) : bool :=
  in_range "a" "f" c || in_range "A" "F" c || in_range "0" "9" c.

(** [\d], [\s] and a literal text. *)
Definition d : regex := Class digit.
Definition s_star : regex := Star (Class isWhiteSpace).
Definition txt (s : string) : regex := Lit (lit s).

(** [/^#(?:[a-fA-F0-9]{3}|[a-fA-F0-9]{6}|[a-fA-F0-9]{8})$/] *)
Definition HEX_COLOR_PATTERN : regex :=
  Cat (txt "#")
      (Alts [Rep 3 (Class hex_digit); Rep 6 (Class hex_digit); Rep 8 (Class hex_digit)]).

(** ['(?:[01]?\\d?\\d|2[0-4]\\d|25[0-5])'] *)
Definition RGB_NUMBER : regex :=
  Alts [Seq [Opt (Class (one_of "01")); Opt d; d];
        Seq [txt "2"; Class (in_range "0" "4"); d];
        Seq [txt "25"; Class (in_range "0" "5")]].

(** ['(?:0|0?\\.\\d+|1(?:\\.0+)?)'] *)
Definition ALPHA_VALUE : regex :=
  Alts [txt "0";
        Seq [Opt (txt "0"); txt "."; Plus d];
        Seq [txt "1"; Opt (Seq [txt "."; Plus (txt "0")])]].

(** [^rgba?\(\s*N\s*,\s*N\s*,\s*N(?:\s*,\s*A)?\s*\)$] *)
Definition RGB_COLOR_PATTERN : regex :=
  Seq [txt "rgb"; Opt (txt "a"); txt "("; s_star; RGB_NUMBER; s_star; txt ",";
       s_star; RGB_NUMBER; s_star; txt ","; s_star; RGB_NUMBER;
       Opt (Seq [s_star; txt ","; s_star; ALPHA_VALUE]); s_star; txt ")"].

(** ['(?:360(?:\\.0+)?|3[0-5]\\d(?:\\.\\d+)?|[12]?\\d?\\d(?:\\.\\d+)?)'] *)
Definition HUE_COMPONENT : regex :=
  Alts [Seq [txt "360"; Opt (Seq [txt "."; Plus (txt "0")])];
        Seq [txt "3"; Class (in_range "0" "5"); d; Opt (Seq [txt "."; Plus d])];
        Seq [Opt (Class (one_of "12")); Opt d; d; Opt (Seq [txt "."; Plus d])]].

(** ['(?:100|[0-9]{1,2})(?:\\.\\d+)?%'] *)
Definition HSL_PERCENT : regex :=
  Seq [Alts [txt "100"; RepRange 1 1 (Class (in_range "0" "9"))];
       Opt (Seq [txt "."; Plus d]); txt "%"].

(** [^hsla?\(\s*H\s*,\s*P\s*,\s*P(?:\s*,\s*A)?\s*\)$] *)
Definition HSL_COLOR_PATTERN : regex :=
  Seq [txt "hsl"; Opt (txt "a"); txt "("; s_star; HUE_COMPONENT; s_star; txt ",";
       s_star; HSL_PERCENT; s_star; txt ","; s_star; HSL_PERCENT;
       Opt (Seq [s_star; txt ","; s_star; ALPHA_VALUE]); s_star; txt ")"].

(** [sanitizeColor(input: string | undefined, fallback: string): string] *)
Definition sanitizeColor (input : option jsstring) (fallback : jsstring) : jsstring :=
  match input with
  | None => fallback
  | Some [] => fallback
  | Some input =>
      let trimmed := trim input in
      if (50 <? length trimmed)%nat then fallback
      else if RegExp_test HEX_COLOR_PATTERN trimmed
              || RegExp_test RGB_COLOR_PATTERN trimmed
              || RegExp_test HSL_COLOR_PATTERN trimmed
      then trimmed
      else fallback
  end.

(* ------------------------------------------------------------------ *)
(** * The data the renderer consumes *)

(** [vscode.ViewColumn] *)
Inductive ViewColumn :=
| Active | Beside | One | Two | Three | Four | Five | Six | Seven | Eight | Nine.

(** The settings under [codexRatelimit]; [None] is a setting the user left
    unset. *)
Record Configuration := {
  color_warningColor : option jsstring;
  color_criticalColor : option jsstring;
  color_warningThreshold : option number;
  color_criticalThreshold : option number
}.

(** [config.get<T>(key, defaultValue)] *)
Definition config_get {T : Type} (setting : option T) (defaultValue : T) : T :=
  match setting with
  | Some v => v
  | None => defaultValue
  end.

(** What a [throw] carries: an [Error] with its message, or another value. *)
Inductive thrown :=
| ErrorObject (message : jsstring)
| OtherValue.

Inductive outcome (A : Type) :=
| Returned (a : A)
| Threw (e : thrown).

Arguments Returned {A} a.
Arguments Threw {A} e.

(** [_escapeHtml]'s replacer function. *)
Definition escape_char (char : N) : jsstring :=
  if (char =? 38)%N then lit "&amp;"
  else if (char =? 60)%N then lit "&lt;"
  else if (char =? 62)%N then lit "&gt;"
  else if (char =? 34)%N then lit "&quot;"
  else if (char =? 39)%N then lit "&#39;"
  else [char].

(** [value.replace(/[cls]/g, replacer)]: every code unit of the class is
    replaced by what the replacer returns for it. *)
Fixpoint replace_class (cls : N -> bool) (replacer : N -> jsstring) (value : jsstring) : jsstring :=
  match value with
  | [] => []
  | c :: rest =>
      (if cls c then replacer c else [c]) ++ replace_class cls replacer rest
  end.

(** The character class of [_escapeHtml]'s pattern: ampersand, less-than,
    greater-than, double quote, apostrophe. *)
Definition html_special : N -> bool := one_of "&<>\q'".

(** [_escapeHtml(value)] *)
Definition _escapeHtml (value : jsstring) : jsstring :=
  replace_class html_special escape_char value.

(** [_clampPercentage(value)] *)
Definition _clampPercentage (value : number) : number :=
  if negb (Number_isFinite value) then of_Z 0
  else Math_max [of_Z 0; Math_min [of_Z 100; value]].

(** [_getProgressClass(percentage, outdated)] *)
Definition _getProgressClass (percentage : number) (outdated : bool) : jsstring :=
  if outdated then lit "outdated" else lit "".

(** [_getUsageClass(percentage, outdated)]; the configuration is read at
    every call. *)
Definition _getUsageClass (config : Configuration) (percentage : number) (outdated : bool) : jsstring :=
  if outdated then lit "outdated"
  else
    let warningThreshold := config_get (color_warningThreshold config) (of_Z 70) in
    let criticalThreshold := config_get (color_criticalThreshold config) (of_Z 90) in
    if ge percentage criticalThreshold then lit "high"
    else if ge percentage warningThreshold then lit "medium"
    else lit "low".

(** [crypto.randomBytes(16).toString('hex')] *)
Definition hex_of_byte (b : byte) : jsstring :=
  let n := Byte.to_N b in
  let digit_of (k : N) : N := if (k <? 10)%N then (48 + k)%N else (87 + k)%N in
  [digit_of (n / 16)%N; digit_of (n mod 16)%N].

Definition Buffer_toString_hex (bytes : list byte) : jsstring :=
  flat_map hex_of_byte bytes.

Definition _generateNonce (randomBytes : nat -> list byte) : jsstring :=
  Buffer_toString_hex (randomBytes 16%nat).

Section Webview.

(** The collaborators and host services the class calls. *)
Variable TokenUsage : Type.
Variable Date : Type.
Variable Uri : Type.
Variable formatTokenUsage : TokenUsage -> jsstring.
Variable Date_toLocaleString : Date -> jsstring.
Variable Uri_joinPath : Uri -> list jsstring -> Uri.
Variable asWebviewUri : Uri -> jsstring.
Variable shortest_decimal : number -> jsstring.

Record UsageWindow := {
  time_percent : number;
  used_percent : number;
  reset_time : Date;
  outdated : bool
}.

Record RateLimitData := {
  primary : option UsageWindow;
  secondary : option UsageWindow;
  total_usage : TokenUsage;
  last_usage : TokenUsage;
  current_time : Date
}.

Record FetchResult := {
  found : bool;
  data : option RateLimitData;
  error : option jsstring
}.

Inductive Disposable :=
| DidDisposeSubscription
| DidReceiveMessageSubscription.

Record WebviewPanel := {
  viewType : jsstring;
  title : jsstring;
  showOptions : ViewColumn;
  enableScripts : bool;
  localResourceRoots : list Uri;
  webview_cspSource : jsstring;
  webview_html : jsstring;
  revealed : list (option ViewColumn)
}.

Record RateLimitWebView := {
  _panel : WebviewPanel;
  _extensionUri : Uri;
  _nonce : jsstring;
  _disposables : list Disposable
}.

Definition number_text (x : number) : jsstring := Number_toString shortest_decimal x.

(** [_renderProgressSection(data, widthRules)]: returns the markup and the
    array [widthRules] after the pushes. *)
Definition _renderProgressSection (config : Configuration) (data : RateLimitData)
    (widthRules : list jsstring) : jsstring * list jsstring :=
  let html := lit "" in
  let '(html, widthRules) :=
    match primary data with
    | Some primary =>
      let resetTimeStr := Date_toLocaleString (reset_time primary) in
      let outdatedStr := if outdated primary then lit " [OUTDATED]" else lit "" in
      let timePercent := if outdated primary then of_Z 0 else _clampPercentage (time_percent primary) in
      let usagePercent := if outdated primary then of_Z 0 else _clampPercentage (used_percent primary) in
      let timeText := if outdated primary then lit "N/A" else toFixed1 shortest_decimal timePercent ++ lit "%" in
      let usageText := if outdated primary then lit "N/A" else toFixed1 shortest_decimal usagePercent ++ lit "%" in
      let widthRules := widthRules ++ [lit "#primary-time-fill { width: " ++ number_text timePercent ++ lit "%; }"] in
      let widthRules := widthRules ++ [lit "#primary-usage-fill { width: " ++ number_text usagePercent ++ lit "%; }"] in
      (html ++
       lit "
        <div class=\qprogress-section\q>
          <div class=\qprogress-header\q>\uD83D\uDE80 5-Hour Session</div>
          <div class=\qprogress-bar-container\q>
            <div class=\qprogress-bar\q>
              <div class=\qprogress-label\q>SESSION TIME</div>
              <div class=\qprogress-track\q>
                <div class=\qprogress-fill time "
       ++ _getProgressClass timePercent (outdated primary)
       ++ lit "\q id=\qprimary-time-fill\q></div>
              </div>
              <div class=\qprogress-percentage\q>"
       ++ timeText
       ++ lit "</div>
            </div>
            <div class=\qprogress-details\q>Reset: "
       ++ resetTimeStr
       ++ outdatedStr
       ++ lit "</div>

            <div class=\qprogress-bar\q>
              <div class=\qprogress-label\q>5H USAGE</div>
              <div class=\qprogress-track\q>
                <div class=\qprogress-fill usage "
       ++ _getUsageClass config usagePercent (outdated primary)
       ++ lit "\q id=\qprimary-usage-fill\q></div>
              </div>
              <div class=\qprogress-percentage\q>"
       ++ usageText
       ++ lit "</div>
            </div>
          </div>
        </div>
      "
       , widthRules)
    | None => (html, widthRules)
    end in
  match secondary data with
  | Some secondary =>
      let resetTimeStr := Date_toLocaleString (reset_time secondary) in
      let outdatedStr := if outdated secondary then lit " [OUTDATED]" else lit "" in
      let timePercent := if outdated secondary then of_Z 0 else _clampPercentage (time_percent secondary) in
      let usagePercent := if outdated secondary then of_Z 0 else _clampPercentage (used_percent secondary) in
      let timeText := if outdated secondary then lit "N/A" else toFixed1 shortest_decimal timePercent ++ lit "%" in
      let usageText := if outdated secondary then lit "N/A" else toFixed1 shortest_decimal usagePercent ++ lit "%" in
      let widthRules := widthRules ++ [lit "#secondary-time-fill { width: " ++ number_text timePercent ++ lit "%; }"] in
      let widthRules := widthRules ++ [lit "#secondary-usage-fill { width: " ++ number_text usagePercent ++ lit "%; }"] in
      (html ++
       lit "
        <div class=\qprogress-section\q>
          <div class=\qprogress-header\q>\uD83D\uDCC5 Weekly Limit</div>
          <div class=\qprogress-bar-container\q>
            <div class=\qprogress-bar\q>
              <div class=\qprogress-label\q>WEEKLY TIME</div>
              <div class=\qprogress-track\q>
                <div class=\qprogress-fill time "
       ++ _getProgressClass timePercent (outdated secondary)
       ++ lit "\q id=\qsecondary-time-fill\q></div>
              </div>
              <div class=\qprogress-percentage\q>"
       ++ timeText
       ++ lit "</div>
            </div>
            <div class=\qprogress-details\q>Reset: "
       ++ resetTimeStr
       ++ outdatedStr
       ++ lit "</div>

            <div class=\qprogress-bar\q>
              <div class=\qprogress-label\q>WEEKLY USAGE</div>
              <div class=\qprogress-track\q>
                <div class=\qprogress-fill usage "
       ++ _getUsageClass config usagePercent (outdated secondary)
       ++ lit "\q id=\qsecondary-usage-fill\q></div>
              </div>
              <div class=\qprogress-percentage\q>"
       ++ usageText
       ++ lit "</div>
            </div>
          </div>
        </div>
      "
       , widthRules)
  | None => (html, widthRules)
  end.

(** [_getHtml(webview, data)] *)
Definition _getHtml (this : RateLimitWebView) (config : Configuration) (data : RateLimitData) : jsstring :=
  let webview := _panel this in
  let styleUri := asWebviewUri (Uri_joinPath (_extensionUri this) [lit "media"; lit "styles.css"]) in
  let nonce := _nonce this in
  let widthRules : list jsstring := [] in
  let '(progressSection, widthRules) := _renderProgressSection config data widthRules in
  let csp := join (lit " ")
    [lit "default-src 'none';";
     lit "img-src " ++ webview_cspSource webview ++ lit ";";
     lit "style-src " ++ webview_cspSource webview ++ lit " 'nonce-" ++ nonce ++ lit "';";
     lit "script-src 'nonce-" ++ nonce ++ lit "';"] in
  let warningColor :=
    sanitizeColor (Some (config_get (color_warningColor config) (lit "#f3d898"))) (lit "#f3d898") in
  let criticalColor :=
    sanitizeColor (Some (config_get (color_criticalColor config) (lit "#eca7a7"))) (lit "#eca7a7") in
  lit "<!DOCTYPE html>
    <html lang=\qen\q>
    <head>
      <meta charset=\qUTF-8\q>
      <meta name=\qviewport\q content=\qwidth=device-width, initial-scale=1.0\q>
      <meta http-equiv=\qContent-Security-Policy\q content=\q"
  ++ csp
  ++ lit "\q>
      <title>Codex Rate Limit Details</title>
      <link href=\q"
  ++ styleUri
  ++ lit "\q rel=\qstylesheet\q>
      <style nonce=\q"
  ++ nonce
  ++ lit "\q>
        .progress-fill.usage.medium {
          background-color: "
  ++ warningColor
  ++ lit " !important;
        }
        .progress-fill.usage.high {
          background-color: "
  ++ criticalColor
  ++ lit " !important;
        }
        "
  ++ join (lit "\n") widthRules
  ++ lit "
      </style>
    </head>
    <body>
      <div class=\qcontainer\q>
        <div class=\qheader\q>
          CODEX RATELIMIT - LIVE USAGE MONITOR
        </div>

        "
  ++ progressSection
  ++ lit "

        <div class=\qtoken-usage\q>
          <h3>\uD83D\uDCCA Token Usage Summary</h3>
          <div class=\qtoken-line\q><strong>Total:</strong> "
  ++ formatTokenUsage (total_usage data)
  ++ lit "</div>
          <div class=\qtoken-line\q><strong>Last:</strong> "
  ++ formatTokenUsage (last_usage data)
  ++ lit "</div>
        </div>

        <div class=\qrefresh-info\q>
          Last updated: "
  ++ Date_toLocaleString (current_time data)
  ++ lit "<br>
          <button id=\qrefreshButton\q class=\qaction-button\q>
            \uD83D\uDD04 Refresh
          </button>
        </div>
      </div>

      <script nonce=\q"
  ++ nonce
  ++ lit "\q>
        const vscode = acquireVsCodeApi();

        const refreshButton = document.getElementById('refreshButton');
        refreshButton?.addEventListener('click', () => {
          vscode.postMessage({ command: 'refresh' });
        });
      </script>
    </body>
    </html>"
.

(** [_getErrorHtml(errorMessage)] *)
Definition _getErrorHtml (this : RateLimitWebView) (errorMessage : jsstring) : jsstring :=
  let styleUri := asWebviewUri (Uri_joinPath (_extensionUri this) [lit "media"; lit "styles.css"]) in
  let nonce := _nonce this in
  let csp := join (lit " ")
    [lit "default-src 'none';";
     lit "img-src " ++ webview_cspSource (_panel this) ++ lit ";";
     lit "style-src " ++ webview_cspSource (_panel this) ++ lit " 'nonce-" ++ nonce ++ lit "';";
     lit "script-src 'nonce-" ++ nonce ++ lit "';"] in
  let safeErrorMessage := _escapeHtml errorMessage in
  lit "<!DOCTYPE html>
    <html lang=\qen\q>
    <head>
      <meta charset=\qUTF-8\q>
      <meta name=\qviewport\q content=\qwidth=device-width, initial-scale=1.0\q>
      <meta http-equiv=\qContent-Security-Policy\q content=\q"
  ++ csp
  ++ lit "\q>
      <title>Codex Rate Limit Details - Error</title>
      <link href=\q"
  ++ styleUri
  ++ lit "\q rel=\qstylesheet\q>
    </head>
    <body>
      <div class=\qcontainer\q>
        <div class=\qerror-state\q>
          <h2>\u26A0\uFE0F Error</h2>
          <p>"
  ++ safeErrorMessage
  ++ lit "</p>
          <button id=\qerrorRefreshButton\q class=\qaction-button\q>
            \uD83D\uDD04 Try Again
          </button>
        </div>
      </div>

      <script nonce=\q"
  ++ nonce
  ++ lit "\q>
        const vscode = acquireVsCodeApi();

        const errorRefreshButton = document.getElementById('errorRefreshButton');
        errorRefreshButton?.addEventListener('click', () => {
          vscode.postMessage({ command: 'refresh' });
        });
      </script>
    </body>
    </html>"
.

(* ------------------------------------------------------------------ *)
(** ** The manager: objects, the singleton slot and the log *)

Record LogEntry := {
  log_message : jsstring;
  log_forceFlush : bool
}.

(** [objects] holds every [RateLimitWebView] constructed so far, in order
    of construction; a reference to one is its position. [currentPanel]
    is the static field of the class. [logged] lists the calls of [log],
    oldest first. [pending] lists the instances whose [_update] was called
    without [await] and is suspended at its own [await], oldest call
    first. *)
Record World := {
  objects : list RateLimitWebView;
  currentPanel : option nat;
  logged : list LogEntry;
  pending : list nat
}.

(** What the host and the collaborators answer during one call. *)
Record Env := {
  activeTextEditor : option (option ViewColumn);
  getRateLimitData : outcome FetchResult;
  configuration : Configuration;
  randomBytes : nat -> list byte;
  host_cspSource : jsstring
}.

(** Computations that read and write the world and may throw. *)
Definition M (A : Type) : Type := World -> outcome A * World.

Definition ret {A : Type} (a : A) : M A := fun w => (Returned a, w).

Definition bind {A B : Type} (m : M A) (k : A -> M B) : M B :=
  fun w =>
    match m w with
    | (Returned a, w') => k a w'
    | (Threw e, w') => (Threw e, w')
    end.

Definition try_catch {A : Type} (body : M A) (handler : thrown -> M A) : M A :=
  fun w =>
    match body w with
    | (Returned a, w') => (Returned a, w')
    | (Threw e, w') => handler e w'
    end.

(** [await p], resumed when the promise has settled with [p]. *)
Definition await {A : Type} (p : outcome A) : M A := fun w => (p, w).

Definition throw {A : Type} (e : thrown) : M A := fun w => (Threw e, w).

Notation "x <- m ;; k" := (bind m (fun x => k))
  (at level 61, m at next level, right associativity).
Notation "m ;;; k" := (bind m (fun _ => k))
  (at level 61, right associativity).

Fixpoint update_at {A : Type} (i : nat) (f : A -> A) (l : list A) : list A :=
  match l, i with
  | [], _ => []
  | x :: rest, O => f x :: rest
  | x :: rest, S i' => x :: update_at i' f rest
  end.

(** Reading a field of [this]; a reference to no object throws. *)
Definition deref (this : nat) : M RateLimitWebView :=
  fun w =>
    match nth_error (objects w) this with
    | Some o => (Returned o, w)
    | None => (Threw (ErrorObject (lit "Cannot read properties of undefined")), w)
    end.

Definition modify_object (this : nat) (f : RateLimitWebView -> RateLimitWebView) : M unit :=
  fun w =>
    (Returned tt,
     {| objects := update_at this f (objects w);
        currentPanel := currentPanel w;
        logged := logged w;
        pending := pending w |}).

Definition with_panel (f : WebviewPanel -> WebviewPanel) (o : RateLimitWebView) : RateLimitWebView :=
  {| _panel := f (_panel o);
     _extensionUri := _extensionUri o;
     _nonce := _nonce o;
     _disposables := _disposables o |}.

(** The write of [this._panel.webview.html = html] on a panel that
    accepts it. *)
Definition set_webview_html (this : nat) (html : jsstring) : M unit :=
  modify_object this
    (with_panel (fun p =>
       {| viewType := viewType p; title := title p; showOptions := showOptions p;
          enableScripts := enableScripts p; localResourceRoots := localResourceRoots p;
          webview_cspSource := webview_cspSource p;
          webview_html := html;
          revealed := revealed p |})).

(** [this._panel.reveal(column)] *)
Definition reveal (this : nat) (column : option ViewColumn) : M unit :=
  modify_object this
    (with_panel (fun p =>
       {| viewType := viewType p; title := title p; showOptions := showOptions p;
          enableScripts := enableScripts p; localResourceRoots := localResourceRoots p;
          webview_cspSource := webview_cspSource p;
          webview_html := webview_html p;
          revealed := revealed p ++ [column] |})).

(** An event registration made with [this._disposables] as third argument
    pushes its handle on that array. *)
Definition push_disposable (this : nat) (handle : Disposable) : M unit :=
  modify_object this
    (fun o =>
       {| _panel := _panel o; _extensionUri := _extensionUri o; _nonce := _nonce o;
          _disposables := _disposables o ++ [handle] |}).

(** [log(message, forceFlush)]; a call without second argument is recorded
    with [false]. *)
Definition log (message : jsstring) (forceFlush : bool) : M unit :=
  fun w =>
    (Returned tt,
     {| objects := objects w;
        currentPanel := currentPanel w;
        logged := logged w ++ [{| log_message := message; log_forceFlush := forceFlush |}];
        pending := pending w |}).

Definition read_currentPanel : M (option nat) := fun w => (Returned (currentPanel w), w).

Definition write_currentPanel (v : option nat) : M unit :=
  fun w =>
    (Returned tt,
     {| objects := objects w; currentPanel := v; logged := logged w; pending := pending w |}).

(** [new] allocates the object; the result is the reference to it. *)
Definition allocate (o : RateLimitWebView) : M nat :=
  fun w =>
    (Returned (length (objects w)),
     {| objects := objects w ++ [o]; currentPanel := currentPanel w; logged := logged w;
        pending := pending w |}).

(** [a || b] on an optional string: the empty string is falsy. *)
Definition or_else (a : option jsstring) (b : jsstring) : jsstring :=
  match a with
  | Some (c :: rest) => c :: rest
  | Some [] => b
  | None => b
  end.

(** [this._panel.webview.html = html]. The assignment goes through the
    setter of the host, and the host decides whether it is accepted: on a
    panel that has been disposed of the setter throws. [refusal] is what
    it throws, [None] on a panel that is still there. *)
Definition assign_webview_html (refusal : option thrown) (this : nat) (html : jsstring)
    : M unit :=
  match refusal with
  | None => set_webview_html this html
  | Some e => throw e
  end.

(** The [try] block of [_update]. *)
Definition update_try (refusal : option thrown) (env : Env) (this : nat)
    (self : RateLimitWebView) : M unit :=
  result <- await (getRateLimitData env) ;;
  if negb (found result) then
    assign_webview_html refusal this
      (_getErrorHtml self (or_else (error result) (lit "No rate limit data found")))
  else
    match data result with
    | None =>
        assign_webview_html refusal this
          (_getErrorHtml self (lit "Rate limit data is undefined"))
    | Some data =>
        assign_webview_html refusal this (_getHtml self (configuration env) data) ;;;
        log (lit "WebView updated successfully") false
    end.

(** The [catch] block of [_update]. Its assignment stands outside any
    [try]. *)
Definition update_catch (refusal : option thrown) (this : nat) (self : RateLimitWebView)
    (error : thrown) : M unit :=
  let errorMessage :=
    match error with
    | ErrorObject message => message
    | OtherValue => lit "Unknown error"
    end in
  log (lit "Error updating WebView: " ++ errorMessage) true ;;;
  assign_webview_html refusal this (_getErrorHtml self errorMessage).

(** [_update()]. The call reads the panel and awaits the collaborator;
    what follows the [await] runs with the answer [refusal] of the host
    to the assignments. The outcome is how the promise of the call
    settles: [Threw] is a rejection. *)
Definition update_with (refusal : option thrown) (env : Env) (this : nat) : M unit :=
  self <- deref this ;;
  try_catch (update_try refusal env this self) (update_catch refusal this self).

(** [_update()] on a panel that is still there. *)
Definition _update (env : Env) (this : nat) : M unit := update_with None env this.

(** [this._update()] without [await], as the constructor and
    [createOrShow] call it. The method runs up to its [await] at the call:
    it reads the panel and calls the data collaborator, which leaves the
    world as it is. What follows the [await] runs after the caller has
    returned, when the promise of the collaborator is settled; until then
    the update is pending. A rejection does not reach the caller. *)
Definition start_update (this : nat) : M unit :=
  fun w =>
    (Returned tt,
     {| objects := objects w; currentPanel := currentPanel w; logged := logged w;
        pending := pending w ++ [this] |}).

(** [vscode.window.createWebviewPanel(viewType, title, showOptions, options)] *)
Definition createWebviewPanel (env : Env) (viewType title : jsstring) (showOptions : ViewColumn)
    (enableScripts : bool) (localResourceRoots : list Uri) : WebviewPanel :=
  {| viewType := viewType; title := title; showOptions := showOptions;
     enableScripts := enableScripts; localResourceRoots := localResourceRoots;
     webview_cspSource := host_cspSource env;
     webview_html := lit "";
     revealed := [] |}.

(** [new RateLimitWebView(panel, extensionUri)] *)
Definition new_RateLimitWebView (env : Env) (panel : WebviewPanel) (extensionUri : Uri) : M nat :=
  this <- allocate {| _panel := panel;
                      _extensionUri := extensionUri;
                      _nonce := _generateNonce (randomBytes env);
                      _disposables := [] |} ;;
  start_update this ;;;
  push_disposable this DidDisposeSubscription ;;;
  push_disposable this DidReceiveMessageSubscription ;;;
  ret this.

(** [RateLimitWebView.createOrShow(extensionUri)] *)
Definition createOrShow (env : Env) (extensionUri : Uri) : M unit :=
  let column :=
    match activeTextEditor env with
    | Some viewColumn => viewColumn
    | None => None
    end in
  current <- read_currentPanel ;;
  match current with
  | Some this =>
      reveal this column ;;;
      start_update this ;;;
      ret tt
  | None =>
      let panel :=
        createWebviewPanel env (lit "codexRateLimit") (lit "Codex Rate Limit Details")
          (match column with Some c => c | None => One end)
          true [Uri_joinPath extensionUri [lit "media"]] in
      this <- new_RateLimitWebView env panel extensionUri ;;
      write_currentPanel (Some this)
  end.

(** [RateLimitWebView.revive(panel, extensionUri)] *)
Definition revive (env : Env) (panel : WebviewPanel) (extensionUri : Uri) : M unit :=
  this <- new_RateLimitWebView env panel extensionUri ;;
  write_currentPanel (Some this).

(** The state before the extension has shown anything. *)
Definition initial_world : World :=
  {| objects := []; currentPanel := None; logged := []; pending := [] |}.

End Webview.

(* ------------------------------------------------------------------ *)
(** * Auxiliary definitions for the statements *)

(** A configuration that sets both thresholds. *)
Definition thresholds (warning critical : number) : Configuration :=
  {| color_warningColor := None;
     color_criticalColor := None;
     color_warningThreshold := Some warning;
     color_criticalThreshold := Some critical |}.


(** A decision procedure for [includes]. *)
Fixpoint startsWith (t s : jsstring) : bool :=
  match s, t with
  | [], _ => true
  | _ :: _, [] => false
  | c :: s', c' :: t' => N.eqb c c' && startsWith t' s'
  end.

Fixpoint search (t s : jsstring) : bool :=
  startsWith t s ||
  match t with
  | [] => false
  | _ :: t' => search t' s
  end.

(** The same window and the same snapshot with other numeric fields. *)
Definition with_percents {Date : Type} (w : UsageWindow Date) (time used : number) : UsageWindow Date :=
  {| time_percent := time; used_percent := used;
     reset_time := reset_time w; outdated := outdated w |}.

Definition with_primary {TokenUsage Date : Type} (data : RateLimitData TokenUsage Date)
    (w : option (UsageWindow Date)) : RateLimitData TokenUsage Date :=
  {| primary := w; secondary := secondary data; total_usage := total_usage data;
     last_usage := last_usage data; current_time := current_time data |}.

Definition with_secondary {TokenUsage Date : Type} (data : RateLimitData TokenUsage Date)
    (w : option (UsageWindow Date)) : RateLimitData TokenUsage Date :=
  {| primary := primary data; secondary := w; total_usage := total_usage data;
     last_usage := last_usage data; current_time := current_time data |}.

(** A bar of an outdated window as it stands in the markup: the fill
    element with its class and identifier, followed by the cell that shows
    the value. *)
Definition outdated_bar (kind id : string) : jsstring :=
  lit "<div class=\qprogress-fill " ++ lit kind ++ lit " outdated\q id=\q" ++ lit id
  ++ lit "\q></div>
              </div>
              <div class=\qprogress-percentage\q>N/A</div>".

Definition zero_width_rule (id : string) : jsstring :=
  lit "#" ++ lit id ++ lit " { width: 0%; }".

(** The markup the display surface of object [this] currently holds. *)
Definition markup_of {Uri : Type} (w : World Uri) (this : nat) : option jsstring :=
  option_map (fun o => webview_html (_panel o)) (nth_error (objects w) this).

(** The message [_update] derives from what it caught. *)
Definition caught_message (e : thrown) : jsstring :=
  match e with
  | ErrorObject message => message
  | OtherValue => lit "Unknown error"
  end.

(** Sample inputs for the statements below. *)
Definition sample_window (outdated : bool) : UsageWindow unit :=
  {| time_percent := of_Z 55; used_percent := of_Z 80; reset_time := tt; outdated := outdated |}.

Definition sample_data (p s : option (UsageWindow unit)) : RateLimitData unit unit :=
  {| primary := p; secondary := s; total_usage := tt; last_usage := tt; current_time := tt |}.

Definition no_settings : Configuration :=
  {| color_warningColor := None; color_criticalColor := None;
     color_warningThreshold := None; color_criticalThreshold := None |}.

Definition sample_env (fetch : outcome (FetchResult unit unit)) : Env unit unit :=
  {| activeTextEditor := None;
     getRateLimitData := fetch;
     configuration := no_settings;
     randomBytes := fun n => repeat x2a n;
     host_cspSource := lit "https://host.test" |}.

Definition sample_object : RateLimitWebView unit :=
  {| _panel := {| viewType := lit "codexRateLimit"; title := lit "Codex Rate Limit Details";
                  showOptions := One; enableScripts := true; localResourceRoots := [tt];
                  webview_cspSource := lit "https://host.test"; webview_html := lit "";
                  revealed := [] |};
     _extensionUri := tt;
     _nonce := lit "2a2a2a2a2a2a2a2a2a2a2a2a2a2a2a2a";
     _disposables := [] |}.

Definition sample_world : World unit :=
  {| objects := [sample_object]; currentPanel := Some 0%nat; logged := []; pending := [] |}.

(** An instance is live from its construction, which registers its two
    listeners, until [dispose] has released them: as long as its registry
    holds a handle. *)
Definition is_live {Uri : Type} (o : RateLimitWebView Uri) : bool :=
  match _disposables o with
  | [] => false
  | _ :: _ => true
  end.

(** The references of the live instances among [l], whose first object
    has the reference [i]. *)
Fixpoint live_from {Uri : Type} (i : nat) (l : list (RateLimitWebView Uri)) : list nat :=
  match l with
  | [] => []
  | o :: rest => (if is_live o then [i] else []) ++ live_from (S i) rest
  end.

Definition live_instances {Uri : Type} (w : World Uri) : list nat :=
  live_from 0 (objects w).

(** The class with sample collaborators: every token count is shown as
    [0], every date as [now]. *)
Definition sample_stylesheet : jsstring := lit "https://host.test/media/styles.css".

Definition sample_update : Env unit unit -> nat -> M unit unit :=
  _update (fun _ => lit "0") (fun _ => lit "now") (fun u _ => u)
    (fun _ => sample_stylesheet) (fun _ => lit "?").

Definition sample_createOrShow : Env unit unit -> unit -> M unit unit :=
  createOrShow (fun u _ => u).

Definition sample_getErrorHtml : RateLimitWebView unit -> jsstring -> jsstring :=
  _getErrorHtml (fun u _ => u) (fun _ => sample_stylesheet).

Definition sample_getHtml :
    RateLimitWebView unit -> Configuration -> RateLimitData unit unit -> jsstring :=
  _getHtml (fun _ => lit "0") (fun _ => lit "now") (fun u _ => u)
    (fun _ => sample_stylesheet) (fun _ => lit "?").

(** Reading a serialized content security policy: the directives are
    separated by semicolons, and a directive is its name followed by its
    source expressions, separated by spaces. *)
Fixpoint split_on (sep : N) (s : jsstring) : list jsstring :=
  match s with
  | [] => [[]]
  | c :: rest =>
      if N.eqb c sep then [] :: split_on sep rest
      else match split_on sep rest with
           | [] => [[c]]
           | piece :: pieces => (c :: piece) :: pieces
           end
  end.

Definition nonempty {A : Type} (l : list A) : bool :=
  match l with [] => false | _ :: _ => true end.

Definition words (s : jsstring) : list jsstring := filter nonempty (split_on 32 s).

Definition csp_directives (policy : jsstring) : list (list jsstring) :=
  filter nonempty (map words (split_on 59 policy)).

(** The element that carries the policy in a rendered document. *)
Definition csp_meta (policy : jsstring) : jsstring :=
  lit "<meta http-equiv=\qContent-Security-Policy\q content=\q" ++ policy ++ lit "\q>".

Definition nonce_source (nonce : jsstring) : jsstring :=
  lit "'nonce-" ++ nonce ++ lit "'".

Fixpoint endsWith_at (n : nat) (t s : jsstring) : bool :=
  match n with
  | O => JsString.eqb t s
  | S n' => match t with [] => false | _ :: t' => endsWith_at n' t' s end
  end.

Definition endsWith (t s : jsstring) : bool := endsWith_at (length t - length s) t s.

(* ------------------------------------------------------------------ *)
(** * The allow-list grammars, as the specification words them *)

Module ColorGrammar.

Definition Lang : Type := jsstring -> Prop.

Definition exactly (t : string) : Lang := fun s => s = lit t.

Definition optional (p : Lang) : Lang := fun s => s = [] \/ p s.

Definition whitespace : Lang := fun s => forallb isWhiteSpace s = true.

(** The concatenation of the languages of a list. *)
Fixpoint sequence (ps : list Lang) (s : jsstring) : Prop :=
  match ps with
  | [] => s = []
  | p :: ps' => exists a b, s = a ++ b /\ p a /\ sequence ps' b
  end.

(** Strings of decimal digits (possibly empty) and the number they write. *)
Definition digits (s : jsstring) : Prop := forallb digit s = true.

Definition value (s : jsstring) : N :=
  fold_left (fun acc c => (10 * acc + (c - 48))%N) s 0%N.

(** A numeral with integer digits [ip] and fraction digits [fp] (none when
    [fp] is empty) is written [ip], or [ip.fp]. Its value is
    [value (ip ++ fp) / 10 ^ length fp]. *)
Definition fraction_text (fp : jsstring) : jsstring :=
  match fp with
  | [] => []
  | _ :: _ => lit "." ++ fp
  end.

Definition numeral_text (ip fp : jsstring) : jsstring := ip ++ fraction_text fp.

Definition numeral_le (ip fp : jsstring) (n : N) : Prop :=
  (value (ip ++ fp) <= n * 10 ^ N.of_nat (length fp))%N.

Definition numeral_lt (ip fp : jsstring) (n : N) : Prop :=
  (value (ip ++ fp) < n * 10 ^ N.of_nat (length fp))%N.

(** One to three integer digits, not padded with a zero to three. *)
Definition plain_integer (ip : jsstring) : Prop :=
  digits ip /\ (1 <= length ip <= 3)%nat /\ (length ip = 3%nat -> hd 48%N ip <> 48%N).

(** An integer channel: one to three digits, at most 255. *)
Definition channel : Lang :=
  fun s => digits s /\ (1 <= length s <= 3)%nat /\ (value s <= 255)%N.

(** An alpha value: at most one integer digit, which may be left out
    before a fraction, and a value in [0,1]. *)
Definition alpha : Lang :=
  fun s => exists ip fp,
    s = numeral_text ip fp /\ s <> [] /\ digits ip /\ digits fp
    /\ (length ip <= 1)%nat /\ numeral_le ip fp 1.

(** A hue: an integer or a decimal in [0,360]. *)
Definition hue : Lang :=
  fun s => exists ip fp,
    s = numeral_text ip fp /\ plain_integer ip /\ digits fp /\ numeral_le ip fp 360.

(** A percentage: an integer or a decimal within [bound], then [%]. *)
Definition percentage (bound : jsstring -> jsstring -> Prop) : Lang :=
  fun s => exists ip fp,
    s = numeral_text ip fp ++ lit "%" /\ plain_integer ip /\ digits fp /\ bound ip fp.

Definition percent_in_range : Lang := percentage (fun ip fp => numeral_le ip fp 100).
Definition percent_below_101 : Lang := percentage (fun ip fp => numeral_lt ip fp 101).

Definition alpha_part : Lang :=
  optional (sequence [whitespace; exactly ","; whitespace; alpha]).

Definition hex_color : Lang :=
  fun s => exists ds,
    s = lit "#" ++ ds /\ forallb hex_digit ds = true
    /\ (length ds = 3 \/ length ds = 6 \/ length ds = 8)%nat.

Definition rgb_color : Lang :=
  sequence [exactly "rgb"; optional (exactly "a"); exactly "("; whitespace; channel;
            whitespace; exactly ","; whitespace; channel; whitespace; exactly ",";
            whitespace; channel; alpha_part; whitespace; exactly ")"].

Definition hsl_color (percent : Lang) : Lang :=
  sequence [exactly "hsl"; optional (exactly "a"); exactly "("; whitespace; hue;
            whitespace; exactly ","; whitespace; percent; whitespace; exactly ",";
            whitespace; percent; alpha_part; whitespace; exactly ")"].

Definition color (percent : Lang) : Lang :=
  fun s => hex_color s \/ rgb_color s \/ hsl_color percent s.

End ColorGrammar.
Import ColorGrammar.

(** ** Tools for reasoning about the patterns *)

(** The longest string a pattern matches, when there is a bound. *)
Fixpoint max_len (r : regex) : option nat :=
  match r with
  | Void | Eps => Some 0%nat
  | Class _ => Some 1%nat
  | Cat a b =>
      match max_len a, max_len b with
      | Some x, Some y => Some (x + y)%nat
      | _, _ => None
      end
  | Alt a b =>
      match max_len a, max_len b with
      | Some x, Some y => Some (Nat.max x y)
      | _, _ => None
      end
  | Star _ => None
  end.

(** Every character class of the pattern lies inside [P]. *)
Fixpoint chars_ok (P : N -> bool) (r : regex) : Prop :=
  match r with
  | Void | Eps => True
  | Class p => forall c, p c = true -> P c = true
  | Cat a b | Alt a b => chars_ok P a /\ chars_ok P b
  | Star a => chars_ok P a
  end.

(** All strings over an alphabet, by length. *)
Fixpoint strings_of (alphabet : list N) (n : nat) : list jsstring :=
  match n with
  | O => [[]]
  | S n' => flat_map (fun c => map (cons c) (strings_of alphabet n')) alphabet
  end.

Definition digit_strings : list jsstring :=
  flat_map (strings_of (lit "0123456789")) [0; 1; 2; 3]%nat.

(** What the patterns for integer parts accept, among digit strings of at
    most three digits. *)
Definition plain_b (ip : jsstring) : bool :=
  (1 <=? length ip)%nat && ((length ip <=? 2)%nat || negb (N.eqb (hd 48%N ip) 48%N)).

Definition channel_b (s : jsstring) : bool := (1 <=? length s)%nat && (value s <=? 255)%N.

Definition agree (r : regex) (f : jsstring -> bool) (s : jsstring) : bool :=
  Bool.eqb (RegExp_test r s) (f s).

(** The code units that occur in an accepted color. *)
Definition color_char (c : N) : bool :=
  hex_digit c || one_of "#rgbahsl(),.%" c || isWhiteSpace c.

(* ------------------------------------------------------------------ *)
(** * The earlier revision *)

(** The source files also hold the revision that preceded the hardening
    of the sanitizer and of the policy. The properties above are about
    the later revision; this module records where the earlier one
    differed. *)
Module Legacy.

(** [[#a-zA-Z0-9(),.%\s-]] *)
Definition safe_char (c : N) : bool :=
  one_of "#" c || in_range "a" "z" c || in_range "A" "Z" c || in_range "0" "9" c
  || one_of "(),.%" c || isWhiteSpace c || one_of "-" c.

(** [/^[#a-zA-Z0-9(),.%\s-]{1,50}$/] *)
Definition SAFE_COLOR_PATTERN : regex := RepRange 1 49 (Class safe_char).

Definition sanitizeColor (input : option jsstring) (fallback : jsstring) : jsstring :=
  match input with
  | None => fallback
  | Some [] => fallback
  | Some input =>
      let trimmed := trim input in
      if RegExp_test SAFE_COLOR_PATTERN trimmed then trimmed else fallback
  end.

(** The policy built by [_getHtml] and [_getErrorHtml]. *)
Definition policy (cspSource nonce : jsstring) : jsstring :=
  join (lit " ")
    [lit "default-src 'none';";
     lit "img-src " ++ cspSource ++ lit " data:;";
     lit "style-src " ++ cspSource ++ lit " 'nonce-" ++ nonce ++ lit "' 'unsafe-inline';";
     lit "script-src 'nonce-" ++ nonce ++ lit "';"].

End Legacy.
(* ------------------------------------------------------------------ *)
(** * Auxiliary definitions for the further properties *)

(** The order of the severity tiers. *)
Definition severity (class : jsstring) : nat :=
  if JsString.eqb class (lit "high") then 2
  else if JsString.eqb class (lit "medium") then 1
  else 0.

(** Text in which no markup can start: none of the characters [<], [>],
    double quote and apostrophe occurs, and every [&] begins one of the
    five entities [_escapeHtml] writes. *)
Definition starts_entity (s : jsstring) : bool :=
  existsb (fun entity => startsWith s (lit entity)) ["amp;"; "lt;"; "gt;"; "quot;"; "#39;"]%string.

Fixpoint escaped (s : jsstring) : bool :=
  match s with
  | [] => true
  | c :: rest =>
      (if (c =? 38)%N then starts_entity rest else negb (html_special c)) && escaped rest
  end.

(** A bar as it stands in the markup: the fill element with its class
    and identifier, followed by the cell that shows the value. *)
Definition bar (kind : string) (class : jsstring) (id : string) (text : jsstring) : jsstring :=
  lit "<div class=\qprogress-fill " ++ lit kind ++ lit " " ++ class ++ lit "\q id=\q" ++ lit id
  ++ lit "\q></div>
              </div>
              <div class=\qprogress-percentage\q>" ++ text ++ lit "</div>".

Definition width_rule (id : string) (width : jsstring) : jsstring :=
  lit "#" ++ lit id ++ lit " { width: " ++ width ++ lit "%; }".

(** The line under a time bar. *)
Definition reset_line (resetTimeStr outdatedStr : jsstring) : jsstring :=
  lit "<div class=\qprogress-details\q>Reset: " ++ resetTimeStr ++ outdatedStr ++ lit "</div>".

(** The rule of the style element that colors a tier. *)
Definition tier_rule (tier : string) (color : jsstring) : jsstring :=
  lit ".progress-fill.usage." ++ lit tier ++ lit " {
          background-color: " ++ color ++ lit " !important;
        }".

(** The same settings with other colors. *)
Definition with_colors (config : Configuration) (warningColor criticalColor : option jsstring)
    : Configuration :=
  {| color_warningColor := warningColor;
     color_criticalColor := criticalColor;
     color_warningThreshold := color_warningThreshold config;
     color_criticalThreshold := color_criticalThreshold config |}.

(** How many windows a snapshot holds. *)
Definition windows {TokenUsage Date : Type} (data : RateLimitData TokenUsage Date) : nat :=
  match primary data with Some _ => 1 | None => 0 end
  + match secondary data with Some _ => 1 | None => 0 end.

(** The instance with another markup on its display surface. *)
Definition with_html {Uri : Type} (html : jsstring) (o : RateLimitWebView Uri)
    : RateLimitWebView Uri :=
  with_panel (fun p =>
     {| viewType := viewType p; title := title p; showOptions := showOptions p;
        enableScripts := enableScripts p; localResourceRoots := localResourceRoots p;
        webview_cspSource := webview_cspSource p;
        webview_html := html;
        revealed := revealed p |}) o.

(* ------------------------------------------------------------------ *)
(** * The listeners and [dispose] *)

Section Events.

Variable TokenUsage : Type.
Variable Date : Type.
Variable Uri : Type.
Variable formatTokenUsage : TokenUsage -> jsstring.
Variable Date_toLocaleString : Date -> jsstring.
Variable Uri_joinPath : Uri -> list jsstring -> Uri.
Variable asWebviewUri : Uri -> jsstring.
Variable shortest_decimal : number -> jsstring.

(** A message posted by the display surface can be any value. The host
    gives its JSON text as the template literal shows it, and what reading
    its [command] property gives: the string, when it is one; [None] for
    any other value; or the error thrown when the message is [null] or
    [undefined]. *)
Variable Message : Type.
Variable JSON_stringify : Message -> jsstring.
Variable message_command : Message -> outcome (option jsstring).

Local Notation "x <- m ;; k" := (bind m (fun x => k))
  (at level 61, m at next level, right associativity).
Local Notation "m ;;; k" := (bind m (fun _ => k))
  (at level 61, right associativity).

(** An expression whose outcome the host decides: its value, or what
    evaluating it throws. *)
Definition evaluate {A : Type} (o : outcome A) : M Uri A := fun w => (o, w).

(** The listener the constructor registers with [onDidReceiveMessage].
    It is [async]: what it throws rejects a promise nobody awaits. *)
Definition onDidReceiveMessage (env : Env TokenUsage Date) (this : nat) (message : Message)
    : M Uri unit :=
  log (lit "WebView received message: " ++ JSON_stringify message) true ;;;
  command <- evaluate (message_command message) ;;
  match command with
  | Some command =>
      if JsString.eqb command (lit "refresh") then
        log (lit "WebView refresh triggered") true ;;;
        _update formatTokenUsage Date_toLocaleString Uri_joinPath asWebviewUri
          shortest_decimal env this
      else ret tt
  | None => ret tt
  end.

(** The calls [dispose] makes on the host: [this._panel.dispose()] and
    [x.dispose()] on a handle of the registry. *)
Inductive HostCall :=
| PanelDispose (this : nat)
| HandleDispose (this : nat) (x : Disposable).

(** The world together with the calls made on the host, oldest first. *)
Record Host := {
  world : World Uri;
  host_calls : list HostCall
}.

Definition H (A : Type) : Type := Host -> outcome A * Host.

Definition in_world {A : Type} (m : M Uri A) : H A :=
  fun h =>
    (fst (m (world h)), {| world := snd (m (world h)); host_calls := host_calls h |}).

Definition host_call (c : HostCall) : H unit :=
  fun h => (Returned tt, {| world := world h; host_calls := host_calls h ++ [c] |}).

Definition done : H unit := fun h => (Returned tt, h).

Definition and_then {A B : Type} (m : H A) (k : A -> H B) : H B :=
  fun h =>
    match m h with
    | (Returned a, h') => k a h'
    | (Threw e, h') => (Threw e, h')
    end.

(** [this._disposables = handles], as [pop] leaves the array. *)
Definition set_disposables (this : nat) (handles : list Disposable) : M Uri unit :=
  modify_object this
    (fun o =>
       {| _panel := _panel o; _extensionUri := _extensionUri o; _nonce := _nonce o;
          _disposables := handles |}).

(** The loop of [dispose]. A pass pops the last handle of the registry
    and disposes of it (a handle is an object, so the guard [if (x)]
    holds), and the loop runs once for each handle; [stack] is the
    registry at the start of the loop, last handle first. *)
Fixpoint dispose_loop (this : nat) (stack : list Disposable) : H unit :=
  match stack with
  | [] => done
  | x :: below =>
      and_then (in_world (set_disposables this (rev below))) (fun _ =>
      and_then (host_call (HandleDispose this x)) (fun _ =>
      dispose_loop this below))
  end.

(** [dispose()]. [on_panel_dispose] is what the host runs inside
    [this._panel.dispose()]: nothing when the panel was disposed of
    before, the listeners of [onDidDispose] otherwise. *)
Definition dispose (on_panel_dispose : H unit) (this : nat) : H unit :=
  and_then (in_world (write_currentPanel None)) (fun _ =>
  and_then (host_call (PanelDispose this)) (fun _ =>
  and_then on_panel_dispose (fun _ =>
  and_then (in_world (deref this)) (fun self =>
  dispose_loop this (rev (_disposables self)))))).

(** The listener the constructor registers with [onDidDispose]. *)
Definition onDidDispose (this : nat) : H unit := dispose done this.

(** Whether the panel of [this] has been disposed of: closing a panel
    makes the host run the listener of [onDidDispose], and so
    [this._panel.dispose()] has been called. *)
Definition panel_disposed (h : Host) (this : nat) : bool :=
  existsb (fun c => match c with
                    | PanelDispose that => Nat.eqb that this
                    | HandleDispose _ _ => false
                    end) (host_calls h).

(** What the setter of [webview.html] throws on a panel that has been
    disposed of. *)
Variable disposed_error : thrown.

Definition refusal (h : Host) (this : nat) : option thrown :=
  if panel_disposed h this then Some disposed_error else None.

(** [_update()] on the host, for a call made while the panel was there:
    [h] is the state in which the promise of the collaborator settles,
    and the assignments that follow are refused when the panel has been
    disposed of by then. *)
Definition update_on_host (env : Env TokenUsage Date) (this : nat) : H unit :=
  fun h =>
    in_world (update_with formatTokenUsage Date_toLocaleString Uri_joinPath asWebviewUri
                shortest_decimal (refusal h this) env this) h.

Fixpoint remove_first (this : nat) (l : list nat) : list nat :=
  match l with
  | [] => []
  | that :: later => if Nat.eqb that this then later else that :: remove_first this later
  end.

Definition set_pending (l : list nat) : M Uri unit :=
  fun w =>
    (Returned tt,
     {| objects := objects w; currentPanel := currentPanel w; logged := logged w;
        pending := l |}).

(** The promise a pending update of [this] awaits settles, with the
    outcome [env] gives, and the update runs to its end. The outcome is
    how its own promise settles; with no pending update of [this] nothing
    happens. *)
Definition resume (env : Env TokenUsage Date) (this : nat) : H unit :=
  fun h =>
    if existsb (Nat.eqb this) (pending (world h)) then
      and_then (in_world (set_pending (remove_first this (pending (world h)))))
        (fun _ => update_on_host env this) h
    else (Returned tt, h).

End Events.

Definition sample_revive : Env unit unit -> WebviewPanel unit -> unit -> M unit unit :=
  revive (Uri := unit).

Definition sample_resume : Env unit unit -> nat -> H unit unit :=
  resume (fun _ => lit "0") (fun _ => lit "now") (fun u _ => u)
    (fun _ => sample_stylesheet) (fun _ => lit "?")
    (ErrorObject (lit "Webview is disposed")).

(* ------------------------------------------------------------------ *)
(** * Properties *)

(** ** The matcher decides the language *)

Section RegexTheory.

Lemma nullable_lang (r : regex) : nullable r = true <-> lang r [].
Proof.
  induction r as [| |p|a IHa b IHb|a IHa b IHb|a IHa]; simpl.
  - split; [discriminate | tauto].
  - tauto.
  - split; [discriminate | intros (c & H & _); discriminate].
  - rewrite andb_true_iff, IHa, IHb. split.
    + intros [Ha Hb]. exists [], []. auto.
    + intros (s1 & s2 & E & Ha & Hb).
      symmetry in E. apply app_eq_nil in E. destruct E; subst. auto.
  - rewrite orb_true_iff, IHa, IHb. tauto.
  - split; [intros _ | reflexivity]. exists []. split; [reflexivity | constructor].
Qed.

Lemma lang_mkCat (a b : regex) (s : jsstring) : lang (mkCat a b) s <-> lang (Cat a b) s.
Proof.
  assert (V : lang (Cat a Void) s <-> False).
  { simpl. split; [intros (? & ? & _ & _ & []) | tauto]. }
  destruct a; simpl mkCat; try (destruct b; try reflexivity; rewrite V; simpl; tauto).
  - simpl. split; [tauto | intros (? & ? & _ & [] & _)].
  - destruct b; try (rewrite V; simpl; tauto);
      (split; [intros H; exists [], s; simpl; auto
              | intros (s1 & s2 & E & E1 & H); simpl in E1; subst; exact H]).
Qed.

Lemma lang_mkAlt (a b : regex) (s : jsstring) : lang (mkAlt a b) s <-> lang (Alt a b) s.
Proof.
  destruct a; destruct b; simpl; tauto.
Qed.

Lemma lang_star_cons (a : regex) (c : N) (s : jsstring) :
  lang (Star a) (c :: s) <->
  exists s1 s2, s = s1 ++ s2 /\ lang a (c :: s1) /\ lang (Star a) s2.
Proof.
  split.
  - intros (ss & E & F). revert E. induction F as [|x ss Hx F IH]; simpl; intros E.
    + discriminate.
    + destruct x as [|c' x].
      * apply IH, E.
      * simpl in E. injection E as -> ->.
        exists x, (concat ss). repeat split; auto. exists ss. auto.
  - intros (s1 & s2 & -> & H1 & ss & -> & F).
    exists ((c :: s1) :: ss). split; [reflexivity | constructor; assumption].
Qed.

Lemma deriv_lang (r : regex) : forall c s, lang (deriv c r) s <-> lang r (c :: s).
Proof.
  induction r as [| |p|a IHa b IHb|a IHa b IHb|a IHa]; intros c s.
  - simpl. tauto.
  - simpl. split; [tauto | discriminate].
  - simpl. destruct (p c) eqn:E; simpl.
    + split.
      * intros ->. exists c. auto.
      * intros (c' & H & _). injection H as _ H. assumption.
    + split; [tauto|]. intros (c' & H & Hp). injection H as -> _. congruence.
  - assert (K : lang (Cat (deriv c a) b) s <->
                exists s1 s2, s = s1 ++ s2 /\ lang a (c :: s1) /\ lang b s2).
    { simpl. split; intros (s1 & s2 & E & H1 & H2); exists s1, s2;
        (repeat split; auto); apply IHa; assumption. }
    assert (L : lang (Cat a b) (c :: s) <->
                (exists s1 s2, s = s1 ++ s2 /\ lang a (c :: s1) /\ lang b s2)
                \/ (lang a [] /\ lang b (c :: s))).
    { simpl. split.
      - intros (s1 & s2 & E & H1 & H2). destruct s1 as [|c' s1].
        + right. simpl in E. subst. auto.
        + left. simpl in E. injection E as -> ->. exists s1, s2. auto.
      - intros [(s1 & s2 & -> & H1 & H2) | [H1 H2]].
        + exists (c :: s1), s2. auto.
        + exists [], (c :: s). auto. }
    rewrite L. cbn [deriv]. destruct (nullable a) eqn:N.
    + rewrite lang_mkAlt. cbn [lang]. rewrite lang_mkCat, K, IHb.
      apply nullable_lang in N. tauto.
    + rewrite lang_mkCat, K. split; [tauto|]. intros [H | [H _]]; [assumption|].
      apply nullable_lang in H. congruence.
  - cbn [deriv]. rewrite lang_mkAlt. simpl. rewrite IHa, IHb. tauto.
  - cbn [deriv]. rewrite lang_mkCat, lang_star_cons. cbn [lang].
    split; intros (s1 & s2 & E & H1 & H2); exists s1, s2;
      (repeat split; auto); apply IHa; assumption.
Qed.

(** [RegExp_test] accepts exactly the strings of the language. *)
Theorem RegExp_test_lang (r : regex) (s : jsstring) :
  RegExp_test r s = true <-> lang r s.
Proof.
  unfold RegExp_test. revert r. induction s as [|c s IH]; intros r; simpl.
  - apply nullable_lang.
  - rewrite IH. apply deriv_lang.
Qed.

End RegexTheory.

Example sanitize_hex3 :
  sanitizeColor (Some (lit "#fff")) (lit "#f3d898") = lit "#fff".
Proof. vm_compute. reflexivity. Qed.

Example sanitize_rgba :
  sanitizeColor (Some (lit " rgba(10, 20, 30, 0.5)  ")) (lit "#f3d898") = lit "rgba(10, 20, 30, 0.5)".
Proof. vm_compute. reflexivity. Qed.

Example sanitize_hsl :
  sanitizeColor (Some (lit "hsl(200, 50%, 40%)")) (lit "#f3d898") = lit "hsl(200, 50%, 40%)".
Proof. vm_compute. reflexivity. Qed.

Example sanitize_rgb999 :
  sanitizeColor (Some (lit "rgb(999,0,0)")) (lit "#f3d898") = lit "#f3d898".
Proof. vm_compute. reflexivity. Qed.

Example sanitize_injection :
  sanitizeColor (Some (lit "red; background:url(x)")) (lit "#f3d898") = lit "#f3d898".
Proof. vm_compute. reflexivity. Qed.

Example sanitize_newline :
  sanitizeColor (Some (lit "rgb(0,\n0,0)")) (lit "#f3d898") = lit "rgb(0,\n0,0)".
Proof. vm_compute. reflexivity. Qed.

Example sanitize_percent :
  sanitizeColor (Some (lit "hsl(0, 100.5%, 50%)")) (lit "#f3d898") = lit "hsl(0, 100.5%, 50%)".
Proof. vm_compute. reflexivity. Qed.

Example number_texts :
  toFixed1 (fun _ => []) (of_Z 42) = lit "42.0"
  /\ toFixed1 (fun _ => []) (S754_finite false 5953195757430374 (-47)) = lit "42.3"
  /\ toFixed1 (fun _ => []) (S754_finite false 5 (-2)) = lit "1.3"
  /\ toFixed1 (fun _ => []) (S754_finite true 1 (-5)) = lit "-0.0"
  /\ toFixed1 (fun _ => []) zero = lit "0.0"
  /\ Number_toString (fun _ => []) (of_Z 100) = lit "100"
  /\ Number_toString (fun _ => []) neg_zero = lit "0".
Proof. vm_compute. repeat split. Qed.

(* ------------------------------------------------------------------ *)
(** ** Number comparison *)

Lemma of_Z_0 : of_Z 0 = S754_zero false.
Proof. reflexivity. Qed.

Lemma of_Z_100 : of_Z 100 = S754_finite false 7036874417766400 (-46).
Proof. vm_compute. reflexivity. Qed.

Lemma SFcompare_antisym (a b : number) :
  SFcompare b a = option_map CompOpp (SFcompare a b).
Proof.
  destruct a as [sa|sa| |sa ma ea], b as [sb|sb| |sb mb eb]; simpl; try reflexivity;
    try (destruct sa; reflexivity); try (destruct sb; reflexivity);
    try (destruct sa, sb; reflexivity).
  destruct sa, sb; simpl; try reflexivity;
    rewrite (Z.compare_antisym ea eb); destruct (ea ?= eb)%Z; simpl; try reflexivity;
    rewrite (Pos.compare_cont_antisym ma mb Eq); simpl;
    try rewrite CompOpp_involutive; reflexivity.
Qed.

Lemma gt_not_lt (a b : number) : gt a b = true -> lt a b = false.
Proof.
  unfold gt, lt, SFltb. rewrite (SFcompare_antisym a b).
  destruct (SFcompare a b) as [[]|]; simpl; congruence.
Qed.

Lemma compare_eq_100 (s : bool) (m : positive) (e : Z) :
  SFcompare (S754_finite s m e) (of_Z 100) = Some Eq -> S754_finite s m e = of_Z 100.
Proof.
  rewrite of_Z_100. generalize 7036874417766400%positive. intros k.
  cbn [SFcompare]. destruct s; [discriminate|].
  destruct (e ?= -46)%Z eqn:E; try discriminate.
  apply Z.compare_eq in E. subst e.
  destruct (Pos.compare_cont Eq m k) eqn:P; try discriminate.
  intros _. apply Pos.compare_eq in P. subst. reflexivity.
Qed.

(* ------------------------------------------------------------------ *)
(** ** PercentageClamp *)

Lemma clamp_zero (s : bool) : _clampPercentage (S754_zero s) = of_Z 0.
Proof. destruct s; reflexivity. Qed.

Lemma clamp_finite (s : bool) (m : positive) (e : Z) :
  _clampPercentage (S754_finite s m e) =
    if s then of_Z 0
    else if lt (S754_finite s m e) (of_Z 100) then S754_finite s m e else of_Z 100.
Proof.
  unfold _clampPercentage. rewrite of_Z_0, of_Z_100.
  cbn [Number_isFinite negb Math_max Math_min Math_min_from is_nan is_zero andb].
  change (lt (S754_finite false 7036874417766400 (-46)) Infinity) with true.
  cbv iota.
  destruct s.
  - change (lt (S754_finite true m e) (S754_finite false 7036874417766400 (-46))) with true.
    reflexivity.
  - destruct (lt (S754_finite false m e) (S754_finite false 7036874417766400 (-46)));
      reflexivity.
Qed.

(** C7. [_clampPercentage] returns a finite value in [0,100]: a non-finite
    input (NaN, +Infinity, -Infinity) gives 0, a finite input below 0 gives
    0, a finite input above 100 gives 100, and a finite input in [0,100]
    is returned as it is (the number 42.3 for instance); of the two zeros
    the result is always +0, which [===] does not tell from -0. *)
Theorem clampPercentage_spec (value : number) :
  (Number_isFinite value = false -> _clampPercentage value = of_Z 0)
  /\ (lt value (of_Z 0) = true -> _clampPercentage value = of_Z 0)
  /\ (Number_isFinite value = true -> gt value (of_Z 100) = true ->
      _clampPercentage value = of_Z 100)
  /\ (ge value (of_Z 0) = true -> le value (of_Z 100) = true ->
      strict_eq (_clampPercentage value) value = true
      /\ (value <> neg_zero -> _clampPercentage value = value))
  /\ (Number_isFinite (_clampPercentage value) = true
      /\ ge (_clampPercentage value) (of_Z 0) = true
      /\ le (_clampPercentage value) (of_Z 100) = true)
  /\ _clampPercentage NaN = of_Z 0
  /\ _clampPercentage (S754_finite true 5629499534213120 (-50)) = of_Z 0
  /\ _clampPercentage (S754_finite false 5277655813324800 (-45)) = of_Z 100
  /\ _clampPercentage (S754_finite false 5953195757430374 (-47))
     = S754_finite false 5953195757430374 (-47).
Proof.
  split; [|split; [|split; [|split; [|split; [split; [|split]|]]]]].
  - destruct value; simpl; try discriminate; reflexivity.
  - destruct value as [s|s| |s m e]; try reflexivity.
    + intros _. apply clamp_zero.
    + rewrite clamp_finite. destruct s; [reflexivity | discriminate].
  - intros F G. destruct value as [s|s| |s m e]; try discriminate.
    rewrite clamp_finite. destruct s; [discriminate|].
    rewrite (@gt_not_lt _ _ G). reflexivity.
  - intros G L. destruct value as [s|s| |s m e].
    + rewrite clamp_zero. split; [destruct s; reflexivity|].
      destruct s; [intros H; exfalso; apply H; reflexivity | reflexivity].
    + destruct s; discriminate.
    + discriminate.
    + rewrite clamp_finite. destruct s; [discriminate|].
      unfold lt, SFltb. unfold le in L.
      destruct (SFcompare (S754_finite false m e) (of_Z 100)) as [[]|] eqn:C;
        try discriminate.
      * rewrite (@compare_eq_100 _ _ _ C).
        split; [vm_compute; reflexivity | reflexivity].
      * split; [|reflexivity]. unfold strict_eq, SFeqb. simpl.
        rewrite Z.compare_refl, Pos.compare_cont_refl. reflexivity.
  - destruct value as [s|s| |s m e]; rewrite ?clamp_zero; try reflexivity.
    rewrite clamp_finite. destruct s; [reflexivity|].
    destruct (lt _ _); reflexivity.
  - destruct value as [s|s| |s m e]; rewrite ?clamp_zero; try reflexivity.
    rewrite clamp_finite. destruct s; [reflexivity|].
    destruct (lt _ _); reflexivity.
  - destruct value as [s|s| |s m e]; rewrite ?clamp_zero; try reflexivity.
    rewrite clamp_finite. destruct s; [reflexivity|].
    unfold lt, SFltb, le.
    destruct (SFcompare (S754_finite false m e) (of_Z 100)) as [[]|] eqn:C;
      cbv iota beta; rewrite ?C; reflexivity.
  - repeat split; vm_compute; reflexivity.
Qed.

(** The theorem at the inputs the specification lists. *)
Lemma clampPercentage_spec_witness :
  _clampPercentage Infinity = of_Z 0
  /\ _clampPercentage (of_Z (-5)) = of_Z 0
  /\ _clampPercentage (of_Z 150) = of_Z 100
  /\ _clampPercentage (of_Z 42) = of_Z 42.
Proof.
  split; [|split; [|split]].
  - destruct (clampPercentage_spec Infinity) as (H & _). apply H. reflexivity.
  - destruct (clampPercentage_spec (of_Z (-5))) as (_ & H & _). apply H.
    vm_compute. reflexivity.
  - destruct (clampPercentage_spec (of_Z 150)) as (_ & _ & H & _).
    apply H; vm_compute; reflexivity.
  - destruct (clampPercentage_spec (of_Z 42)) as (_ & _ & _ & H & _).
    apply H; vm_compute; [reflexivity | reflexivity | discriminate].
Defined.

(* ------------------------------------------------------------------ *)
(** ** ThresholdClassifier and the class of a time bar *)

Lemma lit_outdated_neq :
  lit "outdated" <> lit "low" /\ lit "outdated" <> lit "medium" /\ lit "outdated" <> lit "high".
Proof. repeat split; discriminate. Qed.

(** C10. The class of a time bar is ['outdated'] when the window is
    outdated and the empty string otherwise, whatever the percentage; it
    is never one of the severity tiers ['low'], ['medium'], ['high'], and
    it reads no threshold or color setting. *)
Theorem getProgressClass_spec (percentage : number) (outdated : bool) :
  _getProgressClass percentage outdated = (if outdated then lit "outdated" else lit "")
  /\ _getProgressClass percentage outdated <> lit "low"
  /\ _getProgressClass percentage outdated <> lit "medium"
  /\ _getProgressClass percentage outdated <> lit "high"
  /\ (forall other : number,
        _getProgressClass other outdated = _getProgressClass percentage outdated).
Proof.
  unfold _getProgressClass. destruct outdated; repeat split; discriminate.
Qed.

(** C6. For every percentage, outdated flag and pair of thresholds, in
    either order: the class is ['outdated'] when the flag is set;
    otherwise ['high'] when [percentage >= critical]; otherwise ['medium']
    when [percentage >= warning]; otherwise ['low']. The critical check
    comes first, so a percentage that reaches both thresholds is ['high']
    also when [warning > critical]. Unset thresholds are 70 and 90. *)
Theorem getUsageClass_spec (config : Configuration) (percentage : number) (outdated : bool) :
  let warning := config_get (color_warningThreshold config) (of_Z 70) in
  let critical := config_get (color_criticalThreshold config) (of_Z 90) in
  _getUsageClass config percentage outdated =
    (if outdated then lit "outdated"
     else if ge percentage critical then lit "high"
     else if ge percentage warning then lit "medium"
     else lit "low")
  /\ (outdated = true -> _getUsageClass config percentage outdated = lit "outdated")
  /\ (outdated = false -> ge percentage critical = true -> ge percentage warning = true ->
      _getUsageClass config percentage outdated = lit "high")
  /\ (_getUsageClass config percentage outdated = lit "medium" ->
      outdated = false /\ ge percentage critical = false /\ ge percentage warning = true).
Proof.
  intros warning critical. unfold _getUsageClass. fold warning. fold critical.
  split; [reflexivity|]. split; [intros ->; reflexivity|]. split.
  - intros -> -> _. reflexivity.
  - destruct outdated; [discriminate|].
    destruct (ge percentage critical); [discriminate|].
    destruct (ge percentage warning); [auto | discriminate].
Qed.

(** The theorem at [warning = 90 > critical = 70] and a percentage of 95,
    and the examples of the specification. *)
Lemma getUsageClass_spec_witness :
  _getUsageClass (thresholds (of_Z 90) (of_Z 70)) (of_Z 95) false = lit "high"
  /\ _getUsageClass (thresholds (of_Z 70) (of_Z 90)) (of_Z 95) true = lit "outdated"
  /\ (_getUsageClass (thresholds (of_Z 70) (of_Z 90)) (of_Z 75) false = lit "medium" ->
      ge (of_Z 75) (of_Z 90) = false).
Proof.
  split; [|split].
  - destruct (getUsageClass_spec (thresholds (of_Z 90) (of_Z 70)) (of_Z 95) false)
      as (_ & _ & H & _).
    apply H; vm_compute; reflexivity.
  - destruct (getUsageClass_spec (thresholds (of_Z 70) (of_Z 90)) (of_Z 95) true)
      as (_ & H & _).
    apply H. reflexivity.
  - intros E.
    destruct (getUsageClass_spec (thresholds (of_Z 70) (of_Z 90)) (of_Z 75) false)
      as (_ & _ & _ & H).
    apply H. exact E.
Defined.

Example classify_examples :
  _getUsageClass (thresholds (of_Z 70) (of_Z 90)) (of_Z 95) false = lit "high"
  /\ _getUsageClass (thresholds (of_Z 70) (of_Z 90)) (of_Z 75) false = lit "medium"
  /\ _getUsageClass (thresholds (of_Z 70) (of_Z 90)) (of_Z 10) false = lit "low"
  /\ _getUsageClass (thresholds (of_Z 90) (of_Z 70)) (of_Z 80) false = lit "high"
  /\ _getUsageClass (thresholds (of_Z 90) (of_Z 70)) (of_Z 60) false = lit "low"
  /\ _getUsageClass (thresholds NaN NaN) (of_Z 100) false = lit "low"
  /\ _getUsageClass
       {| color_warningColor := None; color_criticalColor := None;
          color_warningThreshold := None; color_criticalThreshold := None |}
       (of_Z 90) false = lit "high".
Proof. vm_compute. repeat split. Qed.

(* ------------------------------------------------------------------ *)
(** ** HtmlEscaper *)

Lemma escapeHtml_cons (c : N) (s : jsstring) :
  _escapeHtml (c :: s) = (if html_special c then escape_char c else [c]) ++ _escapeHtml s.
Proof. reflexivity. Qed.

Lemma escapeHtml_app (a b : jsstring) :
  _escapeHtml (a ++ b) = _escapeHtml a ++ _escapeHtml b.
Proof.
  induction a as [|c a IH]; [reflexivity|].
  rewrite <- app_comm_cons, !escapeHtml_cons, IH, app_assoc. reflexivity.
Qed.

Lemma html_special_cases (c : N) :
  html_special c = true <-> c = 38%N \/ c = 60%N \/ c = 62%N \/ c = 34%N \/ c = 39%N.
Proof.
  unfold html_special, one_of.
  change (lit "&<>\q'") with [38;60;62;34;39]%N. cbn [existsb].
  rewrite !orb_true_iff, !N.eqb_eq. intuition discriminate.
Qed.

Lemma escape_char_special (c : N) :
  html_special c = true ->
  exists rest, escape_char c = 38%N :: rest /\ rest <> [] /\ forallb html_special rest = false
               /\ (2 <= length (escape_char c))%nat.
Proof.
  intros H. apply html_special_cases in H.
  destruct H as [-> | [-> | [-> | [-> | ->]]]]; eexists; (split; [reflexivity|]);
    (split; [discriminate|]); (split; [reflexivity | simpl; lia]).
Qed.

Lemma escapeHtml_length (s : jsstring) :
  (length s <= length (_escapeHtml s))%nat
  /\ (existsb html_special s = true -> length s < length (_escapeHtml s))%nat.
Proof.
  induction s as [|c s [IH1 IH2]]; [split; [simpl; lia | discriminate]|].
  rewrite escapeHtml_cons, length_app. cbn [existsb length].
  destruct (html_special c) eqn:E.
  - destruct (escape_char_special c E) as (rest & _ & _ & _ & L).
    split; [lia | intros _; lia].
  - cbn [orb length]. split; [lia | intros H; specialize (IH2 H); lia].
Qed.

Lemma escapeHtml_keeps_ampersand (s : jsstring) :
  existsb html_special s = true -> existsb html_special (_escapeHtml s) = true.
Proof.
  induction s as [|c s IH]; [discriminate|].
  rewrite escapeHtml_cons, existsb_app. cbn [existsb].
  destruct (html_special c) eqn:E.
  - intros _. destruct (escape_char_special c E) as (rest & -> & _).
    reflexivity.
  - cbn [orb existsb]. rewrite E. exact IH.
Qed.

Lemma escapeHtml_plain (s : jsstring) :
  existsb html_special s = false -> _escapeHtml s = s.
Proof.
  induction s as [|c s IH]; [reflexivity|].
  rewrite escapeHtml_cons. cbn [existsb]. rewrite orb_false_iff. intros [E H].
  rewrite E, IH by assumption. reflexivity.
Qed.

(** C8. [_escapeHtml] rewrites each of the five characters [&], [<], [>],
    double quote and apostrophe into its entity and copies every other code
    unit, so ["<script>"] becomes ["&lt;script&gt;"]. Escaping is not
    idempotent: a string that contains one of the five characters is escaped
    into a string that a second pass escapes again. *)
Theorem escapeHtml_spec :
  _escapeHtml (lit "<script>") = lit "&lt;script&gt;"
  /\ _escapeHtml (lit "&<>\q'") = lit "&amp;&lt;&gt;&quot;&#39;"
  /\ (forall c : N,
        _escapeHtml [c] = [c] <->
        ~ (c = 38%N \/ c = 60%N \/ c = 62%N \/ c = 34%N \/ c = 39%N))
  /\ (forall a b : jsstring, _escapeHtml (a ++ b) = _escapeHtml a ++ _escapeHtml b)
  /\ (forall s : jsstring, existsb html_special s = false -> _escapeHtml s = s)
  /\ (forall s : jsstring,
        existsb html_special s = true ->
        _escapeHtml (_escapeHtml s) <> _escapeHtml s)
  /\ _escapeHtml (_escapeHtml (lit "<script>")) = lit "&amp;lt;script&amp;gt;".
Proof.
  split; [vm_compute; reflexivity|]. split; [vm_compute; reflexivity|].
  split.
  { intros c. rewrite <- html_special_cases, escapeHtml_cons.
    change (_escapeHtml []) with (@nil N). rewrite app_nil_r.
    destruct (html_special c) eqn:E.
    - destruct (escape_char_special c E) as (rest & -> & R & _).
      split; [|intros H; exfalso; apply H; reflexivity].
      intros H. injection H as _ H. contradiction.
    - split; [intros _; discriminate | reflexivity]. }
  split; [exact escapeHtml_app|]. split; [exact escapeHtml_plain|].
  split; [|vm_compute; reflexivity].
  intros s H E. apply escapeHtml_keeps_ampersand in H.
  apply escapeHtml_length in H. rewrite E in H. lia.
Qed.

(** The double escaping at the string ["a&b"]. *)
Lemma escapeHtml_spec_witness :
  _escapeHtml (_escapeHtml (lit "a&b")) <> _escapeHtml (lit "a&b")
  /\ _escapeHtml (lit "plain text") = lit "plain text".
Proof.
  destruct escapeHtml_spec as (_ & _ & _ & _ & P & D & _).
  split.
  - apply D. reflexivity.
  - apply P. reflexivity.
Defined.

(* ------------------------------------------------------------------ *)
(** ** Substrings *)

Lemma startsWith_prefix (s t : jsstring) :
  startsWith t s = true -> exists post, t = s ++ post.
Proof.
  revert t. induction s as [|c s IH]; intros t H.
  - exists t. reflexivity.
  - destruct t as [|c' t]; [discriminate|]. simpl in H.
    apply andb_true_iff in H. destruct H as [E H]. apply N.eqb_eq in E. subst c'.
    destruct (IH t H) as (post & ->). exists post. reflexivity.
Qed.

Lemma search_includes (t s : jsstring) : search t s = true -> includes t s.
Proof.
  induction t as [|c t IH]; cbn [search]; rewrite orb_true_iff; intros [H | H];
    try (apply startsWith_prefix in H; destruct H as (post & E);
         exists [], post; exact E).
  - discriminate.
  - destruct (IH H) as (pre & post & ->). exists (c :: pre), post. reflexivity.
Qed.

Lemma includes_app_l (a b s : jsstring) : includes a s -> includes (a ++ b) s.
Proof.
  intros (pre & post & ->). exists pre, (post ++ b).
  rewrite <- !app_assoc. reflexivity.
Qed.

Lemma includes_app_r (a b s : jsstring) : includes b s -> includes (a ++ b) s.
Proof.
  intros (pre & post & ->). exists (a ++ pre), post.
  rewrite <- !app_assoc. reflexivity.
Qed.

(** [includes t s] for a text [t] that is a concatenation in which [s]
    lies inside a run of constant pieces; the other pieces are made opaque
    first. *)
Ltac opaque_piece a :=
  lazymatch a with
  | lit _ => idtac
  | _ => first [ is_var a | let x := fresh "piece" in set (x := a); clearbody x ]
  end.

Ltac opaque_pieces t :=
  lazymatch t with
  | ?a ++ ?b => opaque_piece a; opaque_pieces b
  | ?a => opaque_piece a
  end.

Ltac includes_head :=
  first [ apply includes_app_l; apply search_includes; vm_compute; reflexivity
        | rewrite app_assoc; includes_head ].

Ltac includes_tail :=
  first [ apply search_includes; vm_compute; reflexivity
        | includes_head
        | apply includes_app_r; includes_tail ].

Ltac includes_search :=
  rewrite <- ?app_assoc;
  lazymatch goal with
  | |- includes ?t _ => opaque_pieces t
  end;
  includes_tail.

(* ------------------------------------------------------------------ *)
(** ** Renderer: outdated windows *)

Section RenderProperties.

Variables TokenUsage Date : Type.
Variable Date_toLocaleString : Date -> jsstring.
Variable shortest_decimal : number -> jsstring.

Local Notation "'render'" := (@_renderProgressSection TokenUsage Date Date_toLocaleString shortest_decimal).

Lemma render_primary_percents (config : Configuration) (data : RateLimitData TokenUsage Date)
    (w : UsageWindow Date) (rules : list jsstring) (t u : number) :
  outdated w = true -> primary data = Some w ->
  render config (with_primary data (Some (with_percents w t u))) rules
  = render config data rules.
Proof.
  intros O P. unfold _renderProgressSection, with_primary, with_percents.
  cbn [primary secondary outdated reset_time time_percent used_percent].
  rewrite P, O. reflexivity.
Qed.

Lemma render_secondary_percents (config : Configuration) (data : RateLimitData TokenUsage Date)
    (w : UsageWindow Date) (rules : list jsstring) (t u : number) :
  outdated w = true -> secondary data = Some w ->
  render config (with_secondary data (Some (with_percents w t u))) rules
  = render config data rules.
Proof.
  intros O P. unfold _renderProgressSection, with_secondary, with_percents.
  cbn [primary secondary outdated reset_time time_percent used_percent].
  rewrite P, O. reflexivity.
Qed.

(** C5. A present window whose [outdated] flag is set is rendered with
    the text N/A in the value cell of its time bar and of its usage bar,
    and with a width rule of 0% for both bars, whatever [time_percent] and
    [used_percent] hold: replacing the two numbers by any others leaves the
    markup and the width rules unchanged. *)
Theorem renderProgressSection_outdated (config : Configuration)
    (data : RateLimitData TokenUsage Date) (w : UsageWindow Date) (rules : list jsstring) :
  outdated w = true ->
  (primary data = Some w ->
     includes (fst (render config data rules)) (outdated_bar "time" "primary-time-fill")
     /\ includes (fst (render config data rules)) (outdated_bar "usage" "primary-usage-fill")
     /\ (exists rest,
          snd (render config data rules)
          = rules ++ [zero_width_rule "primary-time-fill";
                      zero_width_rule "primary-usage-fill"] ++ rest)
     /\ (forall t u : number,
          render config (with_primary data (Some (with_percents w t u))) rules
          = render config data rules))
  /\ (secondary data = Some w ->
     includes (fst (render config data rules)) (outdated_bar "time" "secondary-time-fill")
     /\ includes (fst (render config data rules)) (outdated_bar "usage" "secondary-usage-fill")
     /\ (exists before,
          snd (render config data rules)
          = before ++ [zero_width_rule "secondary-time-fill";
                       zero_width_rule "secondary-usage-fill"])
     /\ (forall t u : number,
          render config (with_secondary data (Some (with_percents w t u))) rules
          = render config data rules)).
Proof.
  intros O. split; intros P.
  - split; [|split; [|split]].
    + unfold _renderProgressSection. rewrite P, O.
      set (needle := outdated_bar "time" "primary-time-fill").
      destruct (secondary data); cbn [fst _getProgressClass];
        includes_search.
    + unfold _renderProgressSection. rewrite P, O.
      set (needle := outdated_bar "usage" "primary-usage-fill").
      destruct (secondary data); cbn [fst _getUsageClass];
        includes_search.
    + unfold _renderProgressSection. rewrite P, O.
      destruct (secondary data); cbn [snd];
        match goal with
        | |- exists rest, (((?r ++ [_]) ++ [_]) ++ [?x]) ++ [?y] = _ => exists [x; y]
        | |- exists rest, (?r ++ [_]) ++ [_] = _ => exists []
        end;
        rewrite <- ?app_assoc; reflexivity.
    + intros t u. apply render_primary_percents; assumption.
  - split; [|split; [|split]].
    + unfold _renderProgressSection. rewrite P, O.
      set (needle := outdated_bar "time" "secondary-time-fill").
      destruct (primary data); cbn [fst _getProgressClass];
        includes_search.
    + unfold _renderProgressSection. rewrite P, O.
      set (needle := outdated_bar "usage" "secondary-usage-fill").
      destruct (primary data); cbn [fst _getUsageClass];
        includes_search.
    + unfold _renderProgressSection. rewrite P, O.
      destruct (primary data); cbn [snd];
        match goal with
        | |- exists before, (?r ++ [_]) ++ [_] = _ => exists r
        end;
        rewrite <- ?app_assoc; reflexivity.
    + intros t u. apply render_secondary_percents; assumption.
Qed.

End RenderProperties.

(** The theorem at a snapshot whose primary window is outdated. *)
Lemma renderProgressSection_outdated_witness :
  let data := sample_data (Some (sample_window true)) None in
  let render := _renderProgressSection (fun _ : unit => lit "soon") (fun _ => lit "?") no_settings in
  includes (fst (render data [])) (outdated_bar "time" "primary-time-fill")
  /\ includes (fst (render data [])) (outdated_bar "usage" "primary-usage-fill")
  /\ (forall t u : number,
        render (with_primary data (Some (with_percents (sample_window true) t u))) []
        = render data []).
Proof.
  intros data render.
  destruct (@renderProgressSection_outdated unit unit (fun _ => lit "soon") (fun _ => lit "?")
              no_settings data (sample_window true) [] eq_refl) as [H _].
  destruct (H eq_refl) as (H1 & H2 & _ & H4).
  split; [exact H1 | split; [exact H2 | exact H4]].
Defined.

(* ------------------------------------------------------------------ *)
(** ** The object store *)

Lemma nth_error_update_at {A : Type} (f : A -> A) (l : list A) (i j : nat) :
  nth_error (update_at i f l) j
  = if Nat.eqb i j then option_map f (nth_error l j) else nth_error l j.
Proof.
  revert i j. induction l as [|x l IH]; intros i j.
  - destruct i, j; simpl; try reflexivity; destruct (Nat.eqb _ _); reflexivity.
  - destruct i, j; simpl; try reflexivity. apply IH.
Qed.

Lemma length_update_at {A : Type} (f : A -> A) (l : list A) (i : nat) :
  length (update_at i f l) = length l.
Proof.
  revert i. induction l as [|x l IH]; intros i; destruct i; simpl; auto.
Qed.


(** The case analysis of [_update], over markups left abstract. *)
Section Routing.

Variables A D : Type.
Variable failure : jsstring -> A.
Variable success : D -> A.





End Routing.

Section ManagerProperties.

Variables TokenUsage Date Uri : Type.
Variable formatTokenUsage : TokenUsage -> jsstring.
Variable Date_toLocaleString : Date -> jsstring.
Variable Uri_joinPath : Uri -> list jsstring -> Uri.
Variable asWebviewUri : Uri -> jsstring.
Variable shortest_decimal : number -> jsstring.

Variable disposed_error : thrown.

Local Notation "'update'" :=
  (_update formatTokenUsage Date_toLocaleString Uri_joinPath asWebviewUri shortest_decimal).
Local Notation "'update_on'" :=
  (update_on_host formatTokenUsage Date_toLocaleString Uri_joinPath asWebviewUri
     shortest_decimal disposed_error).
Local Notation "'getHtml'" :=
  (_getHtml formatTokenUsage Date_toLocaleString Uri_joinPath asWebviewUri shortest_decimal).
Local Notation "'getErrorHtml'" := (_getErrorHtml Uri_joinPath asWebviewUri).
Local Notation "'caught' e" :=
  {| log_message := lit "Error updating WebView: " ++ caught_message e;
     log_forceFlush := true |} (at level 10).

Lemma update_effect (env : Env TokenUsage Date) (this : nat) (w : World Uri)
    (self : RateLimitWebView Uri) :
  nth_error (objects w) this = Some self ->
  let w' := snd (update env this w) in
  fst (update env this w) = Returned tt
  /\ currentPanel w' = currentPanel w
  /\ length (objects w') = length (objects w)
  /\ (forall j, j <> this -> nth_error (objects w') j = nth_error (objects w) j)
  /\ (exists self', nth_error (objects w') this = Some self'
        /\ _nonce self' = _nonce self /\ _extensionUri self' = _extensionUri self
        /\ _disposables self' = _disposables self
        /\ webview_cspSource (_panel self') = webview_cspSource (_panel self)
        /\ revealed (_panel self') = revealed (_panel self))
  /\ markup_of w' this
     = Some match getRateLimitData env with
            | Returned result =>
                if negb (found result)
                then getErrorHtml self (or_else (error result) (lit "No rate limit data found"))
                else match data result with
                     | None => getErrorHtml self (lit "Rate limit data is undefined")
                     | Some data => getHtml self (configuration env) data
                     end
            | Threw e => getErrorHtml self (caught_message e)
            end
  /\ logged w'
     = logged w ++
       match getRateLimitData env with
       | Returned result =>
           if negb (found result) then []
           else match data result with
                | None => []
                | Some _ => [{| log_message := lit "WebView updated successfully";
                                log_forceFlush := false |}]
                end
       | Threw e => [{| log_message := lit "Error updating WebView: " ++ caught_message e;
                        log_forceFlush := true |}]
       end.
Proof.
  intros H.
  assert (U : forall h,
    nth_error (update_at this (with_panel (fun p : WebviewPanel Uri =>
       {| viewType := viewType p; title := title p; showOptions := showOptions p;
          enableScripts := enableScripts p; localResourceRoots := localResourceRoots p;
          webview_cspSource := webview_cspSource p;
          webview_html := h;
          revealed := revealed p |})) (objects w)) this
    = Some (with_panel (fun p : WebviewPanel Uri =>
       {| viewType := viewType p; title := title p; showOptions := showOptions p;
          enableScripts := enableScripts p; localResourceRoots := localResourceRoots p;
          webview_cspSource := webview_cspSource p;
          webview_html := h;
          revealed := revealed p |}) self)).
  { intros h. rewrite nth_error_update_at, Nat.eqb_refl, H. reflexivity. }
  unfold _update, update_with, update_try, update_catch, assign_webview_html, bind, deref,
    try_catch, await, markup_of.
  rewrite H.
  destruct (getRateLimitData env) as [result | e].
  - destruct (found result); cbn [negb];
      [destruct (data result)|];
      unfold bind, set_webview_html, modify_object, log;
      cbn [fst snd objects currentPanel logged];
      rewrite ?app_nil_r, ?length_update_at;
      (repeat split; try reflexivity;
       [ intros j J; rewrite nth_error_update_at;
         destruct (Nat.eqb_spec this j); [congruence | reflexivity]
       | eexists; split; [apply U | repeat split]
       | rewrite U; reflexivity ]).
  - unfold bind, set_webview_html, modify_object, log;
      cbn [fst snd objects currentPanel logged];
      rewrite ?length_update_at;
      (repeat split; try reflexivity;
       [ intros j J; rewrite nth_error_update_at;
         destruct (Nat.eqb_spec this j); [congruence | reflexivity]
       | eexists; split; [apply U | repeat split]
       | rewrite U; reflexivity ]).
Qed.



(** An update leaves the pending updates as they are. *)
Lemma update_pending (env : Env TokenUsage Date) (this : nat) (w : World Uri) :
  pending (snd (update env this w)) = pending w.
Proof.
  unfold _update, update_with, update_try, update_catch, assign_webview_html, bind, deref,
    try_catch, await.
  destruct (nth_error (objects w) this) as [self|]; [|reflexivity].
  destruct (getRateLimitData env) as [result | e]; [|reflexivity].
  destruct (found result); cbn [negb]; [destruct (data result)|]; reflexivity.
Qed.

(** On a panel that has been disposed of every assignment of the markup
    throws: the one of the [try] block is caught and logged, the one of
    the [catch] block is not, and the update rejects with it. *)
Lemma update_refused (env : Env TokenUsage Date) (this : nat) (w : World Uri)
    (self : RateLimitWebView Uri) (d : thrown) :
  nth_error (objects w) this = Some self ->
  update_with formatTokenUsage Date_toLocaleString Uri_joinPath asWebviewUri shortest_decimal
    (Some d) env this w
  = (Threw d,
     {| objects := objects w; currentPanel := currentPanel w;
        logged := logged w ++ [caught match getRateLimitData env with
                                      | Returned _ => d
                                      | Threw e => e
                                      end];
        pending := pending w |}).
Proof.
  intros N.
  unfold update_with, update_try, update_catch, assign_webview_html, bind, deref, try_catch,
    await, throw, log.
  rewrite N.
  destruct (getRateLimitData env) as [result | e].
  - destruct (found result); cbn [negb]; [destruct (data result)|]; destruct d; reflexivity.
  - destruct e; reflexivity.
Qed.

(** C3 (amended). When the data collaborator throws during [_update],
    one entry is logged with the message of what was caught (['Unknown
    error'] when that is not an [Error]), and the singleton slot, the
    number of objects, the pending updates and the calls on the host stay
    as they were. On a panel that has not been disposed of the call then
    ends normally and the markup of the display surface is the error
    markup built from that message; no outcome of the collaborator makes
    the update throw there, and whatever steps stand in the [try] block
    and wherever they throw, the [catch] block ends the call normally
    with the same log entry and markup. On a panel that has been disposed
    of the assignment in the [catch] block throws in its turn: the update
    rejects with what the setter of the host throws, the objects are
    untouched; and when the collaborator returns, the refused assignment
    of the [try] block is what is caught and logged before the update
    rejects in the same way. *)
Theorem update_catches (env : Env TokenUsage Date) (this : nat) (h : Host Uri)
    (self : RateLimitWebView Uri) (e : thrown) :
  nth_error (objects (world h)) this = Some self ->
  getRateLimitData env = Threw e ->
  let w := world h in
  let r := update_on env this h in
  let w' := world (snd r) in
  logged w' = logged w ++ [caught e]
  /\ currentPanel w' = currentPanel w
  /\ length (objects w') = length (objects w)
  /\ pending w' = pending w
  /\ host_calls (snd r) = host_calls h
  /\ (panel_disposed h this = false ->
      fst r = Returned tt
      /\ w' = snd (update env this w)
      /\ markup_of w' this = Some (getErrorHtml self (caught_message e))
      /\ (forall env', fst (update_on env' this h) = Returned tt
                       /\ currentPanel (world (snd (update_on env' this h))) = currentPanel w)
      /\ (forall (steps : M Uri unit) (v v' : World Uri) (e' : thrown)
                 (self' : RateLimitWebView Uri),
            steps v = (Threw e', v') ->
            nth_error (objects v') this = Some self' ->
            let s := try_catch steps
                       (update_catch Uri_joinPath asWebviewUri
                          (refusal disposed_error h this) this self) v in
            fst s = Returned tt
            /\ logged (snd s) = logged v' ++ [caught e']
            /\ markup_of (snd s) this = Some (getErrorHtml self (caught_message e'))
            /\ currentPanel (snd s) = currentPanel v'))
  /\ (panel_disposed h this = true ->
      fst r = Threw disposed_error
      /\ objects w' = objects w
      /\ (forall env' result, getRateLimitData env' = Returned result ->
            update_on env' this h
            = (Threw disposed_error,
               {| world := {| objects := objects w; currentPanel := currentPanel w;
                              logged := logged w ++ [caught disposed_error];
                              pending := pending w |};
                  host_calls := host_calls h |}))).
Proof.
  intros H R w r w'.
  assert (L : panel_disposed h this = false ->
              r = (fst (update env this w),
                   {| world := snd (update env this w); host_calls := host_calls h |})).
  { intros D. unfold r, update_on_host, refusal, in_world. rewrite D. reflexivity. }
  assert (G : forall env', panel_disposed h this = true ->
              update_on env' this h
              = (Threw disposed_error,
                 {| world := {| objects := objects w; currentPanel := currentPanel w;
                                logged := logged w ++ [caught match getRateLimitData env' with
                                                              | Returned _ => disposed_error
                                                              | Threw x => x
                                                              end];
                                pending := pending w |};
                    host_calls := host_calls h |})).
  { intros env' D. unfold update_on_host, refusal, in_world. rewrite D.
    rewrite (@update_refused env' this (world h) self disposed_error H). reflexivity. }
  destruct (update_effect env this w H) as (E1 & E2 & E3 & _ & _ & E4 & E5).
  rewrite R in E4, E5.
  destruct (panel_disposed h this) eqn:D.
  - pose proof (G env eq_refl) as Q. fold r in Q. rewrite R in Q.
    unfold w'. rewrite Q. cbn [fst snd world host_calls logged currentPanel objects pending].
    repeat split; try reflexivity; try discriminate.
    intros env' result R'. rewrite (G env' eq_refl), R'. reflexivity.
  - pose proof (L eq_refl) as Q.
    unfold w'. rewrite Q. cbn [fst snd world host_calls].
    split; [exact E5|]. split; [exact E2|]. split; [exact E3|].
    split; [apply update_pending|]. split; [reflexivity|]. split; [|discriminate].
    intros _. split; [exact E1|]. split; [reflexivity|]. split; [exact E4|]. split.
    + intros env'. unfold update_on_host, refusal, in_world. rewrite D.
      cbn [fst snd world].
      destruct (update_effect env' this w H) as (F1 & F2 & _). split; assumption.
    + intros steps v v' e' self' S N.
      unfold refusal. rewrite D.
      unfold try_catch, update_catch, assign_webview_html, bind, log, set_webview_html,
        modify_object, markup_of.
      rewrite S. cbn [fst snd objects currentPanel logged].
      rewrite nth_error_update_at, Nat.eqb_refl. cbn [objects]. rewrite N.
      destruct e'; repeat split; reflexivity.
Qed.

End ManagerProperties.



(** C3 as stated fails once the panel has been closed while the update
    was pending. [createOrShow] leaves the first update pending; the
    panel is closed, and the dispose listener runs; then the promise of
    the collaborator rejects with [new Error('disk')]. The update logs
    its entry, and the assignment of the [catch] block throws: the
    promise of the update rejects and the markup is not the error
    markup. *)
Lemma update_rejects_after_dispose :
  let env := sample_env (Threw (ErrorObject (lit "disk"))) in
  let h := {| world := initial_world unit; host_calls := [] |} in
  let h1 := snd (in_world (sample_createOrShow env tt) h) in
  let h2 := snd (onDidDispose 0 h1) in
  let r := sample_resume env 0 h2 in
  pending (world h1) = [0%nat]
  /\ panel_disposed h2 0 = true
  /\ fst r = Threw (ErrorObject (lit "Webview is disposed"))
  /\ logged (world (snd r))
     = [{| log_message := lit "Error updating WebView: disk"; log_forceFlush := true |}]
  /\ markup_of (world (snd r)) 0 = Some (lit "")
  /\ pending (world (snd r)) = [].
Proof.
  vm_compute. repeat split; reflexivity.
Qed.

(** The theorem at a collaborator that throws [new Error('disk')], on a
    panel that is still there and on one that has been disposed of. *)
Lemma update_catches_witness :
  let env := sample_env (Threw (ErrorObject (lit "disk"))) in
  let live_host := {| world := sample_world; host_calls := [] |} in
  let closed_host := {| world := sample_world; host_calls := [PanelDispose 0] |} in
  let update_on := update_on_host (fun _ => lit "0") (fun _ => lit "now") (fun u _ => u)
                     (fun _ => sample_stylesheet) (fun _ => lit "?")
                     (ErrorObject (lit "Webview is disposed")) in
  (fst (update_on env 0%nat live_host) = Returned tt
   /\ logged (world (snd (update_on env 0%nat live_host)))
      = [{| log_message := lit "Error updating WebView: disk"; log_forceFlush := true |}]
   /\ markup_of (world (snd (update_on env 0%nat live_host))) 0
      = Some (sample_getErrorHtml sample_object (lit "disk"))
   /\ currentPanel (world (snd (update_on env 0%nat live_host))) = Some 0%nat)
  /\ (fst (update_on env 0%nat closed_host) = Threw (ErrorObject (lit "Webview is disposed"))
      /\ logged (world (snd (update_on env 0%nat closed_host)))
         = [{| log_message := lit "Error updating WebView: disk"; log_forceFlush := true |}]
      /\ objects (world (snd (update_on env 0%nat closed_host))) = [sample_object]
      /\ currentPanel (world (snd (update_on env 0%nat closed_host))) = Some 0%nat).
Proof.
  intros env live_host closed_host update_on. split.
  - destruct (@update_catches unit unit unit (fun _ => lit "0") (fun _ => lit "now")
                (fun u _ => u) (fun _ => sample_stylesheet) (fun _ => lit "?")
                (ErrorObject (lit "Webview is disposed"))
                env 0%nat live_host sample_object (ErrorObject (lit "disk")) eq_refl eq_refl)
      as (H1 & H2 & _ & _ & _ & H3 & _).
    destruct (H3 eq_refl) as (K1 & _ & K3 & _).
    split; [exact K1 | split; [exact H1 | split; [exact K3 | exact H2]]].
  - destruct (@update_catches unit unit unit (fun _ => lit "0") (fun _ => lit "now")
                (fun u _ => u) (fun _ => sample_stylesheet) (fun _ => lit "?")
                (ErrorObject (lit "Webview is disposed"))
                env 0%nat closed_host sample_object (ErrorObject (lit "disk")) eq_refl eq_refl)
      as (H1 & H2 & _ & _ & _ & _ & H4).
    destruct (H4 eq_refl) as (K1 & K2 & _).
    split; [exact K1 | split; [exact H1 | split; [exact K2 | exact H2]]].
Defined.


(* ------------------------------------------------------------------ *)
(** ** PanelLifecycleManager: the singleton slot *)

Lemma nth_error_snoc {A : Type} (l : list A) (x : A) :
  nth_error (l ++ [x]) (length l) = Some x.
Proof.
  rewrite nth_error_app2 by lia. rewrite Nat.sub_diag. reflexivity.
Qed.

Lemma update_at_snoc {A : Type} (f : A -> A) (l : list A) (x : A) :
  update_at (length l) f (l ++ [x]) = l ++ [f x].
Proof. induction l as [|y l IH]; cbn [length app update_at]; [|rewrite IH]; reflexivity. Qed.

(** The text of the nonce determines the bytes it was made from. *)
Lemma hex_digit_of_inj (j k : N) :
  (j < 16)%N -> (k < 16)%N ->
  (if (j <? 10)%N then 48 + j else 87 + j)%N = (if (k <? 10)%N then 48 + k else 87 + k)%N ->
  j = k.
Proof.
  intros J K. destruct (N.ltb_spec j 10), (N.ltb_spec k 10); lia.
Qed.

Lemma hex_of_byte_inj (a b : byte) : hex_of_byte a = hex_of_byte b -> a = b.
Proof.
  unfold hex_of_byte. cbv zeta. intros H. injection H as H1 H2.
  assert (La : (Byte.to_N a < 256)%N) by (destruct a; vm_compute; reflexivity).
  assert (Lb : (Byte.to_N b < 256)%N) by (destruct b; vm_compute; reflexivity).
  apply hex_digit_of_inj in H1;
    [|apply N.Div0.div_lt_upper_bound; lia|apply N.Div0.div_lt_upper_bound; lia].
  apply hex_digit_of_inj in H2; [|apply N.mod_lt; discriminate|apply N.mod_lt; discriminate].
  assert (E : Byte.to_N a = Byte.to_N b).
  { rewrite (N.div_mod (Byte.to_N a) 16), (N.div_mod (Byte.to_N b) 16) by discriminate.
    rewrite H1, H2. reflexivity. }
  apply (f_equal Byte.of_N) in E. rewrite !Byte.of_to_N in E. injection E as E. exact E.
Qed.

Lemma app_same_length {A : Type} (a b x y : list A) :
  length a = length b -> a ++ x = b ++ y -> a = b /\ x = y.
Proof.
  revert b. induction a as [|c a IH]; intros [|c' b] L H; try discriminate; [auto|].
  injection L as L. injection H as -> H. destruct (IH b L H) as [-> ->]. auto.
Qed.

Lemma Buffer_toString_hex_inj (a b : list byte) :
  Buffer_toString_hex a = Buffer_toString_hex b -> a = b.
Proof.
  unfold Buffer_toString_hex. revert b.
  induction a as [|x a IH]; intros [|y b] H; try reflexivity; try discriminate.
  cbn [flat_map] in H.
  apply app_same_length in H; [|reflexivity].
  destruct H as [E1 E2]. apply hex_of_byte_inj in E1. apply IH in E2. congruence.
Qed.

Lemma Buffer_toString_hex_length (bytes : list byte) :
  length (Buffer_toString_hex bytes) = (2 * length bytes)%nat.
Proof.
  unfold Buffer_toString_hex. induction bytes as [|b bytes IH]; [reflexivity|].
  cbn [flat_map length]. rewrite length_app, IH. cbn [hex_of_byte length]. lia.
Qed.

(** The live instances of a store. *)
Lemma live_from_app {Uri : Type} (a b : list (RateLimitWebView Uri)) (i : nat) :
  live_from i (a ++ b) = live_from i a ++ live_from (i + length a) b.
Proof.
  revert i. induction a as [|o a IH]; intros i; cbn [app live_from length].
  - rewrite Nat.add_0_r. reflexivity.
  - rewrite IH, <- app_assoc. do 3 f_equal. lia.
Qed.

Lemma live_from_update_at {Uri : Type} (f : RateLimitWebView Uri -> RateLimitWebView Uri)
    (l : list (RateLimitWebView Uri)) (k i : nat) :
  (forall o, is_live (f o) = is_live o) ->
  live_from i (update_at k f l) = live_from i l.
Proof.
  intros F. revert k i. induction l as [|o l IH]; intros k i; destruct k;
    cbn [update_at live_from]; try reflexivity.
  - rewrite F. reflexivity.
  - rewrite IH. reflexivity.
Qed.

Lemma live_from_In {Uri : Type} (l : list (RateLimitWebView Uri)) (i k : nat) :
  In k (live_from i l) ->
  (i <= k)%nat /\ exists o, nth_error l (k - i) = Some o /\ is_live o = true.
Proof.
  revert i. induction l as [|o l IH]; intros i; cbn [live_from]; [contradiction|].
  intros I. apply in_app_or in I. destruct I as [I | I].
  - destruct (is_live o) eqn:L; [|contradiction]. destruct I as [<- | []].
    split; [lia|]. exists o. rewrite Nat.sub_diag. auto.
  - apply IH in I. destruct I as (I & o' & N & L). split; [lia|]. exists o'.
    replace (k - i)%nat with (S (k - S i)) by lia. auto.
Qed.

Lemma live_from_intro {Uri : Type} (l : list (RateLimitWebView Uri)) (i k : nat)
    (o : RateLimitWebView Uri) :
  nth_error l k = Some o -> is_live o = true -> In (i + k)%nat (live_from i l).
Proof.
  revert i k. induction l as [|x l IH]; intros i k N L; [destruct k; discriminate|].
  cbn [live_from]. apply in_or_app. destruct k as [|k].
  - injection N as ->. rewrite L. left. left. lia.
  - right. replace (i + S k)%nat with (S i + k)%nat by lia. apply IH; assumption.
Qed.

Section LifecycleProperties.

Variables TokenUsage Date Uri : Type.
Variable Uri_joinPath : Uri -> list jsstring -> Uri.

Local Notation "'show'" := (@createOrShow TokenUsage Date Uri Uri_joinPath).
Local Notation "'construct'" := (@new_RateLimitWebView TokenUsage Date Uri).
Local Notation "'column_of' env" :=
  match activeTextEditor env with
  | Some viewColumn => viewColumn
  | None => None
  end (at level 10).
Local Notation "'registrations'" := [DidDisposeSubscription; DidReceiveMessageSubscription].

(** The constructor appends the object with the panel as the host handed
    it over, registers the two listeners, and leaves the first update
    pending: nothing is rendered or logged when it returns. *)
Lemma construct_exact (env : Env TokenUsage Date) (panel : WebviewPanel Uri)
    (extensionUri : Uri) (w : World Uri) :
  construct env panel extensionUri w
  = (Returned (length (objects w)),
     {| objects := objects w
                   ++ [{| _panel := panel; _extensionUri := extensionUri;
                          _nonce := _generateNonce (randomBytes env);
                          _disposables := registrations |}];
        currentPanel := currentPanel w;
        logged := logged w;
        pending := pending w ++ [length (objects w)] |}).
Proof.
  unfold new_RateLimitWebView, bind, allocate, start_update, push_disposable, modify_object, ret.
  cbn [fst snd objects currentPanel logged pending].
  rewrite !update_at_snoc. reflexivity.
Qed.

Lemma createOrShow_occupied (env : Env TokenUsage Date) (extensionUri : Uri) (w : World Uri)
    (this : nat) :
  currentPanel w = Some this ->
  show env extensionUri w
  = (Returned tt, snd (start_update this (snd (reveal this (column_of env) w)))).
Proof.
  intros S. unfold createOrShow, bind, read_currentPanel. rewrite S. reflexivity.
Qed.

Lemma createOrShow_empty (env : Env TokenUsage Date) (extensionUri : Uri) (w : World Uri) :
  currentPanel w = None ->
  show env extensionUri w
  = (Returned tt,
     {| objects := objects w
                   ++ [{| _panel := createWebviewPanel env (lit "codexRateLimit")
                                      (lit "Codex Rate Limit Details")
                                      match activeTextEditor env with
                                      | Some (Some column) => column
                                      | _ => One
                                      end
                                      true [Uri_joinPath extensionUri [lit "media"]];
                          _extensionUri := extensionUri;
                          _nonce := _generateNonce (randomBytes env);
                          _disposables := registrations |}];
        currentPanel := Some (length (objects w));
        logged := logged w;
        pending := pending w ++ [length (objects w)] |}).
Proof.
  intros S. unfold createOrShow, bind, read_currentPanel. rewrite S.
  rewrite construct_exact. unfold write_currentPanel.
  cbn [fst snd objects currentPanel logged pending].
  destruct (activeTextEditor env) as [[column|]|]; reflexivity.
Qed.

Lemma createOrShow_empty_effect (env : Env TokenUsage Date) (extensionUri : Uri)
    (w : World Uri) :
  currentPanel w = None ->
  let w' := snd (show env extensionUri w) in
  fst (show env extensionUri w) = Returned tt
  /\ currentPanel w' = Some (length (objects w))
  /\ length (objects w') = S (length (objects w))
  /\ (forall j, (j < length (objects w))%nat ->
        nth_error (objects w') j = nth_error (objects w) j)
  /\ (exists created,
        nth_error (objects w') (length (objects w)) = Some created
        /\ _nonce created = _generateNonce (randomBytes env)
        /\ _disposables created = registrations
        /\ _extensionUri created = extensionUri
        /\ webview_cspSource (_panel created) = host_cspSource env
        /\ revealed (_panel created) = []).
Proof.
  intros S w'. unfold w'. rewrite (createOrShow_empty env extensionUri w S).
  cbn [fst snd objects currentPanel].
  split; [reflexivity|]. split; [reflexivity|].
  split; [rewrite length_app; cbn [length]; lia|]. split.
  - intros j J. apply nth_error_app1. exact J.
  - eexists. split; [apply nth_error_snoc|]. repeat split.
Qed.

(** What [reveal] and [start_update] do to the store. *)
Lemma reveal_started (this : nat) (column : option ViewColumn) (w : World Uri) :
  let w' := snd (start_update this (snd (reveal this column w))) in
  currentPanel w' = currentPanel w
  /\ logged w' = logged w
  /\ pending w' = pending w ++ [this]
  /\ length (objects w') = length (objects w)
  /\ live_instances w' = live_instances w
  /\ (forall j, j <> this -> nth_error (objects w') j = nth_error (objects w) j)
  /\ (forall o, nth_error (objects w) this = Some o ->
        exists o', nth_error (objects w') this = Some o'
                   /\ revealed (_panel o') = revealed (_panel o) ++ [column]
                   /\ webview_html (_panel o') = webview_html (_panel o)
                   /\ _nonce o' = _nonce o
                   /\ _disposables o' = _disposables o).
Proof.
  unfold start_update, reveal, modify_object, live_instances.
  cbn [fst snd objects currentPanel logged pending].
  split; [reflexivity|]. split; [reflexivity|]. split; [reflexivity|].
  split; [apply length_update_at|]. split; [apply live_from_update_at; reflexivity|].
  split.
  - intros j J. rewrite nth_error_update_at.
    destruct (Nat.eqb_spec this j); [congruence | reflexivity].
  - intros o N. rewrite nth_error_update_at, Nat.eqb_refl, N. cbn [option_map].
    eexists. split; [reflexivity|]. repeat split.
Qed.

(** C9 (amended). A call of [createOrShow] with the slot empty constructs
    one instance and stores it in the slot: its nonce is the hexadecimal
    text of the sixteen bytes drawn at this construction, two digits a
    byte, and differs from the nonce of every earlier instance that was
    drawn from other bytes; its registry holds its own two registrations
    and no other; its first update is left pending, with nothing
    rendered or logged yet. A call with the slot occupied reveals the
    instance in the slot, leaves an update of it pending and constructs
    nothing. So after two calls in a row the slot holds the instance the
    first call left there, the second call has revealed it, started its
    update and constructed nothing, and the live instances are those
    there were, with the new one if the first call constructed it. When
    the live instances before the calls are the one in the slot, if any,
    and no other, exactly one instance is live afterwards, the one in the
    slot. *)
Theorem createOrShow_singleton (env1 env2 : Env TokenUsage Date) (uri1 uri2 : Uri)
    (w : World Uri) :
  let w1 := snd (show env1 uri1 w) in
  let w2 := snd (show env2 uri2 w1) in
  fst (show env1 uri1 w) = Returned tt
  /\ fst (show env2 uri2 w1) = Returned tt
  /\ (exists this,
        currentPanel w1 = Some this /\ currentPanel w2 = Some this
        /\ w2 = snd (start_update this (snd (reveal this (column_of env2) w1)))
        /\ length (objects w2) = length (objects w1)
        /\ pending w2 = pending w1 ++ [this]
        /\ logged w2 = logged w
        /\ live_instances w2
           = live_instances w ++ match currentPanel w with
                                 | Some _ => []
                                 | None => [this]
                                 end
        /\ (live_instances w = match currentPanel w with
                               | Some this0 => [this0]
                               | None => []
                               end ->
            live_instances w1 = [this]
            /\ live_instances w2 = [this]
            /\ exists o1 o2,
                 nth_error (objects w1) this = Some o1
                 /\ nth_error (objects w2) this = Some o2
                 /\ revealed (_panel o2) = revealed (_panel o1) ++ [column_of env2]
                 /\ webview_html (_panel o2) = webview_html (_panel o1)
                 /\ _nonce o2 = _nonce o1
                 /\ _disposables o2 = _disposables o1))
  /\ (forall this, currentPanel w = Some this ->
        w1 = snd (start_update this (snd (reveal this (column_of env1) w)))
        /\ currentPanel w1 = Some this
        /\ length (objects w1) = length (objects w)
        /\ pending w1 = pending w ++ [this])
  /\ (currentPanel w = None ->
      exists created,
        objects w1 = objects w ++ [created]
        /\ currentPanel w1 = Some (length (objects w))
        /\ pending w1 = pending w ++ [length (objects w)]
        /\ webview_html (_panel created) = lit ""
        /\ _disposables created = registrations
        /\ _nonce created = Buffer_toString_hex (randomBytes env1 16%nat)
        /\ length (_nonce created) = (2 * length (randomBytes env1 16%nat))%nat
        /\ (forall i o (env0 : Env TokenUsage Date),
              nth_error (objects w) i = Some o ->
              _nonce o = _generateNonce (randomBytes env0) ->
              randomBytes env0 16%nat <> randomBytes env1 16%nat ->
              _nonce o <> _nonce created)).
Proof.
  intros w1 w2.
  assert (F : fst (show env1 uri1 w) = Returned tt
              /\ logged w1 = logged w
              /\ exists this,
                   currentPanel w1 = Some this
                   /\ live_instances w1
                      = live_instances w ++ match currentPanel w with
                                            | Some _ => []
                                            | None => [this]
                                            end).
  { destruct (currentPanel w) as [this|] eqn:Slot.
    - unfold w1. rewrite (createOrShow_occupied env1 uri1 w Slot). cbn [fst snd].
      destruct (reveal_started this (column_of env1) w) as (A & G & _ & _ & B & _).
      split; [reflexivity|]. split; [exact G|]. exists this. rewrite A, B, app_nil_r. auto.
    - unfold w1. rewrite (createOrShow_empty env1 uri1 w Slot). cbn [fst snd logged].
      split; [reflexivity|]. split; [reflexivity|].
      exists (length (objects w)). split; [reflexivity|].
      unfold live_instances. cbn [objects]. rewrite live_from_app.
      cbn [live_from is_live _disposables app Nat.add]. reflexivity. }
  destruct F as (F1 & G1 & this & S1 & L1).
  assert (E2 : show env2 uri2 w1
               = (Returned tt, snd (start_update this (snd (reveal this (column_of env2) w1)))))
    by (apply createOrShow_occupied; exact S1).
  destruct (reveal_started this (column_of env2) w1) as (A2 & G2 & P2 & N2 & B2 & _ & O2).
  assert (W2 : w2 = snd (start_update this (snd (reveal this (column_of env2) w1))))
    by (unfold w2; rewrite E2; reflexivity).
  split; [exact F1|]. split; [rewrite E2; reflexivity|]. split.
  { exists this. rewrite W2, A2, B2, P2, N2, G2, G1, L1.
    repeat (split; [first [assumption | reflexivity]|]).
    intros V.
    assert (Q : live_instances w1 = [this]).
    { rewrite L1, V. destruct (currentPanel w) as [this0|] eqn:Slot; [|reflexivity].
      rewrite app_nil_r. f_equal.
      assert (T : currentPanel w1 = Some this0).
      { unfold w1. rewrite (createOrShow_occupied env1 uri1 w Slot). cbn [snd].
        destruct (reveal_started this0 (column_of env1) w) as (A & _). rewrite A. exact Slot. }
      congruence. }
    rewrite <- L1, Q. split; [reflexivity|]. split; [reflexivity|].
    assert (I : In this (live_instances w1)) by (rewrite Q; left; reflexivity).
    apply live_from_In in I. destruct I as (_ & o1 & I & _).
    rewrite Nat.sub_0_r in I. destruct (O2 o1 I) as (o2 & J & R & M & K1 & K2).
    exists o1, o2. repeat split; assumption. }
  split.
  - intros this0 Slot. unfold w1. rewrite (createOrShow_occupied env1 uri1 w Slot). cbn [snd].
    destruct (reveal_started this0 (column_of env1) w) as (A & _ & P & N & _).
    rewrite A, P, N. auto.
  - intros Slot. unfold w1. rewrite (createOrShow_empty env1 uri1 w Slot).
    cbn [snd objects currentPanel logged pending]. eexists. split; [reflexivity|].
    cbn [_panel _nonce _disposables createWebviewPanel webview_html].
    repeat (split; [reflexivity|]). split; [apply Buffer_toString_hex_length|].
    intros i o env0 _ N D E. apply D. rewrite N in E.
    apply Buffer_toString_hex_inj in E. exact E.
Qed.

End LifecycleProperties.

(** C9 as stated fails after [revive] has replaced a live instance and
    the panel of the replaced one has been closed: the slot is empty
    although the revived instance is live, so of two calls in a row the
    first constructs a third instance, and two instances are live
    afterwards. *)
Lemma createOrShow_two_live_instances :
  let env := sample_env (Threw OtherValue) in
  let h := {| world := initial_world unit; host_calls := [] |} in
  let h1 := snd (in_world (sample_createOrShow env tt) h) in
  let h2 := snd (in_world (sample_revive env (_panel sample_object) tt) h1) in
  let h3 := snd (onDidDispose 0 h2) in
  let w4 := snd (sample_createOrShow env tt (world h3)) in
  let w5 := snd (sample_createOrShow env tt w4) in
  live_instances (world h2) = [0; 1]%nat
  /\ currentPanel (world h3) = None
  /\ live_instances (world h3) = [1%nat]
  /\ currentPanel w5 = Some 2%nat
  /\ live_instances w5 = [1; 2]%nat.
Proof.
  vm_compute. repeat split; reflexivity.
Qed.

(** The theorem from the state in which nothing has been shown yet: after
    two calls exactly one instance exists and is live, the slot refers to
    it, and two updates of it are pending. *)
Lemma createOrShow_singleton_witness :
  let env := sample_env (Threw OtherValue) in
  let w1 := snd (sample_createOrShow env tt (initial_world unit)) in
  let w2 := snd (sample_createOrShow env tt w1) in
  live_instances w2 = [0%nat] /\ currentPanel w2 = Some 0%nat
  /\ length (objects w2) = 1%nat /\ pending w2 = [0; 0]%nat.
Proof.
  intros env w1 w2.
  destruct (@createOrShow_singleton unit unit unit (fun u _ => u) env env tt tt
              (initial_world unit))
    as (_ & _ & (this & S1 & S2 & _ & N2 & P2 & _ & _ & L) & _ & C).
  destruct (L eq_refl) as (_ & L2 & _).
  destruct (C eq_refl) as (created & O1 & S1' & P1 & _).
  change (currentPanel w1 = Some 0%nat) in S1'.
  change (currentPanel w1 = Some this) in S1.
  change (currentPanel w2 = Some this) in S2.
  change (live_instances w2 = [this]) in L2.
  change (length (objects w2) = length (objects w1)) in N2.
  change (pending w2 = pending w1 ++ [this]) in P2.
  change (objects w1 = [created]) in O1.
  change (pending w1 = [0%nat]) in P1.
  assert (T : this = 0%nat) by congruence. subst this.
  split; [exact L2|]. split; [exact S2|]. split; [rewrite N2, O1; reflexivity|].
  rewrite P2, P1. reflexivity.
Defined.


(* ------------------------------------------------------------------ *)
(** ** Renderer: the content security policy *)

Lemma split_on_pieces (sep : N) (a : jsstring) : split_on sep a <> [].
Proof.
  destruct a as [|c a]; cbn [split_on]; [discriminate|].
  destruct (N.eqb c sep); [discriminate|]. destruct (split_on sep a); discriminate.
Qed.

Lemma split_on_app (sep : N) (a b : jsstring) :
  split_on sep (a ++ sep :: b) = split_on sep a ++ split_on sep b.
Proof.
  induction a as [|c a IH]; cbn [app split_on].
  - rewrite N.eqb_refl. reflexivity.
  - destruct (N.eqb c sep); rewrite IH; [reflexivity|].
    pose proof (split_on_pieces sep a) as P.
    destruct (split_on sep a); [contradiction | reflexivity].
Qed.

Lemma split_on_absent (sep : N) (a : jsstring) :
  ~ In sep a -> split_on sep a = [a].
Proof.
  induction a as [|c a IH]; intros H; cbn [split_on]; [reflexivity|].
  destruct (N.eqb_spec c sep) as [->|_]; [exfalso; apply H; left; reflexivity|].
  rewrite IH; [reflexivity|]. intros I. apply H. right. exact I.
Qed.

Lemma words_app (a b : jsstring) : words (a ++ 32%N :: b) = words a ++ words b.
Proof. unfold words. rewrite split_on_app, filter_app. reflexivity. Qed.

Lemma words_token (t : jsstring) : t <> [] -> ~ In 32%N t -> words t = [t].
Proof.
  intros N H. unfold words. rewrite split_on_absent by exact H.
  destruct t; [contradiction | reflexivity].
Qed.

Lemma endsWith_at_suffix (n : nat) (t s : jsstring) :
  endsWith_at n t s = true -> exists pre, t = pre ++ s.
Proof.
  revert t. induction n as [|n IH]; intros t H; cbn [endsWith_at] in H.
  - exists []. unfold JsString.eqb in H.
    destruct (list_eq_dec N.eq_dec t s); [assumption | discriminate].
  - destruct t as [|c t]; [discriminate|]. destruct (IH t H) as (pre & ->).
    exists (c :: pre). reflexivity.
Qed.

Lemma includes_between (before after opening closing middle rest : jsstring) :
  endsWith before opening = true -> startsWith after closing = true ->
  includes (before ++ middle ++ after ++ rest) (opening ++ middle ++ closing).
Proof.
  intros B A. apply endsWith_at_suffix in B. destruct B as (pre & ->).
  apply startsWith_prefix in A. destruct A as (post & ->).
  exists pre, (post ++ rest). rewrite <- !app_assoc. reflexivity.
Qed.

Lemma hex_of_byte_chars (b : byte) :
  Forall (fun c => (48 <= c <= 57)%N \/ (97 <= c <= 102)%N) (hex_of_byte b).
Proof.
  unfold hex_of_byte.
  assert (D : forall k, (k < 16)%N ->
                (48 <= (if (k <? 10)%N then 48 + k else 87 + k) <= 57)%N
                \/ (97 <= (if (k <? 10)%N then 48 + k else 87 + k) <= 102)%N).
  { intros k K. destruct (N.ltb_spec k 10); lia. }
  assert (L : (Byte.to_N b < 256)%N) by (destruct b; vm_compute; reflexivity).
  cbv zeta. constructor; [|constructor; [|constructor]].
  - apply D. apply N.Div0.div_lt_upper_bound. lia.
  - apply D. apply N.mod_lt. discriminate.
Qed.

Lemma generateNonce_chars (randomBytes : nat -> list byte) :
  Forall (fun c => (48 <= c <= 57)%N \/ (97 <= c <= 102)%N) (_generateNonce randomBytes).
Proof.
  unfold _generateNonce, Buffer_toString_hex.
  induction (randomBytes 16%nat) as [|b l IH]; cbn [flat_map]; [constructor|].
  apply Forall_app. split; [apply hex_of_byte_chars | exact IH].
Qed.

Lemma nonce_source_token (nonce : jsstring) :
  Forall (fun c => (48 <= c <= 57)%N \/ (97 <= c <= 102)%N) nonce ->
  ~ In 32%N (nonce_source nonce) /\ ~ In 59%N (nonce_source nonce)
  /\ nonce_source nonce <> [].
Proof.
  intros F. unfold nonce_source. rewrite Forall_forall in F.
  repeat split; try discriminate; intros I;
    apply in_app_or in I; destruct I as [I | I];
    try (vm_compute in I; intuition discriminate);
    apply in_app_or in I; destruct I as [I | I];
    try (vm_compute in I; intuition discriminate);
    apply F in I; lia.
Qed.

Lemma not_in_app (c : N) (a b : jsstring) : ~ In c a -> ~ In c b -> ~ In c (a ++ b).
Proof. intros A B I. apply in_app_or in I. tauto. Qed.

Lemma not_in_cons (c x : N) (a : jsstring) : c <> x -> ~ In c a -> ~ In c (x :: a).
Proof. intros N A [E | I]; [congruence | tauto]. Qed.

Lemma policy_directives (src nonce : jsstring) :
  ~ In 59%N src ->
  Forall (fun c => (48 <= c <= 57)%N \/ (97 <= c <= 102)%N) nonce ->
  csp_directives
    (join (lit " ")
       [lit "default-src 'none';";
        lit "img-src " ++ src ++ lit ";";
        lit "style-src " ++ src ++ lit " 'nonce-" ++ nonce ++ lit "';";
        lit "script-src 'nonce-" ++ nonce ++ lit "';"])
  = [[lit "default-src"; lit "'none'"];
     lit "img-src" :: words src;
     lit "style-src" :: words src ++ [nonce_source nonce];
     [lit "script-src"; nonce_source nonce]].
Proof.
  intros S F. destruct (nonce_source_token F) as (T32 & T59 & TN).
  set (ns := nonce_source nonce) in *.
  assert (E : join (lit " ")
       [lit "default-src 'none';";
        lit "img-src " ++ src ++ lit ";";
        lit "style-src " ++ src ++ lit " 'nonce-" ++ nonce ++ lit "';";
        lit "script-src 'nonce-" ++ nonce ++ lit "';"]
      = lit "default-src 'none'" ++ 59%N ::
        (lit " img-src" ++ 32%N :: src) ++ 59%N ::
        (lit " style-src" ++ 32%N :: src ++ 32%N :: ns) ++ 59%N ::
        (lit " script-src" ++ 32%N :: ns) ++ 59%N :: []).
  { unfold ns, nonce_source. cbn [join]. rewrite <- !app_assoc.
    repeat (rewrite <- ?app_comm_cons; rewrite <- ?app_assoc). vm_compute. reflexivity. }
  rewrite E. clear E. unfold csp_directives.
  rewrite !split_on_app.
  assert (A1 : ~ In 59%N (lit "default-src 'none'")) by (vm_compute; intuition discriminate).
  assert (A2 : ~ In 59%N (lit " img-src" ++ 32%N :: src)).
  { apply not_in_app; [vm_compute; intuition discriminate|].
    apply not_in_cons; [discriminate | exact S]. }
  assert (A3 : ~ In 59%N (lit " style-src" ++ 32%N :: src ++ 32%N :: ns)).
  { apply not_in_app; [vm_compute; intuition discriminate|].
    apply not_in_cons; [discriminate|]. apply not_in_app; [exact S|].
    apply not_in_cons; [discriminate | exact T59]. }
  assert (A4 : ~ In 59%N (lit " script-src" ++ 32%N :: ns)).
  { apply not_in_app; [vm_compute; intuition discriminate|].
    apply not_in_cons; [discriminate | exact T59]. }
  rewrite (@split_on_absent _ _ A1), (@split_on_absent _ _ A2),
    (@split_on_absent _ _ A3), (@split_on_absent _ _ A4).
  cbn [app map split_on]. rewrite !words_app, (@words_token _ TN T32).
  change (words (lit "default-src 'none'")) with [lit "default-src"; lit "'none'"].
  change (words (lit " img-src")) with [lit "img-src"].
  change (words (lit " style-src")) with [lit "style-src"].
  change (words (lit " script-src")) with [lit "script-src"].
  change (words []) with (@nil jsstring).
  reflexivity.
Qed.

Section PolicyProperties.

Variables TokenUsage Date Uri : Type.
Variable formatTokenUsage : TokenUsage -> jsstring.
Variable Date_toLocaleString : Date -> jsstring.
Variable Uri_joinPath : Uri -> list jsstring -> Uri.
Variable asWebviewUri : Uri -> jsstring.
Variable shortest_decimal : number -> jsstring.

Local Notation "'getHtml'" :=
  (_getHtml formatTokenUsage Date_toLocaleString Uri_joinPath asWebviewUri shortest_decimal).
Local Notation "'getErrorHtml'" := (_getErrorHtml Uri_joinPath asWebviewUri).

(** C2. Both render paths put the same policy in the document. Read as a
    content security policy it has four directives: [default-src 'none'];
    [img-src] with the sources of the display surface's [cspSource] and
    nothing else; [style-src] with those sources and the nonce of the
    instance; [script-src] with the nonce of the instance alone, so no
    ['unsafe-inline'] for scripts, whatever the configuration. The nonce
    is the one the constructor generates; [cspSource] is assumed free of
    semicolons. *)
Theorem content_security_policy (randomBytes : nat -> list byte)
    (this : RateLimitWebView Uri) (config : Configuration)
    (data : RateLimitData TokenUsage Date) (errorMessage : jsstring) :
  _nonce this = _generateNonce randomBytes ->
  ~ In 59%N (webview_cspSource (_panel this)) ->
  exists policy,
    includes (getHtml this config data) (csp_meta policy)
    /\ includes (getErrorHtml this errorMessage) (csp_meta policy)
    /\ csp_directives policy
       = [[lit "default-src"; lit "'none'"];
          lit "img-src" :: words (webview_cspSource (_panel this));
          lit "style-src" :: words (webview_cspSource (_panel this))
                             ++ [nonce_source (_nonce this)];
          [lit "script-src"; nonce_source (_nonce this)]]
    /\ ~ In (lit "'unsafe-inline'") [lit "script-src"; nonce_source (_nonce this)].
Proof.
  intros G S.
  exists (join (lit " ")
            [lit "default-src 'none';";
             lit "img-src " ++ webview_cspSource (_panel this) ++ lit ";";
             lit "style-src " ++ webview_cspSource (_panel this) ++ lit " 'nonce-"
               ++ _nonce this ++ lit "';";
             lit "script-src 'nonce-" ++ _nonce this ++ lit "';"]).
  split; [|split; [|split]].
  - unfold _getHtml, csp_meta.
    destruct (_renderProgressSection Date_toLocaleString shortest_decimal config data [])
      as [progressSection widthRules].
    cbv zeta. apply includes_between; vm_compute; reflexivity.
  - unfold _getErrorHtml, csp_meta. cbv zeta.
    apply includes_between; vm_compute; reflexivity.
  - apply policy_directives; [exact S|]. rewrite G. apply generateNonce_chars.
  - intros [E | [E | []]]; vm_compute in E; discriminate.
Qed.

End PolicyProperties.

(** The theorem at an instance whose nonce comes from sixteen bytes [2a],
    with the settings at their most permissive colors. *)
Lemma content_security_policy_witness :
  exists policy,
    includes (sample_getHtml sample_object no_settings (sample_data None None)) (csp_meta policy)
    /\ includes (sample_getErrorHtml sample_object (lit "x")) (csp_meta policy)
    /\ csp_directives policy
       = [[lit "default-src"; lit "'none'"];
          [lit "img-src"; lit "https://host.test"];
          [lit "style-src"; lit "https://host.test";
           lit "'nonce-2a2a2a2a2a2a2a2a2a2a2a2a2a2a2a2a'"];
          [lit "script-src"; lit "'nonce-2a2a2a2a2a2a2a2a2a2a2a2a2a2a2a2a'"]].
Proof.
  destruct (@content_security_policy unit unit unit (fun _ => lit "0") (fun _ => lit "now")
              (fun u _ => u) (fun _ => sample_stylesheet) (fun _ => lit "?")
              (fun n => repeat x2a n) sample_object no_settings (sample_data None None)
              (lit "x"))
    as (policy & H1 & H2 & H3 & _).
  - vm_compute. reflexivity.
  - vm_compute. intuition discriminate.
  - exists policy. split; [exact H1 | split; [exact H2 | exact H3]].
Defined.

(* ------------------------------------------------------------------ *)
(** ** ColorSanitizer: the languages of the patterns *)

Lemma lang_Seq (rs : list regex) (s : jsstring) :
  lang (Seq rs) s <-> sequence (map lang rs) s.
Proof.
  revert s. induction rs as [|r rs IH]; intros s; [reflexivity|].
  cbn [Seq fold_right lang map sequence]. fold (Seq rs).
  split; intros (a & b & E & H1 & H2); exists a, b; repeat split; auto; apply IH; auto.
Qed.

Lemma sequence_mono (ps qs : list Lang) :
  Forall2 (fun p q : Lang => forall s, p s -> q s) ps qs ->
  forall s, sequence ps s -> sequence qs s.
Proof.
  induction 1 as [|p q ps qs H F IH]; intros s; [auto|].
  cbn [sequence]. intros (a & b & E & H1 & H2). exists a, b. auto.
Qed.

Lemma sequence_app (ps qs : list Lang) (s : jsstring) :
  sequence (ps ++ qs) s <-> exists a b, s = a ++ b /\ sequence ps a /\ sequence qs b.
Proof.
  revert s. induction ps as [|p ps IH]; intros s; cbn [app sequence].
  - split.
    + intros H. exists [], s. auto.
    + intros (a & b & -> & -> & H). exact H.
  - split.
    + intros (a & b & -> & H1 & H2). apply IH in H2. destruct H2 as (c & e & -> & H2 & H3).
      exists (a ++ c), e. rewrite app_assoc. repeat split; auto. exists a, c. auto.
    + intros (x & e & -> & (a & c & -> & H1 & H2) & H3).
      exists a, (c ++ e). rewrite app_assoc. repeat split; auto.
      apply IH. exists c, e. auto.
Qed.

Lemma lang_Lit (l s : jsstring) : lang (Lit l) s <-> s = l.
Proof.
  revert s. induction l as [|c l IH]; intros s; cbn [Lit fold_right lang]; [reflexivity|].
  fold (Lit l). split.
  - intros (a & b & -> & (x & -> & E) & H). apply N.eqb_eq in E. subst x.
    apply IH in H. subst. reflexivity.
  - intros ->. exists [c], l. repeat split; [|apply IH; reflexivity].
    exists c. split; [reflexivity | apply N.eqb_refl].
Qed.

Lemma lang_txt (t : string) (s : jsstring) : lang (txt t) s <-> exactly t s.
Proof. apply lang_Lit. Qed.

Lemma lang_Opt (r : regex) (s : jsstring) : lang (Opt r) s <-> s = [] \/ lang r s.
Proof. cbn [Opt lang]. tauto. Qed.

Lemma lang_Class (p : N -> bool) (s : jsstring) :
  lang (Class p) s <-> exists c, s = [c] /\ p c = true.
Proof. reflexivity. Qed.

Lemma lang_Star_Class (p : N -> bool) (s : jsstring) :
  lang (Star (Class p)) s <-> forallb p s = true.
Proof.
  cbn [lang]. split.
  - intros (ss & -> & F). induction F as [|x ss (c & -> & Hc) F IH]; [reflexivity|].
    cbn [concat app forallb]. rewrite Hc, IH. reflexivity.
  - intros H. exists (map (fun c => [c]) s). split.
    + induction s as [|c s IH]; [reflexivity|]. cbn [map concat app].
      cbn [forallb] in H. apply andb_true_iff in H. rewrite <- IH by tauto. reflexivity.
    + induction s as [|c s IH]; [constructor|]. cbn [forallb] in H.
      apply andb_true_iff in H. constructor; [exists c; tauto | apply IH; tauto].
Qed.

Lemma lang_Plus_Class (p : N -> bool) (s : jsstring) :
  lang (Plus (Class p)) s <-> s <> [] /\ forallb p s = true.
Proof.
  unfold Plus. cbn [lang]. split.
  - intros (a & b & -> & (c & -> & Hc) & H).
    change (lang (Star (Class p)) b) in H. apply lang_Star_Class in H.
    split; [discriminate|]. cbn [app forallb]. rewrite Hc, H. reflexivity.
  - intros [N H]. destruct s as [|c s]; [contradiction|].
    cbn [forallb] in H. apply andb_true_iff in H.
    exists [c], s. repeat split; [exists c; tauto|].
    change (lang (Star (Class p)) s). apply lang_Star_Class. tauto.
Qed.

Lemma lang_Rep_Class (p : N -> bool) (n : nat) (s : jsstring) :
  lang (Rep n (Class p)) s <-> length s = n /\ forallb p s = true.
Proof.
  revert s. induction n as [|n IH]; intros s; cbn [Rep lang].
  - split; [intros ->; auto | intros [L _]; destruct s; [reflexivity | discriminate]].
  - split.
    + intros (a & b & -> & (c & -> & Hc) & H). apply IH in H. destruct H as [L F].
      cbn [app length forallb]. rewrite L, Hc, F. auto.
    + intros [L F]. destruct s as [|c s]; [discriminate|].
      cbn [forallb] in F. apply andb_true_iff in F. injection L as L.
      exists [c], s. repeat split; [exists c; tauto | apply IH; tauto].
Qed.

Lemma lang_chars (P : N -> bool) (r : regex) :
  chars_ok P r -> forall s, lang r s -> forallb P s = true.
Proof.
  induction r as [| |p|a IHa b IHb|a IHa b IHb|a IHa]; cbn [chars_ok lang]; intros C s.
  - contradiction.
  - intros ->. reflexivity.
  - intros (c & -> & H). cbn [forallb]. rewrite (C c H). reflexivity.
  - intros (s1 & s2 & -> & H1 & H2). rewrite forallb_app, IHa, IHb; tauto.
  - intros [H | H]; [apply IHa | apply IHb]; tauto.
  - intros (ss & -> & F). induction F as [|x ss Hx F IH]; [reflexivity|].
    cbn [concat]. rewrite forallb_app, IH, (IHa C x Hx). reflexivity.
Qed.

Lemma lang_max_len (r : regex) :
  forall n s, max_len r = Some n -> lang r s -> (length s <= n)%nat.
Proof.
  induction r as [| |p|a IHa b IHb|a IHa b IHb|a IHa]; cbn [max_len lang]; intros n s M.
  - contradiction.
  - intros ->. cbn. lia.
  - intros (c & -> & _). injection M as <-. cbn. lia.
  - destruct (max_len a) as [x|]; [|discriminate].
    destruct (max_len b) as [y|]; [|discriminate]. injection M as <-.
    intros (s1 & s2 & -> & H1 & H2). rewrite length_app.
    specialize (IHa x s1 eq_refl H1). specialize (IHb y s2 eq_refl H2). lia.
  - destruct (max_len a) as [x|]; [|discriminate].
    destruct (max_len b) as [y|]; [|discriminate]. injection M as <-.
    intros [H | H]; [specialize (IHa x s eq_refl H) | specialize (IHb y s eq_refl H)]; lia.
  - discriminate.
Qed.

Lemma in_strings_of (alphabet : list N) (s : jsstring) :
  Forall (fun c => In c alphabet) s -> In s (strings_of alphabet (length s)).
Proof.
  induction 1 as [|c s Hc F IH]; cbn [length strings_of]; [left; reflexivity|].
  apply in_flat_map. exists c. split; [exact Hc|]. apply in_map. exact IH.
Qed.

Lemma in_range_spec (lo hi : string) (a b c : N) :
  lit lo = [a] -> lit hi = [b] -> (in_range lo hi c = true <-> (a <= c <= b)%N).
Proof.
  intros A B. unfold in_range. rewrite A, B, andb_true_iff, !N.leb_le. reflexivity.
Qed.

Lemma digit_range (c : N) : digit c = true <-> (48 <= c <= 57)%N.
Proof. apply in_range_spec; reflexivity. Qed.

Lemma digit_cases (c : N) : digit c = true -> In c (lit "0123456789").
Proof.
  rewrite digit_range.
  change (lit "0123456789") with [48; 49; 50; 51; 52; 53; 54; 55; 56; 57]%N.
  cbn [In]. lia.
Qed.

Lemma in_digit_strings (s : jsstring) :
  digits s -> (length s <= 3)%nat -> In s digit_strings.
Proof.
  intros D L. unfold digit_strings. apply in_flat_map. exists (length s). split.
  - cbn [In]. lia.
  - apply in_strings_of. unfold digits in D. rewrite forallb_forall in D.
    apply Forall_forall. intros c I. apply digit_cases, D, I.
Qed.

(** A property checked on the 1111 digit strings of at most three digits
    holds of each of them. *)
Lemma digit_table (P : jsstring -> bool) :
  forallb P digit_strings = true ->
  forall s, digits s -> (length s <= 3)%nat -> P s = true.
Proof.
  intros T s D L. rewrite forallb_forall in T. apply T, in_digit_strings; assumption.
Qed.

(** A pattern over digits that matches at most three of them accepts what
    a table of its answers says. *)
Lemma lang_by_table (r : regex) (f : jsstring -> bool) (n : nat) :
  chars_ok digit r -> max_len r = Some n -> (n <= 3)%nat ->
  forallb (agree r f) digit_strings = true ->
  forall s, lang r s <-> digits s /\ (length s <= 3)%nat /\ f s = true.
Proof.
  intros C M N T s. split.
  - intros H. pose proof (@lang_chars digit r C s H) as D.
    pose proof (@lang_max_len r n s M H) as L.
    assert (L3 : (length s <= 3)%nat) by lia.
    repeat split; auto.
    pose proof (@digit_table _ T s D L3) as A. unfold agree in A.
    apply RegExp_test_lang in H. rewrite H in A. apply eqb_prop in A. auto.
  - intros (D & L & F). pose proof (@digit_table _ T s D L) as A. unfold agree in A.
    rewrite F in A. apply eqb_prop in A. apply RegExp_test_lang. exact A.
Qed.

(** *** Character classes *)

Lemma one_of_In (chars : string) (c : N) : one_of chars c = true -> In c (lit chars).
Proof.
  unfold one_of. intros H. apply existsb_exists in H. destruct H as (x & I & E).
  apply N.eqb_eq in E. subst. exact I.
Qed.

(** The obligations of [chars_ok]: each class of the pattern, spelled out
    as comparisons, implies the bound. *)
Ltac class_arith :=
  let c := fresh "c" in
  let H := fresh "H" in
  intros c H;
  rewrite ?andb_true_iff, ?orb_true_iff, ?N.leb_le, ?N.eqb_eq in *;
  lia.

Ltac chars_ok_digit := cbn -[N.eqb N.leb]; repeat split; class_arith.

(** *** Decimal values *)

Lemma value_from (s : jsstring) (acc : N) :
  fold_left (fun a c => (10 * a + (c - 48))%N) s acc
  = (acc * 10 ^ N.of_nat (length s) + value s)%N.
Proof.
  unfold value. revert acc. induction s as [|c s IH]; intros acc.
  - cbn. lia.
  - cbn [fold_left length]. rewrite IH, (IH (10 * 0 + (c - 48))%N).
    rewrite Nat2N.inj_succ, N.pow_succ_r'. lia.
Qed.

Lemma value_app (a b : jsstring) :
  value (a ++ b) = (value a * 10 ^ N.of_nat (length b) + value b)%N.
Proof. unfold value at 1. rewrite fold_left_app. apply value_from. Qed.

Lemma value_cons (c : N) (s : jsstring) :
  value (c :: s) = ((c - 48) * 10 ^ N.of_nat (length s) + value s)%N.
Proof. change (c :: s) with ([c] ++ s). rewrite value_app. cbn. lia. Qed.

Lemma value_bound (s : jsstring) : digits s -> (value s < 10 ^ N.of_nat (length s))%N.
Proof.
  unfold digits. induction s as [|c s IH]; intros D; [cbn; lia|].
  cbn [forallb] in D. apply andb_true_iff in D. destruct D as [Dc D].
  apply digit_range in Dc. specialize (IH D). rewrite value_cons.
  cbn [length]. rewrite Nat2N.inj_succ, N.pow_succ_r'. nia.
Qed.

Lemma value_zero (s : jsstring) :
  digits s -> (value s = 0%N <-> forallb (N.eqb 48) s = true).
Proof.
  unfold digits. induction s as [|c s IH]; intros D; [cbn; tauto|].
  cbn [forallb] in D |- *. apply andb_true_iff in D. destruct D as [Dc D].
  apply digit_range in Dc. rewrite value_cons, andb_true_iff, N.eqb_eq, <- (IH D).
  assert (0 < 10 ^ N.of_nat (length s))%N by (apply N.neq_0_lt_0, N.pow_nonzero; discriminate).
  split; [intros E | intros [<- ->]; cbn; lia].
  assert (c - 48 = 0)%N by nia. split; [lia | nia].
Qed.

Lemma numeral_le_cases (ip fp : jsstring) (n : N) :
  digits fp ->
  (numeral_le ip fp n <-> (value ip < n)%N \/ (value ip = n /\ forallb (N.eqb 48) fp = true)).
Proof.
  intros D. unfold numeral_le. rewrite value_app, <- (value_zero D).
  pose proof (value_bound D). nia.
Qed.

Lemma numeral_lt_cases (ip fp : jsstring) (n : N) :
  digits fp -> (numeral_lt ip fp n <-> (value ip < n)%N).
Proof.
  intros D. unfold numeral_lt. rewrite value_app. pose proof (value_bound D). nia.
Qed.

(** *** The numeric patterns *)

Lemma lang_RGB_NUMBER (s : jsstring) : lang RGB_NUMBER s <-> channel s.
Proof.
  rewrite (@lang_by_table RGB_NUMBER channel_b 3);
    [ | chars_ok_digit | reflexivity | lia | vm_compute; reflexivity ].
  unfold channel, channel_b. rewrite andb_true_iff, Nat.leb_le, N.leb_le. tauto.
Qed.

Lemma lang_zero_char (x : jsstring) :
  lang (txt "0") x <-> exists c, x = [c] /\ N.eqb 48 c = true.
Proof.
  rewrite lang_txt. unfold exactly. change (lit "0") with [48%N]. split.
  - intros ->. exists 48%N. auto.
  - intros (c & -> & E). apply N.eqb_eq in E. subst. reflexivity.
Qed.

Lemma lang_Plus_zero (s : jsstring) :
  lang (Plus (txt "0")) s <-> s <> [] /\ forallb (N.eqb 48) s = true.
Proof.
  unfold Plus. cbn [lang]. split.
  - intros (a & b & -> & Ha & ss & -> & F). apply lang_zero_char in Ha.
    destruct Ha as (c & -> & Hc). split; [discriminate|].
    cbn [app forallb]. rewrite Hc. cbn [andb].
    induction F as [|x ss Hx F IH]; [reflexivity|].
    apply lang_zero_char in Hx. destruct Hx as (e & -> & He).
    cbn [concat app forallb]. rewrite He, IH. reflexivity.
  - intros [N H]. destruct s as [|c s]; [contradiction|].
    cbn [forallb] in H. apply andb_true_iff in H. destruct H as [Hc H].
    exists [c], s. repeat split; [apply lang_zero_char; exists c; auto|].
    exists (map (fun e => [e]) s). split.
    + clear H. induction s as [|e s IH]; [reflexivity|]. cbn [map concat app].
      rewrite <- IH; [reflexivity | discriminate].
    + clear N Hc. induction s as [|e s IH]; [constructor|]. cbn [forallb] in H.
      apply andb_true_iff in H. constructor; [|apply IH; tauto].
      apply lang_zero_char. exists e. tauto.
Qed.

Lemma zeros_digits (fp : jsstring) : forallb (N.eqb 48) fp = true -> digits fp.
Proof.
  unfold digits. intros H. rewrite forallb_forall in H |- *. intros c I.
  specialize (H c I). apply N.eqb_eq in H. subst. reflexivity.
Qed.

Lemma sequence_one (p : Lang) (s : jsstring) : sequence [p] s <-> p s.
Proof.
  cbn [sequence]. split.
  - intros (a & b & -> & H & ->). rewrite app_nil_r. exact H.
  - intros H. exists s, []. rewrite app_nil_r. auto.
Qed.

Lemma lang_Seq_snoc (rs : list regex) (r : regex) (s : jsstring) :
  lang (Seq (rs ++ [r])) s <-> exists a b, s = a ++ b /\ lang (Seq rs) a /\ lang r b.
Proof.
  rewrite lang_Seq, map_app, sequence_app.
  split; intros (a & b & E & H1 & H2); exists a, b; repeat split; auto;
    try (apply lang_Seq; exact H1); try (apply lang_Seq in H1; exact H1);
    apply (sequence_one (lang r)); exact H2.
Qed.

(** [(?:\.\d+)?] and [(?:\.0+)?] *)
Lemma lang_fraction (t : jsstring) :
  lang (Opt (Seq [txt "."; Plus d])) t <-> exists fp, digits fp /\ t = fraction_text fp.
Proof.
  rewrite lang_Opt. change (Seq [txt "."; Plus d]) with (Seq ([txt "."] ++ [Plus d])).
  rewrite lang_Seq_snoc. split.
  - intros [-> | (a & b & -> & Ha & Hb)].
    + exists []. split; reflexivity.
    + apply lang_Seq, sequence_one, lang_txt in Ha. red in Ha. subst a.
      apply lang_Plus_Class in Hb. destruct Hb as [N D].
      exists b. split; [exact D|]. destruct b; [contradiction | reflexivity].
  - intros (fp & D & ->). destruct fp as [|c fp]; [left; reflexivity|]. right.
    exists (lit "."), (c :: fp). repeat split.
    + apply lang_Seq, sequence_one, lang_txt. reflexivity.
    + apply lang_Plus_Class. split; [discriminate | exact D].
Qed.

Lemma lang_zero_fraction (t : jsstring) :
  lang (Opt (Seq [txt "."; Plus (txt "0")])) t
  <-> exists fp, forallb (N.eqb 48) fp = true /\ t = fraction_text fp.
Proof.
  rewrite lang_Opt.
  change (Seq [txt "."; Plus (txt "0")]) with (Seq ([txt "."] ++ [Plus (txt "0")])).
  rewrite lang_Seq_snoc. split.
  - intros [-> | (a & b & -> & Ha & Hb)].
    + exists []. split; reflexivity.
    + apply lang_Seq, sequence_one, lang_txt in Ha. red in Ha. subst a.
      apply lang_Plus_zero in Hb. destruct Hb as [N D].
      exists b. split; [exact D|]. destruct b; [contradiction | reflexivity].
  - intros (fp & D & ->). destruct fp as [|c fp]; [left; reflexivity|]. right.
    exists (lit "."), (c :: fp). repeat split.
    + apply lang_Seq, sequence_one, lang_txt. reflexivity.
    + apply lang_Plus_zero. split; [discriminate | exact D].
Qed.

Lemma plain_integer_b (ip : jsstring) :
  plain_integer ip <-> digits ip /\ (length ip <= 3)%nat /\ plain_b ip = true.
Proof.
  unfold plain_integer, plain_b.
  rewrite andb_true_iff, orb_true_iff, negb_true_iff, N.eqb_neq, !Nat.leb_le.
  split; intros (D & A & B); repeat split; auto; lia.
Qed.

Lemma lang_ALPHA_VALUE (s : jsstring) : lang ALPHA_VALUE s <-> alpha s.
Proof.
  unfold ALPHA_VALUE. cbn [Alts fold_right lang].
  change (Seq [Opt (txt "0"); txt "."; Plus d])
    with (Seq ([Opt (txt "0"); txt "."] ++ [Plus d])).
  change (Seq [txt "1"; Opt (Seq [txt "."; Plus (txt "0")])])
    with (Seq ([txt "1"] ++ [Opt (Seq [txt "."; Plus (txt "0")])])).
  rewrite lang_txt, !lang_Seq_snoc. unfold alpha, exactly. split.
  - intros [-> | [(a & b & -> & Ha & Hb) | [(a & b & -> & Ha & Hb) | []]]].
    + exists (lit "0"), []. repeat split; try discriminate; try reflexivity.
    + apply lang_Seq in Ha. cbn [map sequence] in Ha.
      destruct Ha as (z & e & -> & Hz & (p & q & -> & Hp & ->)).
      apply lang_Opt in Hz. apply lang_txt in Hp. red in Hp. subst p.
      apply lang_Plus_Class in Hb. destruct Hb as [N D].
      exists z, b. rewrite app_nil_r.
      assert (Z : z = [] \/ z = lit "0") by (rewrite lang_txt in Hz; exact Hz).
      repeat split.
      * unfold numeral_text. rewrite <- app_assoc. f_equal.
        destruct b; [contradiction | reflexivity].
      * destruct Z as [-> | ->]; discriminate.
      * destruct Z as [-> | ->]; reflexivity.
      * exact D.
      * destruct Z as [-> | ->]; cbn; lia.
      * apply numeral_le_cases; [exact D|]. left.
        destruct Z as [-> | ->]; vm_compute; reflexivity.
    + apply lang_Seq, sequence_one, lang_txt in Ha. red in Ha. subst a.
      apply lang_zero_fraction in Hb. destruct Hb as (fp & Z & ->).
      exists (lit "1"), fp.
      split; [reflexivity|]. split; [discriminate|]. split; [reflexivity|].
      split; [apply zeros_digits, Z|]. split; [cbn; lia|].
      apply numeral_le_cases; [apply zeros_digits, Z|]. right. split; [reflexivity | exact Z].
  - intros (ip & fp & -> & N & Di & Df & L & V).
    apply numeral_le_cases in V; [|exact Df].
    destruct ip as [|c [|c' ip]]; [| |cbn in L; lia].
    + right. left. exists (lit "."), fp.
      destruct fp as [|x fp]; [exfalso; apply N; reflexivity|].
      repeat split.
      * apply lang_Seq. cbn [map sequence]. exists [], (lit "."). repeat split.
        -- apply lang_Opt. left. reflexivity.
        -- exists (lit "."), []. repeat split. apply lang_txt. reflexivity.
      * apply lang_Plus_Class. split; [discriminate | exact Df].
    + unfold digits in Di. cbn [forallb] in Di. apply andb_true_iff in Di.
      destruct Di as [Dc _]. apply digit_range in Dc.
      change (value [c]) with (10 * 0 + (c - 48))%N in V.
      assert (C : c = 48%N \/ (c = 49%N /\ forallb (N.eqb 48) fp = true))
        by (destruct V as [V | [V Z]]; [left; lia | right; split; [lia | exact Z]]).
      destruct C as [-> | [-> Z]].
      * destruct fp as [|x fp]; [left; reflexivity|]. right. left.
        exists (lit "0."), (x :: fp). repeat split.
        -- apply lang_Seq. cbn [map sequence]. exists (lit "0"), (lit "."). repeat split.
           ++ apply lang_Opt. right. apply lang_txt. reflexivity.
           ++ exists (lit "."), []. repeat split. apply lang_txt. reflexivity.
        -- apply lang_Plus_Class. split; [discriminate | exact Df].
      * right. right. left. exists (lit "1"), (fraction_text fp). repeat split.
        -- apply lang_Seq, sequence_one, lang_txt. reflexivity.
        -- apply lang_zero_fraction. exists fp. auto.
Qed.

Lemma jsstring_eqb_eq (a b : jsstring) : JsString.eqb a b = true <-> a = b.
Proof.
  unfold JsString.eqb. destruct (list_eq_dec N.eq_dec a b); split; congruence.
Qed.

Lemma plain_360 (ip : jsstring) :
  plain_integer ip -> value ip = 360%N -> ip = lit "360".
Proof.
  intros P V. apply plain_integer_b in P. destruct P as (D & L & B).
  assert (T : forallb (fun s => Bool.eqb (plain_b s && (value s =? 360)%N)
                                          (JsString.eqb s (lit "360")))
                      digit_strings = true) by (vm_compute; reflexivity).
  pose proof (@digit_table _ T ip D L) as A. cbv beta in A.
  rewrite B, (proj2 (N.eqb_eq _ _) V) in A. cbn [andb] in A.
  apply jsstring_eqb_eq. symmetry. apply eqb_prop. exact A.
Qed.

Lemma lang_hue_upper (a : jsstring) :
  lang (Seq [txt "3"; Class (in_range "0" "5"); d]) a
  <-> digits a /\ (length a <= 3)%nat
      /\ plain_b a && (300 <=? value a)%N && (value a <? 360)%N = true.
Proof.
  apply (@lang_by_table _ (fun s => plain_b s && (300 <=? value s)%N && (value s <? 360)%N) 3);
    [chars_ok_digit | reflexivity | lia | vm_compute; reflexivity].
Qed.

Lemma lang_hue_lower (a : jsstring) :
  lang (Seq [Opt (Class (one_of "12")); Opt d; d]) a
  <-> digits a /\ (length a <= 3)%nat /\ plain_b a && (value a <? 300)%N = true.
Proof.
  apply (@lang_by_table _ (fun s => plain_b s && (value s <? 300)%N) 3);
    [chars_ok_digit | reflexivity | lia | vm_compute; reflexivity].
Qed.

Lemma lang_HUE_COMPONENT (s : jsstring) : lang HUE_COMPONENT s <-> hue s.
Proof.
  unfold HUE_COMPONENT. cbn [Alts fold_right lang].
  change (Seq [txt "360"; Opt (Seq [txt "."; Plus (txt "0")])])
    with (Seq ([txt "360"] ++ [Opt (Seq [txt "."; Plus (txt "0")])])).
  change (Seq [txt "3"; Class (in_range "0" "5"); d; Opt (Seq [txt "."; Plus d])])
    with (Seq ([txt "3"; Class (in_range "0" "5"); d] ++ [Opt (Seq [txt "."; Plus d])])).
  change (Seq [Opt (Class (one_of "12")); Opt d; d; Opt (Seq [txt "."; Plus d])])
    with (Seq ([Opt (Class (one_of "12")); Opt d; d] ++ [Opt (Seq [txt "."; Plus d])])).
  rewrite !lang_Seq_snoc. unfold hue. split.
  - intros [(a & b & -> & Ha & Hb) | [(a & b & -> & Ha & Hb) | [(a & b & -> & Ha & Hb) | []]]].
    + apply lang_Seq, sequence_one, lang_txt in Ha. red in Ha. subst a.
      apply lang_zero_fraction in Hb. destruct Hb as (fp & Z & ->).
      exists (lit "360"), fp. split; [reflexivity|].
      split; [apply plain_integer_b; repeat split; cbn; lia|].
      split; [apply zeros_digits, Z|].
      apply numeral_le_cases; [apply zeros_digits, Z|]. right. split; [reflexivity | exact Z].
    + apply lang_hue_upper in Ha. destruct Ha as (D & L & B).
      apply lang_fraction in Hb. destruct Hb as (fp & Df & ->).
      rewrite !andb_true_iff, N.leb_le, N.ltb_lt in B.
      exists a, fp. split; [reflexivity|].
      split; [apply plain_integer_b; tauto|]. split; [exact Df|].
      apply numeral_le_cases; [exact Df|]. left. tauto.
    + apply lang_hue_lower in Ha. destruct Ha as (D & L & B).
      apply lang_fraction in Hb. destruct Hb as (fp & Df & ->).
      rewrite !andb_true_iff, N.ltb_lt in B.
      exists a, fp. split; [reflexivity|].
      split; [apply plain_integer_b; tauto|]. split; [exact Df|].
      apply numeral_le_cases; [exact Df|]. left. lia.
  - intros (ip & fp & -> & P & Df & V).
    apply numeral_le_cases in V; [|exact Df]. destruct V as [V | [V Z]].
    + pose proof P as P'. apply plain_integer_b in P'. destruct P' as (D & L & B).
      destruct (N.ltb_spec (value ip) 300) as [Lo | Hi].
      * right. right. left. exists ip, (fraction_text fp). split; [reflexivity|]. split.
        -- apply lang_hue_lower. repeat split; auto.
           rewrite B. apply N.ltb_lt in Lo. rewrite Lo. reflexivity.
        -- apply lang_fraction. exists fp. auto.
      * right. left. exists ip, (fraction_text fp). split; [reflexivity|]. split.
        -- apply lang_hue_upper. repeat split; auto.
           rewrite B. apply N.leb_le in Hi. apply N.ltb_lt in V. rewrite Hi, V. reflexivity.
        -- apply lang_fraction. exists fp. auto.
    + left. rewrite (plain_360 P V). exists (lit "360"), (fraction_text fp).
      split; [reflexivity|]. split.
      * apply lang_Seq, sequence_one, lang_txt. reflexivity.
      * apply lang_zero_fraction. exists fp. auto.
Qed.

Lemma lang_percent_integer (a : jsstring) :
  lang (Alts [txt "100"; RepRange 1 1 (Class (in_range "0" "9"))]) a
  <-> digits a /\ (length a <= 3)%nat /\ plain_b a && (value a <=? 100)%N = true.
Proof.
  apply (@lang_by_table _ (fun s => plain_b s && (value s <=? 100)%N) 3);
    [chars_ok_digit | reflexivity | lia | vm_compute; reflexivity].
Qed.

Lemma lang_HSL_PERCENT (s : jsstring) : lang HSL_PERCENT s <-> percent_below_101 s.
Proof.
  unfold HSL_PERCENT. rewrite lang_Seq. cbn [map sequence].
  unfold percent_below_101, percentage. split.
  - intros (a & b & -> & Ha & (c & e & -> & Hc & (g & h & -> & Hg & ->))).
    apply lang_percent_integer in Ha. destruct Ha as (D & L & B).
    apply lang_fraction in Hc. destruct Hc as (fp & Df & ->).
    apply lang_txt in Hg. red in Hg. subst g.
    rewrite andb_true_iff, N.leb_le in B.
    exists a, fp. rewrite app_nil_r. unfold numeral_text. rewrite <- app_assoc.
    split; [reflexivity|]. split; [apply plain_integer_b; tauto|]. split; [exact Df|].
    apply numeral_lt_cases; [exact Df | lia].
  - intros (ip & fp & -> & P & Df & V). apply numeral_lt_cases in V; [|exact Df].
    apply plain_integer_b in P. destruct P as (D & L & B).
    exists ip, (fraction_text fp ++ lit "%"). unfold numeral_text. rewrite <- app_assoc.
    split; [reflexivity|]. split.
    + apply lang_percent_integer. repeat split; auto.
      rewrite B. assert (E : (value ip <=? 100)%N = true) by (apply N.leb_le; lia).
      rewrite E. reflexivity.
    + exists (fraction_text fp), (lit "%"). split; [reflexivity|]. split.
      * apply lang_fraction. exists fp. auto.
      * exists (lit "%"), []. repeat split. apply lang_txt. reflexivity.
Qed.

Lemma percent_in_range_below (s : jsstring) : percent_in_range s -> percent_below_101 s.
Proof.
  intros (ip & fp & E & P & Df & V). exists ip, fp.
  split; [exact E|]. split; [exact P|]. split; [exact Df|].
  apply (numeral_le_cases ip 100 Df) in V. apply numeral_lt_cases; [exact Df|].
  destruct V as [V | [V _]]; lia.
Qed.

Lemma lang_HEX_COLOR_PATTERN (s : jsstring) : lang HEX_COLOR_PATTERN s <-> hex_color s.
Proof.
  unfold HEX_COLOR_PATTERN, hex_color. cbn [Alts fold_right lang]. split.
  - intros (a & b & -> & Ha & H). apply lang_txt in Ha. red in Ha. subst a.
    rewrite !lang_Rep_Class in H.
    exists b. split; [reflexivity|]. tauto.
  - intros (ds & -> & F & L). exists (lit "#"), ds. split; [reflexivity|].
    split; [apply lang_txt; reflexivity|]. rewrite !lang_Rep_Class. tauto.
Qed.

(** *** The three color patterns *)

Lemma sequence_iff (ps qs : list Lang) :
  Forall2 (fun p q : Lang => forall s, p s <-> q s) ps qs ->
  forall s, sequence ps s <-> sequence qs s.
Proof.
  intros F s. split; apply sequence_mono.
  - induction F as [|p q ps qs H F IH]; constructor; auto. intros z. apply H.
  - induction F as [|p q ps qs H F IH]; constructor; auto. intros z. apply H.
Qed.

Lemma lang_s_star (s : jsstring) : lang s_star s <-> whitespace s.
Proof. apply lang_Star_Class. Qed.

Lemma lang_optional_txt (t : string) (s : jsstring) :
  lang (Opt (txt t)) s <-> optional (exactly t) s.
Proof. rewrite lang_Opt, lang_txt. reflexivity. Qed.

Lemma lang_alpha_part (s : jsstring) :
  lang (Opt (Seq [s_star; txt ","; s_star; ALPHA_VALUE])) s <-> alpha_part s.
Proof.
  rewrite lang_Opt, lang_Seq. unfold alpha_part, optional. cbn [map].
  rewrite (@sequence_iff _ [whitespace; exactly ","; whitespace; alpha]); [reflexivity|].
  repeat (apply Forall2_cons;
          [intros x; first [apply lang_s_star | apply lang_txt | apply lang_ALPHA_VALUE]|]).
  apply Forall2_nil.
Qed.

Ltac color_piece :=
  let x := fresh "x" in
  intros x;
  first [ apply lang_s_star | apply lang_txt | apply lang_optional_txt
        | apply lang_RGB_NUMBER | apply lang_HUE_COMPONENT | apply lang_HSL_PERCENT
        | apply lang_alpha_part ].

Lemma lang_RGB_COLOR_PATTERN (s : jsstring) : lang RGB_COLOR_PATTERN s <-> rgb_color s.
Proof.
  unfold RGB_COLOR_PATTERN, rgb_color. rewrite lang_Seq. cbn [map].
  apply sequence_iff. repeat (apply Forall2_cons; [color_piece|]). apply Forall2_nil.
Qed.

Lemma lang_HSL_COLOR_PATTERN (s : jsstring) :
  lang HSL_COLOR_PATTERN s <-> hsl_color percent_below_101 s.
Proof.
  unfold HSL_COLOR_PATTERN, hsl_color. rewrite lang_Seq. cbn [map].
  apply sequence_iff. repeat (apply Forall2_cons; [color_piece|]). apply Forall2_nil.
Qed.

Lemma hsl_color_mono (p q : Lang) (s : jsstring) :
  (forall x, p x -> q x) -> hsl_color p s -> hsl_color q s.
Proof.
  intros I. unfold hsl_color. apply sequence_mono.
  repeat (apply Forall2_cons; [first [exact I | intros x H; exact H]|]). apply Forall2_nil.
Qed.

Lemma color_mono (p q : Lang) (s : jsstring) :
  (forall x, p x -> q x) -> color p s -> color q s.
Proof.
  intros I [H | [H | H]]; [left | right; left | right; right]; auto.
  revert H. apply hsl_color_mono, I.
Qed.

(** The three tests of [sanitizeColor] together accept the grammar with
    percentages below 101. *)
Lemma tests_accept (t : jsstring) :
  RegExp_test HEX_COLOR_PATTERN t || RegExp_test RGB_COLOR_PATTERN t
  || RegExp_test HSL_COLOR_PATTERN t = true
  <-> color percent_below_101 t.
Proof.
  rewrite !orb_true_iff, !RegExp_test_lang, lang_HEX_COLOR_PATTERN,
    lang_RGB_COLOR_PATTERN, lang_HSL_COLOR_PATTERN.
  unfold color. tauto.
Qed.

Lemma color_char_digit (c : N) : (48 <= c <= 57)%N -> color_char c = true.
Proof.
  intros H. apply digit_range in H. unfold digit in H.
  unfold color_char, hex_digit. rewrite H, !orb_true_r. reflexivity.
Qed.

Ltac class_color :=
  let c := fresh "c" in
  let H := fresh "H" in
  intros c H;
  first
    [ unfold color_char; rewrite H; reflexivity
    | unfold color_char; rewrite H; apply orb_true_r
    | apply N.eqb_eq in H; subst c; vm_compute; reflexivity
    | rewrite ?andb_true_iff, ?orb_true_iff, ?N.leb_le, ?N.eqb_eq in H;
      apply color_char_digit; lia ].

Lemma tests_chars (t : jsstring) :
  RegExp_test HEX_COLOR_PATTERN t || RegExp_test RGB_COLOR_PATTERN t
  || RegExp_test HSL_COLOR_PATTERN t = true ->
  forallb color_char t = true.
Proof.
  rewrite !orb_true_iff, !RegExp_test_lang. intros [[H | H] | H]; revert H;
    apply lang_chars; cbn -[N.eqb N.leb isWhiteSpace color_char]; repeat split; class_color.
Qed.

(** *** Trimming keeps what is not white space *)

Lemma trimStart_In (c : N) (s : jsstring) :
  In c s -> isWhiteSpace c = false -> In c (trimStart s).
Proof.
  intros I W. induction s as [|x s IH]; [contradiction|].
  cbn [trimStart]. destruct (isWhiteSpace x) eqn:E; [|exact I].
  destruct I as [-> | I]; [congruence | auto].
Qed.

Lemma trim_In (c : N) (s : jsstring) :
  In c s -> isWhiteSpace c = false -> In c (trim s).
Proof.
  intros I W. unfold trim, trimEnd. apply in_rev. rewrite rev_involutive.
  apply trimStart_In; [|exact W]. apply -> in_rev. apply trimStart_In; assumption.
Qed.

Lemma includes_first (s t : jsstring) (c : N) : includes s (c :: t) -> In c s.
Proof.
  intros (pre & post & ->). apply in_or_app. right. left. reflexivity.
Qed.

Lemma sanitizeColor_some (s fallback : jsstring) :
  sanitizeColor (Some s) fallback
  = if (50 <? length (trim s))%nat then fallback
    else if RegExp_test HEX_COLOR_PATTERN (trim s) || RegExp_test RGB_COLOR_PATTERN (trim s)
            || RegExp_test HSL_COLOR_PATTERN (trim s)
         then trim s
         else fallback.
Proof. destruct s; reflexivity. Qed.

(** C1 (amended). [sanitizeColor] returns the fallback when the input is
    absent or empty and when its trimmed length exceeds 50; it returns the
    trimmed input when that is at most 50 long and is a hex color ([#]
    and exactly 3, 6 or 8 hex digits), an rgb/rgba color (three integer
    channels in [0,255], optional alpha in [0,1]) or an hsl/hsla color
    (hue in [0,360], two percentages in [0,100], optional alpha), the
    numbers written as [ColorGrammar] spells out: integer parts of one to
    three digits, those of hue and percentages not zero-padded to three;
    it returns the fallback for every input whose trimmed form is outside
    these grammars read with percentages below 101, in particular for
    every input that contains a semicolon, [url(] or [expression(]. The
    white space the grammars allow around the components includes line
    breaks. The result is always the fallback or the trimmed input. *)
Theorem sanitizeColor_allow_list (input : option jsstring) (fallback : jsstring) :
  (input = None \/ input = Some [] -> sanitizeColor input fallback = fallback)
  /\ (forall s, input = Some s -> (50 < length (trim s))%nat ->
      sanitizeColor input fallback = fallback)
  /\ (forall s, input = Some s -> (length (trim s) <= 50)%nat ->
      color percent_in_range (trim s) ->
      sanitizeColor input fallback = trim s)
  /\ (forall s, input = Some s -> ~ color percent_below_101 (trim s) ->
      sanitizeColor input fallback = fallback)
  /\ (forall s, input = Some s ->
      In 59%N s \/ includes s (lit "url(") \/ includes s (lit "expression(") ->
      sanitizeColor input fallback = fallback)
  /\ (sanitizeColor input fallback = fallback
      \/ exists s, input = Some s /\ sanitizeColor input fallback = trim s).
Proof.
  split; [|split; [|split; [|split; [|split]]]].
  - intros [-> | ->]; reflexivity.
  - intros s -> L. rewrite sanitizeColor_some.
    apply Nat.ltb_lt in L. rewrite L. reflexivity.
  - intros s -> L C. rewrite sanitizeColor_some.
    assert (L' : (50 <? length (trim s))%nat = false) by (apply Nat.ltb_ge; exact L).
    rewrite L'. apply (@color_mono _ percent_below_101) in C; [|exact percent_in_range_below].
    apply tests_accept in C. rewrite C. reflexivity.
  - intros s -> C. rewrite sanitizeColor_some.
    destruct (50 <? length (trim s))%nat; [reflexivity|].
    destruct (RegExp_test HEX_COLOR_PATTERN (trim s) || RegExp_test RGB_COLOR_PATTERN (trim s)
              || RegExp_test HSL_COLOR_PATTERN (trim s)) eqn:T; [|reflexivity].
    exfalso. apply C, tests_accept, T.
  - intros s -> B. rewrite sanitizeColor_some.
    destruct (50 <? length (trim s))%nat; [reflexivity|].
    destruct (RegExp_test HEX_COLOR_PATTERN (trim s) || RegExp_test RGB_COLOR_PATTERN (trim s)
              || RegExp_test HSL_COLOR_PATTERN (trim s)) eqn:T; [|reflexivity].
    exfalso. apply tests_chars in T. rewrite forallb_forall in T.
    assert (K : exists c, In c s /\ color_char c = false /\ isWhiteSpace c = false).
    { destruct B as [B | [B | B]].
      - exists 59%N. auto.
      - exists 117%N. split; [exact (includes_first B) | auto].
      - exists 120%N. split; [|auto].
        destruct B as (pre & post & ->). apply in_or_app. right. right. left. reflexivity. }
    destruct K as (c & I & K & W). apply (trim_In _ _ I) in W.
    rewrite (T c W) in K. discriminate.
  - destruct input as [s|]; [|left; reflexivity]. rewrite sanitizeColor_some.
    destruct (50 <? length (trim s))%nat; [left; reflexivity|].
    destruct (_ || _); [right; exists s; auto | left; reflexivity].
Qed.

(** C1 as stated fails on line breaks: an input with a line feed inside
    [rgb(...)] is a color of the grammar and is returned, not replaced by
    the fallback. *)
Lemma sanitizeColor_accepts_newline :
  In 10%N (lit "rgb(0,\n0,0)")
  /\ sanitizeColor (Some (lit "rgb(0,\n0,0)")) (lit "#f3d898") = lit "rgb(0,\n0,0)"
  /\ sanitizeColor (Some (lit "rgb(0,\n0,0)")) (lit "#f3d898") <> lit "#f3d898".
Proof.
  split; [vm_compute; tauto|]. split; [vm_compute; reflexivity|].
  vm_compute. discriminate.
Qed.

Ltac take a := exists (lit a); eexists; split; [vm_compute; reflexivity|]; split.

Lemma hsl_sample_in_grammar : hsl_color percent_in_range (lit "hsl(200, 50%, 40.5%)").
Proof.
  unfold hsl_color. cbn [sequence].
  take "hsl"%string; [reflexivity|].
  take ""%string; [left; reflexivity|].
  take "("%string; [reflexivity|].
  take ""%string; [reflexivity|].
  take "200"%string.
  { exists (lit "200"), []. repeat split; try discriminate; try (cbn; lia);
      vm_compute; discriminate. }
  take ""%string; [reflexivity|].
  take ","%string; [reflexivity|].
  take " "%string; [reflexivity|].
  take "50%"%string.
  { exists (lit "50"), []. repeat split; try discriminate; try (cbn; lia);
      vm_compute; discriminate. }
  take ""%string; [reflexivity|].
  take ","%string; [reflexivity|].
  take " "%string; [reflexivity|].
  take "40.5%"%string.
  { exists (lit "40"), (lit "5"). repeat split; try discriminate; try (cbn; lia);
      vm_compute; discriminate. }
  take ""%string; [left; reflexivity|].
  take ""%string; [reflexivity|].
  take ")"%string; [reflexivity|].
  reflexivity.
Qed.

Lemma rgba_sample_in_grammar :
  color percent_in_range (trim (lit " rgba(10, 20, 30, 0.5)  ")).
Proof.
  right. left. apply lang_RGB_COLOR_PATTERN, RegExp_test_lang. vm_compute. reflexivity.
Qed.

(** The amended statement at the examples of the specification. *)
Lemma sanitizeColor_allow_list_witness :
  sanitizeColor None (lit "#f3d898") = lit "#f3d898"
  /\ sanitizeColor (Some (lit "#11223344556677889900aabbccddeeff11223344556677889900"))
       (lit "#f3d898") = lit "#f3d898"
  /\ sanitizeColor (Some (lit " rgba(10, 20, 30, 0.5)  ")) (lit "#f3d898")
     = lit "rgba(10, 20, 30, 0.5)"
  /\ sanitizeColor (Some (lit "hsl(200, 50%, 40.5%)")) (lit "#f3d898")
     = lit "hsl(200, 50%, 40.5%)"
  /\ sanitizeColor (Some (lit "rgb(999,0,0)")) (lit "#f3d898") = lit "#f3d898"
  /\ sanitizeColor (Some (lit "red; background:url(x)")) (lit "#f3d898") = lit "#f3d898".
Proof.
  split; [|split; [|split; [|split; [|split]]]].
  - destruct (sanitizeColor_allow_list None (lit "#f3d898")) as (H & _).
    apply H. left. reflexivity.
  - destruct (sanitizeColor_allow_list
                (Some (lit "#11223344556677889900aabbccddeeff11223344556677889900"))
                (lit "#f3d898")) as (_ & H & _).
    apply (H _ eq_refl). apply Nat.ltb_lt. vm_compute. reflexivity.
  - destruct (sanitizeColor_allow_list (Some (lit " rgba(10, 20, 30, 0.5)  "))
                (lit "#f3d898")) as (_ & _ & H & _).
    apply (H _ eq_refl); [apply Nat.leb_le; vm_compute; reflexivity|].
    exact rgba_sample_in_grammar.
  - destruct (sanitizeColor_allow_list (Some (lit "hsl(200, 50%, 40.5%)"))
                (lit "#f3d898")) as (_ & _ & H & _).
    apply (H _ eq_refl); [apply Nat.leb_le; vm_compute; reflexivity|].
    right. right. exact hsl_sample_in_grammar.
  - destruct (sanitizeColor_allow_list (Some (lit "rgb(999,0,0)")) (lit "#f3d898"))
      as (_ & _ & _ & H & _).
    apply (H _ eq_refl). intros C. apply tests_accept in C. vm_compute in C. discriminate.
  - destruct (sanitizeColor_allow_list (Some (lit "red; background:url(x)")) (lit "#f3d898"))
      as (_ & _ & _ & _ & H & _).
    apply (H _ eq_refl). left. vm_compute. tauto.
Defined.

(** What the grammar leaves open: a percentage between 100 and 101 is
    outside [percent_in_range] and inside [percent_below_101]. *)
Example sanitize_percent_above_100 :
  sanitizeColor (Some (lit "hsl(0, 100.5%, 50%)")) (lit "#f3d898") = lit "hsl(0, 100.5%, 50%)"
  /\ sanitizeColor (Some (lit "hsl(0, 101%, 50%)")) (lit "#f3d898") = lit "#f3d898"
  /\ sanitizeColor (Some (lit "hsl(360.0, 100.0%, 0%, 1.0)")) (lit "#f3d898")
     = lit "hsl(360.0, 100.0%, 0%, 1.0)"
  /\ sanitizeColor (Some (lit "hsl(360.5, 100%, 0%)")) (lit "#f3d898") = lit "#f3d898".
Proof. vm_compute. repeat split. Qed.

(* ------------------------------------------------------------------ *)
(** ** The earlier revision *)

(** How the patterns want numbers written: a channel may be zero-padded
    to three digits, a hue or a percentage may not; a fourth digit, an
    upper-case function name and a dot without digits are refused; the
    zero before a fraction of alpha may be left out. *)
Example sanitize_numeral_forms :
  sanitizeColor (Some (lit "rgb(099,0,0)")) (lit "#f3d898") = lit "rgb(099,0,0)"
  /\ sanitizeColor (Some (lit "hsl(099, 50%, 50%)")) (lit "#f3d898") = lit "#f3d898"
  /\ sanitizeColor (Some (lit "hsl(99, 050%, 50%)")) (lit "#f3d898") = lit "#f3d898"
  /\ sanitizeColor (Some (lit "hsl(09, 05%, 5%)")) (lit "#f3d898") = lit "hsl(09, 05%, 5%)"
  /\ sanitizeColor (Some (lit "rgb(0255,0,0)")) (lit "#f3d898") = lit "#f3d898"
  /\ sanitizeColor (Some (lit "RGB(0,0,0)")) (lit "#f3d898") = lit "#f3d898"
  /\ sanitizeColor (Some (lit "hsl(360., 5%, 5%)")) (lit "#f3d898") = lit "#f3d898"
  /\ sanitizeColor (Some (lit "rgb(0,0,0,.5)")) (lit "#f3d898") = lit "rgb(0,0,0,.5)".
Proof. vm_compute. repeat split. Qed.

(** The earlier sanitizer tested the characters only, so it let through
    any short text made of letters, digits and a few signs; the earlier
    policy also granted [data:] images and inline style. *)
Example legacy_sanitizeColor_permissive :
  Legacy.sanitizeColor (Some (lit "url(x)")) (lit "#f3d898") = lit "url(x)"
  /\ Legacy.sanitizeColor (Some (lit "red")) (lit "#f3d898") = lit "red"
  /\ Legacy.sanitizeColor (Some (lit "rgb(999,0,0)")) (lit "#f3d898") = lit "rgb(999,0,0)"
  /\ Legacy.sanitizeColor (Some (lit "red; background:url(x)")) (lit "#f3d898") = lit "#f3d898".
Proof. vm_compute. repeat split. Qed.

Example legacy_policy_directives :
  csp_directives (Legacy.policy (lit "https://host.test") (lit "abc"))
  = [[lit "default-src"; lit "'none'"];
     [lit "img-src"; lit "https://host.test"; lit "data:"];
     [lit "style-src"; lit "https://host.test"; lit "'nonce-abc'"; lit "'unsafe-inline'"];
     [lit "script-src"; lit "'nonce-abc'"]].
Proof. vm_compute. reflexivity. Qed.
(* ------------------------------------------------------------------ *)
(** * Further properties *)

(** ** The order of numbers *)

Lemma number_ge_le (a b : number) : ge a b = le b a.
Proof.
  unfold ge, le. rewrite (SFcompare_antisym b a).
  destruct (SFcompare b a) as [[]|]; reflexivity.
Qed.

Lemma number_lt_le (a b : number) : lt a b = true -> le a b = true.
Proof.
  unfold lt, SFltb, le. destruct (SFcompare a b) as [[]|]; congruence.
Qed.

Lemma number_le_trans (a b c : number) : le a b = true -> le b c = true -> le a c = true.
Proof.
  unfold le.
  destruct a as [sa|sa| |sa ma ea], b as [sb|sb| |sb mb eb], c as [sc|sc| |sc mc ec];
    cbn [SFcompare]; try discriminate; try reflexivity;
    try (destruct sa; try discriminate; try reflexivity;
         destruct sb; try discriminate; try reflexivity;
         destruct sc; try discriminate; reflexivity);
    try (destruct sa, sb; try discriminate; try reflexivity;
         destruct sc; try discriminate; reflexivity);
    try (destruct sa, sc; try discriminate; try reflexivity;
         destruct sb; try discriminate; reflexivity);
    try (destruct sb, sc; try discriminate; try reflexivity;
         destruct sa; try discriminate; reflexivity).
  all: destruct sa, sb, sc; try discriminate; try reflexivity;
    change (Pos.compare_cont Eq ma mb) with (Pos.compare ma mb);
    change (Pos.compare_cont Eq mb mc) with (Pos.compare mb mc);
    change (Pos.compare_cont Eq ma mc) with (Pos.compare ma mc);
    destruct (Z.compare_spec ea eb), (Z.compare_spec eb ec), (Z.compare_spec ea ec);
    try discriminate; try reflexivity; try lia; subst;
    destruct (Pos.compare_spec ma mb), (Pos.compare_spec mb mc), (Pos.compare_spec ma mc);
    cbn [CompOpp]; try discriminate; try reflexivity; try lia.
Qed.

Lemma number_lt_not_ge (a b : number) : lt a b = true -> ge a b = false.
Proof.
  unfold lt, SFltb, ge. destruct (SFcompare a b) as [[]|]; congruence.
Qed.

Lemma number_le_lt_trans (a b c : number) : le a b = true -> lt b c = true -> lt a c = true.
Proof.
  unfold lt, SFltb, le.
  destruct a as [sa|sa| |sa ma ea], b as [sb|sb| |sb mb eb], c as [sc|sc| |sc mc ec];
    cbn [SFcompare]; try discriminate; try reflexivity;
    try (destruct sa; try discriminate; try reflexivity;
         destruct sb; try discriminate; try reflexivity;
         destruct sc; try discriminate; reflexivity);
    try (destruct sa, sb; try discriminate; try reflexivity;
         destruct sc; try discriminate; reflexivity);
    try (destruct sa, sc; try discriminate; try reflexivity;
         destruct sb; try discriminate; reflexivity);
    try (destruct sb, sc; try discriminate; try reflexivity;
         destruct sa; try discriminate; reflexivity).
  all: destruct sa, sb, sc; try discriminate; try reflexivity;
    change (Pos.compare_cont Eq ma mb) with (Pos.compare ma mb);
    change (Pos.compare_cont Eq mb mc) with (Pos.compare mb mc);
    change (Pos.compare_cont Eq ma mc) with (Pos.compare ma mc);
    destruct (Z.compare_spec ea eb), (Z.compare_spec eb ec), (Z.compare_spec ea ec);
    try discriminate; try reflexivity; try lia; subst;
    destruct (Pos.compare_spec ma mb), (Pos.compare_spec mb mc), (Pos.compare_spec ma mc);
    cbn [CompOpp]; try discriminate; try reflexivity; try lia.
Qed.

(* ------------------------------------------------------------------ *)
(** ** PercentageClamp: composition *)

Lemma clamp_range (value : number) :
  Number_isFinite (_clampPercentage value) = true
  /\ le (of_Z 0) (_clampPercentage value) = true
  /\ le (_clampPercentage value) (of_Z 100) = true.
Proof.
  destruct value as [s|s| |s m e]; rewrite ?clamp_zero;
    try (repeat split; reflexivity).
  rewrite clamp_finite. destruct s; [repeat split; reflexivity|].
  destruct (lt (S754_finite false m e) (of_Z 100)) eqn:L;
    [|repeat split; reflexivity].
  split; [reflexivity|]. split; [reflexivity|]. apply number_lt_le, L.
Qed.

Lemma clamp_of_clamped (value : number) :
  _clampPercentage (_clampPercentage value) = _clampPercentage value.
Proof.
  destruct value as [s|s| |s m e]; rewrite ?clamp_zero; try reflexivity.
  rewrite clamp_finite. destruct s; [reflexivity|].
  destruct (lt (S754_finite false m e) (of_Z 100)) eqn:L; [|reflexivity].
  rewrite clamp_finite, L. reflexivity.
Qed.

Lemma clamp_le (a b : number) :
  Number_isFinite a = true -> Number_isFinite b = true -> le a b = true ->
  le (_clampPercentage a) (_clampPercentage b) = true.
Proof.
  intros A B L. destruct (clamp_range b) as (_ & B0 & _).
  destruct a as [sa|sa| |sa ma ea]; try discriminate; rewrite ?clamp_zero; [exact B0|].
  rewrite clamp_finite. destruct sa; [exact B0|].
  destruct b as [sb|sb| |sb mb eb]; try discriminate.
  destruct sb; [discriminate|]. rewrite clamp_finite.
  destruct (lt (S754_finite false ma ea) (of_Z 100)) eqn:LA,
           (lt (S754_finite false mb eb) (of_Z 100)) eqn:LB.
  - exact L.
  - apply number_lt_le, LA.
  - rewrite (number_le_lt_trans _ _ _ L LB) in LA. discriminate.
  - reflexivity.
Qed.

(** X1. Clamping is idempotent, and its fixed points are its values: a
    second pass returns a clamped value as it is, and the numbers that
    [_clampPercentage] returns unchanged are exactly the finite numbers
    from 0 to 100, of the two zeros only +0. *)
Theorem clampPercentage_idempotent (value : number) :
  _clampPercentage (_clampPercentage value) = _clampPercentage value
  /\ (_clampPercentage value = value
      <-> Number_isFinite value = true /\ le (of_Z 0) value = true
          /\ le value (of_Z 100) = true /\ value <> neg_zero).
Proof.
  split; [apply clamp_of_clamped|]. split.
  - intros E. destruct (clamp_range value) as (F & L0 & L100).
    rewrite E in F, L0, L100. repeat split; try assumption.
    intros ->. discriminate E.
  - intros (F & L0 & L100 & Z).
    destruct value as [s|s| |s m e]; try discriminate.
    + rewrite clamp_zero. destruct s; [exfalso; apply Z; reflexivity | reflexivity].
    + rewrite clamp_finite. destruct s; [discriminate|].
      unfold lt, SFltb. unfold le in L100.
      destruct (SFcompare (S754_finite false m e) (of_Z 100)) as [[]|] eqn:C;
        try discriminate; [|reflexivity].
      symmetry. apply compare_eq_100, C.
Qed.

Lemma clampPercentage_idempotent_witness :
  _clampPercentage (of_Z 100) = of_Z 100 /\ _clampPercentage neg_zero <> neg_zero.
Proof.
  destruct (clampPercentage_idempotent (of_Z 100)) as (_ & _ & H).
  destruct (clampPercentage_idempotent neg_zero) as (_ & K & _).
  split.
  - apply H. repeat split; try (vm_compute; reflexivity). discriminate.
  - intros E. apply K in E. destruct E as (_ & _ & _ & E). apply E. reflexivity.
Defined.

(** X2. On finite readings clamping keeps the order: a reading that is not
    above another is not above it after clamping either. The order is lost
    at [+Infinity], which is above every finite reading and is clamped to
    0, below the clamped 100. *)
Theorem clampPercentage_monotone (a b : number) :
  (Number_isFinite a = true -> Number_isFinite b = true -> le a b = true ->
   le (_clampPercentage a) (_clampPercentage b) = true)
  /\ (Number_isFinite a = true ->
      le a Infinity = true
      /\ (lt (of_Z 0) a = true ->
          lt (_clampPercentage Infinity) (_clampPercentage a) = true)).
Proof.
  split; [apply clamp_le|].
  intros A. split.
  - destruct a as [s|s| |s m e]; try discriminate; destruct s; reflexivity.
  - intros P. change (_clampPercentage Infinity) with (of_Z 0).
    destruct a as [s|s| |s m e]; try discriminate; try (destruct s; discriminate).
    rewrite clamp_finite. destruct s; [discriminate|].
    destruct (lt (S754_finite false m e) (of_Z 100)); [exact P | reflexivity].
Qed.

Lemma clampPercentage_monotone_witness :
  le (_clampPercentage (of_Z 40)) (_clampPercentage (of_Z 150)) = true
  /\ lt (_clampPercentage Infinity) (_clampPercentage (of_Z 150)) = true.
Proof.
  destruct (clampPercentage_monotone (of_Z 40) (of_Z 150)) as [H _].
  destruct (clampPercentage_monotone (of_Z 150) (of_Z 150)) as [_ K].
  split.
  - apply H; vm_compute; reflexivity.
  - apply K; vm_compute; reflexivity.
Defined.

(* ------------------------------------------------------------------ *)
(** ** ThresholdClassifier: order and thresholds out of range *)

Lemma severity_usage_class (config : Configuration) (p : number) :
  severity (_getUsageClass config p false)
  = if ge p (config_get (color_criticalThreshold config) (of_Z 90)) then 2%nat
    else if ge p (config_get (color_warningThreshold config) (of_Z 70)) then 1%nat
    else 0%nat.
Proof.
  unfold _getUsageClass.
  destruct (ge p (config_get (color_criticalThreshold config) (of_Z 90))); [reflexivity|].
  destruct (ge p (config_get (color_warningThreshold config) (of_Z 70))); reflexivity.
Qed.

Lemma severity_le (config : Configuration) (p p' : number) :
  le p p' = true ->
  (severity (_getUsageClass config p false) <= severity (_getUsageClass config p' false))%nat.
Proof.
  intros L. rewrite !severity_usage_class.
  set (critical := config_get (color_criticalThreshold config) (of_Z 90)).
  set (warning := config_get (color_warningThreshold config) (of_Z 70)).
  destruct (ge p critical) eqn:C.
  - rewrite number_ge_le in C. rewrite number_ge_le, (number_le_trans _ _ _ C L). lia.
  - destruct (ge p warning) eqn:W; [|lia].
    rewrite number_ge_le in W. rewrite (number_ge_le p' warning), (number_le_trans _ _ _ W L).
    destruct (ge p' critical); lia.
Qed.

(** X3. A higher usage never gets a lower tier: with the same settings,
    if [p <= p'] then the tier of [p'] is at least the tier of [p], in
    the order low, medium, high. This holds for every pair of thresholds,
    ordered or not, and carries over to the readings the renderer clamps
    first. *)
Theorem getUsageClass_monotone (config : Configuration) (p p' : number) :
  (le p p' = true ->
   (severity (_getUsageClass config p false)
    <= severity (_getUsageClass config p' false))%nat)
  /\ (Number_isFinite p = true -> Number_isFinite p' = true -> le p p' = true ->
      (severity (_getUsageClass config (_clampPercentage p) false)
       <= severity (_getUsageClass config (_clampPercentage p') false))%nat)
  /\ severity (lit "low") = 0%nat /\ severity (lit "medium") = 1%nat
  /\ severity (lit "high") = 2%nat.
Proof.
  split; [apply severity_le|]. split; [|repeat split].
  intros F F' L. apply severity_le. apply clamp_le; assumption.
Qed.

Lemma getUsageClass_monotone_witness :
  (severity (_getUsageClass no_settings (of_Z 75) false)
   <= severity (_getUsageClass no_settings (of_Z 95) false))%nat.
Proof.
  destruct (getUsageClass_monotone no_settings (of_Z 75) (of_Z 95)) as [H _].
  apply H. vm_compute. reflexivity.
Defined.

(** X4. Thresholds outside the range of a clamped reading switch tiers
    off or on for every window that is not outdated: a critical threshold
    at or below 0 makes every reading ['high'], NaN readings included
    (they are clamped to 0); a critical threshold above 100 leaves no
    reading ['high']; with both thresholds above 100, or both NaN, every
    reading is ['low']. *)
Theorem getUsageClass_thresholds_out_of_range (config : Configuration) (value : number) :
  let warning := config_get (color_warningThreshold config) (of_Z 70) in
  let critical := config_get (color_criticalThreshold config) (of_Z 90) in
  let class := _getUsageClass config (_clampPercentage value) false in
  (le critical (of_Z 0) = true -> class = lit "high")
  /\ (gt critical (of_Z 100) = true -> class <> lit "high")
  /\ (gt critical (of_Z 100) = true -> gt warning (of_Z 100) = true -> class = lit "low")
  /\ (is_nan critical = true -> is_nan warning = true -> class = lit "low").
Proof.
  intros warning critical class. unfold class, _getUsageClass.
  fold warning. fold critical.
  destruct (clamp_range value) as (_ & L0 & L100).
  set (p := _clampPercentage value) in *.
  assert (HI : forall t, gt t (of_Z 100) = true -> ge p t = false).
  { intros t G. apply number_lt_not_ge. exact (number_le_lt_trans _ _ _ L100 G). }
  split; [|split; [|split]].
  - intros C. rewrite number_ge_le, (number_le_trans _ _ _ C L0). reflexivity.
  - intros G. rewrite (HI _ G). destruct (ge p warning); discriminate.
  - intros G G'. rewrite (HI _ G), (HI _ G'). reflexivity.
  - intros C W. destruct critical; try discriminate. destruct warning; try discriminate.
    unfold ge. destruct p; reflexivity.
Qed.

Lemma getUsageClass_thresholds_out_of_range_witness :
  _getUsageClass (thresholds (of_Z 0) (of_Z 0)) (_clampPercentage NaN) false = lit "high"
  /\ _getUsageClass (thresholds (of_Z 150) (of_Z 200)) (_clampPercentage (of_Z 500)) false
     = lit "low"
  /\ _getUsageClass (thresholds NaN NaN) (_clampPercentage (of_Z 100)) false = lit "low".
Proof.
  destruct (getUsageClass_thresholds_out_of_range (thresholds (of_Z 0) (of_Z 0)) NaN)
    as (H1 & _).
  destruct (getUsageClass_thresholds_out_of_range (thresholds (of_Z 150) (of_Z 200)) (of_Z 500))
    as (_ & _ & H2 & _).
  destruct (getUsageClass_thresholds_out_of_range (thresholds NaN NaN) (of_Z 100))
    as (_ & _ & _ & H3).
  split; [apply H1; vm_compute; reflexivity|].
  split; [apply H2; vm_compute; reflexivity|].
  apply H3; reflexivity.
Defined.

(* ------------------------------------------------------------------ *)
(** ** HtmlEscaper: what the output can contain *)

Lemma startsWith_nil (t : jsstring) : startsWith t [] = true.
Proof. destruct t; reflexivity. Qed.

Lemma escaped_entity (c : N) (s : jsstring) :
  html_special c = true -> escaped s = true -> escaped (escape_char c ++ s) = true.
Proof.
  intros H E. apply html_special_cases in H.
  destruct H as [-> | [-> | [-> | [-> | ->]]]];
    cbn; rewrite startsWith_nil; cbn; exact E.
Qed.

Lemma escaped_escapeHtml (value : jsstring) : escaped (_escapeHtml value) = true.
Proof.
  induction value as [|c value IH]; [reflexivity|].
  rewrite escapeHtml_cons. destruct (html_special c) eqn:E.
  - apply escaped_entity; assumption.
  - cbn [app escaped]. rewrite E, IH.
    destruct (N.eqb_spec c 38) as [->|_]; [discriminate | reflexivity].
Qed.

Lemma escaped_In (s : jsstring) (c : N) :
  escaped s = true -> In c s -> c = 38%N \/ html_special c = false.
Proof.
  induction s as [|x s IH]; [contradiction|].
  cbn [escaped]. rewrite andb_true_iff. intros [H E] [-> | I]; [|auto].
  destruct (N.eqb_spec c 38); [auto|]. right. apply negb_true_iff, H.
Qed.

Lemma escaped_ampersand (pre post : jsstring) :
  escaped (pre ++ 38%N :: post) = true -> starts_entity post = true.
Proof.
  induction pre as [|x pre IH]; cbn [app escaped]; rewrite andb_true_iff; intros [H E].
  - exact H.
  - apply IH, E.
Qed.

Lemma escapeHtml_pieces (c c' : N) (a b : jsstring) :
  (if html_special c then escape_char c else [c]) ++ a
  = (if html_special c' then escape_char c' else [c']) ++ b ->
  c = c' /\ a = b.
Proof.
  destruct (html_special c) eqn:E, (html_special c') eqn:E'.
  - apply html_special_cases in E, E'.
    destruct E as [-> | [-> | [-> | [-> | ->]]]], E' as [-> | [-> | [-> | [-> | ->]]]];
      cbn; intros H; try discriminate; injection H as H; auto.
  - apply html_special_cases in E.
    destruct E as [-> | [-> | [-> | [-> | ->]]]]; cbn; intros H; injection H as H _;
      subst c'; discriminate.
  - apply html_special_cases in E'.
    destruct E' as [-> | [-> | [-> | [-> | ->]]]]; cbn; intros H; injection H as H _;
      subst c; discriminate.
  - cbn. intros H. injection H as -> ->. auto.
Qed.

Lemma escapeHtml_nonempty (c : N) (s : jsstring) : _escapeHtml (c :: s) <> [].
Proof.
  rewrite escapeHtml_cons. destruct (html_special c) eqn:E; [|discriminate].
  destruct (escape_char_special c E) as (rest & -> & _). discriminate.
Qed.

(** X5. Whatever the input, the output of [_escapeHtml] holds none of the
    characters [<], [>], double quote and apostrophe, and every [&] in it
    begins one of the entities [&amp;], [&lt;], [&gt;], [&quot;],
    [&#39;]. *)
Theorem escapeHtml_output (value : jsstring) :
  escaped (_escapeHtml value) = true
  /\ (forall c, In c (_escapeHtml value) ->
        c <> 60%N /\ c <> 62%N /\ c <> 34%N /\ c <> 39%N)
  /\ (forall pre post, _escapeHtml value = pre ++ 38%N :: post ->
        exists name rest,
          post = lit name ++ rest
          /\ In name ["amp;"; "lt;"; "gt;"; "quot;"; "#39;"]%string).
Proof.
  pose proof (escaped_escapeHtml value) as E.
  split; [exact E|]. split.
  - intros c I. destruct (escaped_In _ _ E I) as [-> | H];
      [repeat split; discriminate|].
    repeat split; intros ->; discriminate.
  - intros pre post H. rewrite H in E. apply escaped_ampersand in E.
    unfold starts_entity in E. apply existsb_exists in E.
    destruct E as (name & I & S). apply startsWith_prefix in S.
    destruct S as (rest & ->). exists name, rest. auto.
Qed.

(** X6. [_escapeHtml] loses nothing: two values with the same escaped
    text are the same value. *)
Theorem escapeHtml_injective (a b : jsstring) :
  _escapeHtml a = _escapeHtml b -> a = b.
Proof.
  revert b. induction a as [|c a IH]; intros [|c' b] H.
  - reflexivity.
  - symmetry in H. apply escapeHtml_nonempty in H. contradiction.
  - apply escapeHtml_nonempty in H. contradiction.
  - rewrite !escapeHtml_cons in H. apply escapeHtml_pieces in H.
    destruct H as [-> H]. f_equal. apply IH, H.
Qed.

Lemma escapeHtml_injective_witness : lit "a<b" = lit "a<b".
Proof. apply (escapeHtml_injective (lit "a<b") (lit "a<b")). reflexivity. Defined.

Lemma escapeHtml_output_witness :
  escaped (_escapeHtml (lit "<a href='x'>&</a>")) = true
  /\ ~ In 60%N (_escapeHtml (lit "<a href='x'>&</a>")).
Proof.
  destruct (escapeHtml_output (lit "<a href='x'>&</a>")) as (H & K & _).
  split; [exact H|]. intros I. apply K in I. destruct I as (I & _). apply I. reflexivity.
Defined.

(* ------------------------------------------------------------------ *)
(** ** NonceIssuer: the text of the nonce *)

(** X7. The nonce is the text of the drawn bytes in lower-case
    hexadecimal, two digits for each byte, so 32 characters when the
    random source hands out the 16 bytes asked for; and two draws give the
    same nonce only when they are the same bytes. *)
Theorem generateNonce_encoding (randomBytes randomBytes' : nat -> list byte) :
  length (_generateNonce randomBytes) = (2 * length (randomBytes 16%nat))%nat
  /\ Forall (fun c => (48 <= c <= 57)%N \/ (97 <= c <= 102)%N) (_generateNonce randomBytes)
  /\ (length (randomBytes 16%nat) = 16%nat -> length (_generateNonce randomBytes) = 32%nat)
  /\ (_generateNonce randomBytes = _generateNonce randomBytes' ->
      randomBytes 16%nat = randomBytes' 16%nat).
Proof.
  split; [apply Buffer_toString_hex_length|]. split; [apply generateNonce_chars|].
  split.
  - intros L. unfold _generateNonce. rewrite Buffer_toString_hex_length, L. reflexivity.
  - apply Buffer_toString_hex_inj.
Qed.

Lemma generateNonce_encoding_witness :
  length (_generateNonce (fun n => repeat x2a n)) = 32%nat
  /\ _generateNonce (fun n => repeat x2a n) = lit "2a2a2a2a2a2a2a2a2a2a2a2a2a2a2a2a".
Proof.
  destruct (generateNonce_encoding (fun n => repeat x2a n) (fun n => repeat x2a n))
    as (_ & _ & H & _).
  split; [apply H; reflexivity | vm_compute; reflexivity].
Defined.

(* ------------------------------------------------------------------ *)
(** ** ColorSanitizer: the accepted values *)

Lemma trimStart_fixed (s : jsstring) :
  match s with [] => True | c :: _ => isWhiteSpace c = false end -> trimStart s = s.
Proof. destruct s as [|c s]; [reflexivity|]. cbn [trimStart]. intros ->. reflexivity. Qed.

Lemma trimStart_head (s : jsstring) :
  match trimStart s with [] => True | c :: _ => isWhiteSpace c = false end.
Proof.
  induction s as [|c s IH]; [exact I|]. cbn [trimStart].
  destruct (isWhiteSpace c) eqn:E; [exact IH | exact E].
Qed.

Lemma trimStart_idempotent (s : jsstring) : trimStart (trimStart s) = trimStart s.
Proof. apply trimStart_fixed, trimStart_head. Qed.

Lemma trimStart_snoc (a : jsstring) (c : N) :
  isWhiteSpace c = false -> trimStart (a ++ [c]) = trimStart a ++ [c].
Proof.
  intros W. induction a as [|x a IH]; cbn [app trimStart]; [rewrite W; reflexivity|].
  destruct (isWhiteSpace x); [exact IH | reflexivity].
Qed.

Lemma trimEnd_cons (c : N) (r : jsstring) :
  isWhiteSpace c = false -> trimEnd (c :: r) = c :: trimEnd r.
Proof.
  intros W. unfold trimEnd. cbn [rev]. rewrite (@trimStart_snoc _ _ W), rev_app_distr.
  reflexivity.
Qed.

Lemma trim_head (s : jsstring) :
  match trim s with [] => True | c :: _ => isWhiteSpace c = false end.
Proof.
  unfold trim. pose proof (trimStart_head s) as H.
  destruct (trimStart s) as [|c r]; [exact I|]. rewrite (@trimEnd_cons _ _ H). exact H.
Qed.

Lemma trim_idempotent (s : jsstring) : trim (trim s) = trim s.
Proof.
  unfold trim at 1. rewrite (@trimStart_fixed _ (trim_head s)).
  unfold trim, trimEnd. rewrite rev_involutive, trimStart_idempotent. reflexivity.
Qed.

Lemma trim_last (s : jsstring) (c : N) (r : jsstring) :
  trim s = r ++ [c] -> isWhiteSpace c = false.
Proof.
  unfold trim, trimEnd. intros H.
  pose proof (trimStart_head (rev (trimStart s))) as T.
  apply (f_equal (@rev N)) in H. rewrite rev_involutive, rev_app_distr in H.
  cbn [rev app] in H. rewrite H in T. exact T.
Qed.

(** An accepted input: what [sanitizeColor] returns when it does not
    return the fallback. *)
Lemma sanitizeColor_accepted (input : option jsstring) (fallback : jsstring) :
  sanitizeColor input fallback <> fallback ->
  exists s, input = Some s /\ sanitizeColor input fallback = trim s
            /\ (length (trim s) <= 50)%nat
            /\ RegExp_test HEX_COLOR_PATTERN (trim s) || RegExp_test RGB_COLOR_PATTERN (trim s)
               || RegExp_test HSL_COLOR_PATTERN (trim s) = true.
Proof.
  destruct input as [s|]; [|intros H; exfalso; apply H; reflexivity].
  rewrite sanitizeColor_some. intros H. exists s.
  destruct (Nat.ltb_spec 50 (length (trim s))) as [L|L];
    [exfalso; apply H; reflexivity|].
  destruct (RegExp_test HEX_COLOR_PATTERN (trim s) || RegExp_test RGB_COLOR_PATTERN (trim s)
            || RegExp_test HSL_COLOR_PATTERN (trim s)) eqn:T;
    [|exfalso; apply H; reflexivity].
  repeat split; auto.
Qed.

(** X8. A value that [sanitizeColor] lets through (a result that is not
    the fallback) is at most 50 code units of hex digits, the letters and
    signs of [#rgbahsl(),.%] and white space, without white space at
    either end: it holds no semicolon, colon, brace, angle bracket, quote,
    slash, backslash, asterisk, exclamation mark, ampersand, equals sign
    or at sign. *)
Theorem sanitizeColor_accepted_alphabet (input : option jsstring) (fallback : jsstring) :
  sanitizeColor input fallback <> fallback ->
  let result := sanitizeColor input fallback in
  (length result <= 50)%nat
  /\ forallb color_char result = true
  /\ (forall c, In c (lit ";:{}<>\q'/\\*!&=@") -> ~ In c result)
  /\ trim result = result.
Proof.
  intros A result. destruct (@sanitizeColor_accepted input fallback A) as (s & -> & E & L & T).
  unfold result. rewrite E. pose proof (tests_chars _ T) as C.
  split; [exact L|]. split; [exact C|]. split; [|apply trim_idempotent].
  intros c F I. rewrite forallb_forall in C. apply C in I.
  assert (N : forallb (fun x => negb (color_char x)) (lit ";:{}<>\q'/\\*!&=@") = true)
    by (vm_compute; reflexivity).
  rewrite forallb_forall in N. apply N in F. rewrite I in F. discriminate.
Qed.

Lemma sanitizeColor_accepted_alphabet_witness :
  let result := sanitizeColor (Some (lit "  rgb(1, 2, 3) ")) (lit "#f3d898") in
  result = lit "rgb(1, 2, 3)" /\ (length result <= 50)%nat /\ ~ In 59%N result.
Proof.
  intros result.
  destruct (@sanitizeColor_accepted_alphabet (Some (lit "  rgb(1, 2, 3) ")) (lit "#f3d898"))
    as (H1 & _ & H3 & _).
  - vm_compute. discriminate.
  - split; [vm_compute; reflexivity|]. split; [exact H1|].
    apply H3. vm_compute. tauto.
Defined.

(** X9. An accepted value is a fixed point: sanitizing it again, with any
    fallback, returns it unchanged. *)
Theorem sanitizeColor_fixed_point (input : option jsstring) (fallback other : jsstring) :
  sanitizeColor input fallback <> fallback ->
  sanitizeColor (Some (sanitizeColor input fallback)) other = sanitizeColor input fallback.
Proof.
  intros A. destruct (@sanitizeColor_accepted input fallback A) as (s & -> & E & L & T).
  rewrite E, sanitizeColor_some, trim_idempotent, T.
  apply Nat.ltb_ge in L. rewrite L. reflexivity.
Qed.

Lemma sanitizeColor_fixed_point_witness :
  sanitizeColor (Some (sanitizeColor (Some (lit " #A1b2C3 ")) (lit "#f3d898"))) (lit "#eca7a7")
  = sanitizeColor (Some (lit " #A1b2C3 ")) (lit "#f3d898").
Proof.
  apply (@sanitizeColor_fixed_point (Some (lit " #A1b2C3 ")) (lit "#f3d898") (lit "#eca7a7")).
  vm_compute. discriminate.
Defined.

Lemma trimStart_incl (s : jsstring) (c : N) : In c (trimStart s) -> In c s.
Proof.
  induction s as [|x s IH]; [auto|]. cbn [trimStart].
  destruct (isWhiteSpace x); [right; auto | auto].
Qed.

Ltac peel_sequence H :=
  repeat match type of H with
         | sequence (_ :: _) _ =>
             let a := fresh "a" in
             let b := fresh "b" in
             let P := fresh "P" in
             destruct H as (a & b & -> & P & H)
         | sequence [] _ => cbn [sequence] in H; subst
         end.

Lemma functional_form (name : string) (pieces : list Lang) (s : jsstring) :
  sequence ([exactly name; optional (exactly "a"); exactly "("] ++ pieces ++ [exactly ")"]) s ->
  exists body,
    s = lit name ++ lit "(" ++ body ++ lit ")"
    \/ s = lit name ++ lit "a(" ++ body ++ lit ")".
Proof.
  intros H. apply sequence_app in H. destruct H as (head & tail & -> & H & T).
  apply sequence_app in T. destruct T as (body & close & -> & _ & T).
  peel_sequence H. peel_sequence T.
  red in P, P1, P2. subst. rewrite !app_nil_r.
  destruct P0 as [-> | ->]; exists body; [left | right];
    rewrite <- ?app_assoc; reflexivity.
Qed.

Lemma color_forms (percent : Lang) (s : jsstring) :
  color percent s ->
  exists body,
    s = lit "#" ++ body
    \/ s = lit "rgb(" ++ body ++ lit ")" \/ s = lit "rgba(" ++ body ++ lit ")"
    \/ s = lit "hsl(" ++ body ++ lit ")" \/ s = lit "hsla(" ++ body ++ lit ")".
Proof.
  intros [(ds & -> & _) | [H | H]].
  - exists ds. auto.
  - apply (@functional_form "rgb"
             [whitespace; channel; whitespace; exactly ","; whitespace; channel; whitespace;
              exactly ","; whitespace; channel; alpha_part; whitespace]) in H.
    destruct H as (body & [-> | ->]); exists body; auto.
  - apply (@functional_form "hsl"
             [whitespace; hue; whitespace; exactly ","; whitespace; percent; whitespace;
              exactly ","; whitespace; percent; alpha_part; whitespace]) in H.
    destruct H as (body & [-> | ->]); exists body; auto 6.
Qed.

(** X10. An accepted value is written [#...], [rgb(...)], [rgba(...)],
    [hsl(...)] or [hsla(...)], the function name in lower case. An input
    with neither [#] nor an opening parenthesis is therefore refused:
    color names and keywords such as [red] or [transparent] give the
    fallback. *)
Theorem sanitizeColor_accepted_forms (input : option jsstring) (fallback : jsstring) :
  (sanitizeColor input fallback <> fallback ->
   exists body,
     sanitizeColor input fallback = lit "#" ++ body
     \/ sanitizeColor input fallback = lit "rgb(" ++ body ++ lit ")"
     \/ sanitizeColor input fallback = lit "rgba(" ++ body ++ lit ")"
     \/ sanitizeColor input fallback = lit "hsl(" ++ body ++ lit ")"
     \/ sanitizeColor input fallback = lit "hsla(" ++ body ++ lit ")")
  /\ (forall s, input = Some s -> ~ In 35%N s -> ~ In 40%N s ->
      sanitizeColor input fallback = fallback).
Proof.
  assert (F : sanitizeColor input fallback <> fallback ->
              exists s body, input = Some s /\ sanitizeColor input fallback = trim s /\
                (trim s = lit "#" ++ body
                 \/ trim s = lit "rgb(" ++ body ++ lit ")"
                 \/ trim s = lit "rgba(" ++ body ++ lit ")"
                 \/ trim s = lit "hsl(" ++ body ++ lit ")"
                 \/ trim s = lit "hsla(" ++ body ++ lit ")")).
  { intros A. destruct (@sanitizeColor_accepted input fallback A) as (s & -> & E & L & T).
    apply tests_accept, color_forms in T. destruct T as (body & T).
    exists s, body. auto. }
  split.
  - intros A. destruct (F A) as (s & body & _ & -> & H). exists body. exact H.
  - intros s -> H35 H40.
    destruct (list_eq_dec N.eq_dec (sanitizeColor (Some s) fallback) fallback) as [E | A];
      [exact E|].
    exfalso. destruct (F A) as (s' & body & E & _ & H). injection E as <-.
    assert (I : In 35%N (trim s) \/ In 40%N (trim s)).
    { destruct H as [-> | [-> | [-> | [-> | ->]]]]; cbn; auto 7. }
    assert (K : forall c, In c (trim s) -> In c s).
    { intros c. unfold trim, trimEnd. rewrite <- in_rev.
      intros J. apply trimStart_incl in J. apply in_rev in J.
      apply trimStart_incl in J. exact J. }
    destruct I as [I | I]; apply K in I; contradiction.
Qed.

Lemma sanitizeColor_accepted_forms_witness :
  (exists body, sanitizeColor (Some (lit "hsla(120, 50%, 50%, .3)")) (lit "#f3d898")
                = lit "hsla(" ++ body ++ lit ")")
  /\ sanitizeColor (Some (lit "transparent")) (lit "#f3d898") = lit "#f3d898".
Proof.
  destruct (@sanitizeColor_accepted_forms (Some (lit "hsla(120, 50%, 50%, .3)")) (lit "#f3d898"))
    as [H _].
  destruct (@sanitizeColor_accepted_forms (Some (lit "transparent")) (lit "#f3d898"))
    as [_ K].
  split.
  - destruct H as (body & H); [vm_compute; discriminate|].
    exists (lit "120, 50%, 50%, .3"). vm_compute. reflexivity.
  - apply (K (lit "transparent") eq_refl); intros I; vm_compute in I;
      decompose [or] I; try discriminate; contradiction.
Defined.

(* ------------------------------------------------------------------ *)
(** ** ColorSanitizer: the two revisions *)

Lemma lang_RepUpTo_Class (p : N -> bool) (extra : nat) (s : jsstring) :
  lang (RepUpTo extra (Class p)) s <-> (length s <= extra)%nat /\ forallb p s = true.
Proof.
  revert s. induction extra as [|n IH]; intros s; cbn [RepUpTo].
  - cbn [lang]. split.
    + intros ->. auto.
    + intros [L _]. destruct s; [reflexivity | cbn in L; lia].
  - rewrite lang_Opt. cbn [lang]. split.
    + intros [-> | (a & b & -> & (c & -> & Hc) & H)]; [cbn; split; [lia | reflexivity]|].
      apply IH in H. destruct H as [L F]. cbn [app length forallb]. rewrite Hc, F.
      split; [lia | reflexivity].
    + intros [L F]. destruct s as [|c s]; [left; reflexivity|]. right.
      cbn [forallb] in F. apply andb_true_iff in F. cbn [length] in L.
      exists [c], s. repeat split; [exists c; tauto|]. apply IH. split; [lia | tauto].
Qed.

Lemma lang_SAFE_COLOR_PATTERN (s : jsstring) :
  lang Legacy.SAFE_COLOR_PATTERN s
  <-> (1 <= length s <= 50)%nat /\ forallb Legacy.safe_char s = true.
Proof.
  unfold Legacy.SAFE_COLOR_PATTERN, RepRange. cbn [lang]. split.
  - intros (a & b & -> & A & B). apply lang_Rep_Class in A. apply lang_RepUpTo_Class in B.
    destruct A as [LA FA], B as [LB FB]. rewrite length_app, forallb_app, FA, FB.
    split; [lia | reflexivity].
  - intros [L F]. exists (firstn 1 s), (skipn 1 s). rewrite firstn_skipn.
    rewrite <- (firstn_skipn 1 s), forallb_app in F. apply andb_true_iff in F.
    split; [reflexivity|]. split.
    + apply lang_Rep_Class. split; [rewrite firstn_length_le; lia | tauto].
    + apply lang_RepUpTo_Class. split; [rewrite length_skipn; lia | tauto].
Qed.

Lemma color_char_safe (c : N) : color_char c = true -> Legacy.safe_char c = true.
Proof.
  unfold color_char, Legacy.safe_char, hex_digit, one_of, in_range.
  cbn -[N.eqb N.leb isWhiteSpace].
  destruct (isWhiteSpace c); [rewrite !orb_true_r; reflexivity|].
  rewrite !orb_false_r, ?orb_true_iff, ?andb_true_iff, ?N.leb_le, ?N.eqb_eq.
  intros H.
  repeat match goal with
         | |- _ || _ = true => apply orb_true_iff
         end.
  rewrite ?orb_true_iff, ?andb_true_iff, ?N.leb_le, ?N.eqb_eq. lia.
Qed.

Lemma legacy_sanitizeColor_some (s fallback : jsstring) :
  s <> [] ->
  Legacy.sanitizeColor (Some s) fallback
  = if RegExp_test Legacy.SAFE_COLOR_PATTERN (trim s) then trim s else fallback.
Proof. destruct s; [contradiction | reflexivity]. Qed.

(** X11. The later revision of [sanitizeColor] only narrows the earlier
    one: whatever it lets through, the earlier revision let through as
    well, with the same result. The converse fails: the earlier revision
    returned [url(x)], [red] and [rgb(999,0,0)], which the later one
    replaces by the fallback. *)
Theorem sanitizeColor_narrows_earlier (input : option jsstring) (fallback : jsstring) :
  (sanitizeColor input fallback <> fallback ->
   Legacy.sanitizeColor input fallback = sanitizeColor input fallback)
  /\ Forall (fun s => Legacy.sanitizeColor (Some s) (lit "#f3d898") = s
                      /\ sanitizeColor (Some s) (lit "#f3d898") = lit "#f3d898")
       [lit "url(x)"; lit "red"; lit "rgb(999,0,0)"].
Proof.
  split.
  - intros A. destruct (@sanitizeColor_accepted input fallback A) as (s & -> & E & L & T).
    rewrite E. pose proof (tests_chars _ T) as C.
    assert (N : s <> []) by (intros ->; discriminate T).
    assert (N' : trim s <> []) by (intros Z; rewrite Z in T; discriminate T).
    rewrite (@legacy_sanitizeColor_some s fallback N).
    assert (M : RegExp_test Legacy.SAFE_COLOR_PATTERN (trim s) = true).
    { apply RegExp_test_lang, lang_SAFE_COLOR_PATTERN. split.
      - destruct (trim s); [contradiction | cbn [length] in *; lia].
      - rewrite forallb_forall in *. intros c I. apply color_char_safe, C, I. }
    rewrite M. reflexivity.
  - repeat constructor; vm_compute; reflexivity.
Qed.

Lemma sanitizeColor_narrows_earlier_witness :
  Legacy.sanitizeColor (Some (lit " #fff ")) (lit "#f3d898") = lit "#fff"
  /\ Legacy.sanitizeColor (Some (lit "red")) (lit "#f3d898") = lit "red"
  /\ sanitizeColor (Some (lit "red")) (lit "#f3d898") = lit "#f3d898".
Proof.
  destruct (@sanitizeColor_narrows_earlier (Some (lit " #fff ")) (lit "#f3d898")) as [H K].
  split.
  - rewrite H; vm_compute; [reflexivity | discriminate].
  - apply Forall_inv_tail, Forall_inv in K. exact K.
Defined.

(* ------------------------------------------------------------------ *)
(** ** Renderer: the progress section *)

Lemma lit_empty : lit "" = [].
Proof. reflexivity. Qed.

Lemma includes_refl_app (pre s post : jsstring) : includes (pre ++ s ++ post) s.
Proof. exists pre, post. reflexivity. Qed.

(** A needle with two pieces that are not constant, between constant
    texts of the markup. *)
Lemma includes_between2 (before after opening closing m1 mid m2 rest : jsstring) :
  endsWith before opening = true -> startsWith after closing = true ->
  includes (before ++ m1 ++ mid ++ m2 ++ after ++ rest)
           (opening ++ m1 ++ mid ++ m2 ++ closing).
Proof.
  intros B A. apply endsWith_at_suffix in B. destruct B as (pre & ->).
  apply startsWith_prefix in A. destruct A as (post & ->).
  exists pre, (post ++ rest). rewrite <- !app_assoc. reflexivity.
Qed.

Lemma includes_between2_end (before after opening closing m1 mid m2 : jsstring) :
  endsWith before opening = true -> startsWith after closing = true ->
  includes (before ++ m1 ++ mid ++ m2 ++ after)
           (opening ++ m1 ++ mid ++ m2 ++ closing).
Proof.
  intros B A. rewrite <- (app_nil_r after). apply includes_between2; assumption.
Qed.

Lemma includes_bar_here (kind id : string) (class text before mid after rest : jsstring) :
  endsWith before (lit "<div class=\qprogress-fill " ++ lit kind ++ lit " ") = true ->
  mid = lit "\q id=\q" ++ lit id ++ lit "\q></div>
              </div>
              <div class=\qprogress-percentage\q>" ->
  startsWith after (lit "</div>") = true ->
  includes (before ++ class ++ mid ++ text ++ after ++ rest) (bar kind class id text).
Proof.
  intros B -> A. unfold bar.
  replace (lit "<div class=\qprogress-fill " ++ lit kind ++ lit " " ++ class
           ++ lit "\q id=\q" ++ lit id ++ lit "\q></div>
              </div>
              <div class=\qprogress-percentage\q>" ++ text ++ lit "</div>")
    with ((lit "<div class=\qprogress-fill " ++ lit kind ++ lit " ") ++ class
          ++ (lit "\q id=\q" ++ lit id ++ lit "\q></div>
              </div>
              <div class=\qprogress-percentage\q>") ++ text ++ lit "</div>")
    by (rewrite <- !app_assoc; reflexivity).
  apply includes_between2; assumption.
Qed.

Lemma includes_bar_end (kind id : string) (class text before mid after : jsstring) :
  endsWith before (lit "<div class=\qprogress-fill " ++ lit kind ++ lit " ") = true ->
  mid = lit "\q id=\q" ++ lit id ++ lit "\q></div>
              </div>
              <div class=\qprogress-percentage\q>" ->
  startsWith after (lit "</div>") = true ->
  includes (before ++ class ++ mid ++ text ++ after) (bar kind class id text).
Proof.
  intros B M A. rewrite <- (app_nil_r after). apply includes_bar_here; assumption.
Qed.

Lemma includes_reset_here (resetTimeStr outdatedStr before after rest : jsstring) :
  endsWith before (lit "<div class=\qprogress-details\q>Reset: ") = true ->
  startsWith after (lit "</div>") = true ->
  includes (before ++ resetTimeStr ++ outdatedStr ++ after ++ rest)
           (reset_line resetTimeStr outdatedStr).
Proof.
  intros B A. unfold reset_line.
  apply endsWith_at_suffix in B. destruct B as (pre & ->).
  apply startsWith_prefix in A. destruct A as (post & ->).
  exists pre, (post ++ rest). rewrite <- !app_assoc. reflexivity.
Qed.

(** Finding a bar or a reset line in a markup that is a chain of
    pieces. *)
Ltac find_piece :=
  match goal with
  | |- includes (?before ++ ?c ++ ?mid ++ ?t ++ ?after ++ ?rest) (bar ?kind ?class ?id ?text) =>
      constr_eq c class; constr_eq t text;
      apply (@includes_bar_here kind id class text before mid after rest);
      vm_compute; reflexivity
  | |- includes (?before ++ ?c ++ ?mid ++ ?t ++ ?after) (bar ?kind ?class ?id ?text) =>
      constr_eq c class; constr_eq t text;
      apply (@includes_bar_end kind id class text before mid after);
      vm_compute; reflexivity
  | |- includes (?before ++ ?r ++ ?o ++ ?after ++ ?rest) (reset_line ?resetTimeStr ?outdatedStr) =>
      constr_eq r resetTimeStr; constr_eq o outdatedStr;
      apply (@includes_reset_here resetTimeStr outdatedStr before after rest);
      vm_compute; reflexivity
  | |- includes (_ ++ _) _ => apply includes_app_r; find_piece
  end.

Ltac find_in_markup := first [ find_piece | apply includes_app_l; find_piece ].

Section SectionProperties.

Variables TokenUsage Date : Type.
Variable Date_toLocaleString : Date -> jsstring.
Variable shortest_decimal : number -> jsstring.

Local Notation "'render'" :=
  (@_renderProgressSection TokenUsage Date Date_toLocaleString shortest_decimal).
Local Notation "'fixed'" := (toFixed1 shortest_decimal).
Local Notation "'text_of'" := (Number_toString shortest_decimal).

Lemma render_split (config : Configuration) (data : RateLimitData TokenUsage Date)
    (rules : list jsstring) :
  fst (render config data rules)
  = fst (render config (with_secondary data None) [])
    ++ fst (render config (with_primary data None) [])
  /\ snd (render config data rules)
     = rules ++ snd (render config (with_secondary data None) [])
       ++ snd (render config (with_primary data None) []).
Proof.
  unfold _renderProgressSection, with_primary, with_secondary.
  cbn [primary secondary].
  destruct (primary data) as [p|], (secondary data) as [s|]; cbn [fst snd];
    rewrite ?lit_empty, ?app_nil_l, ?app_nil_r, <- ?app_assoc; split; reflexivity.
Qed.

Lemma render_rules_length (config : Configuration) (data : RateLimitData TokenUsage Date)
    (rules : list jsstring) :
  length (snd (render config data rules)) = (length rules + 2 * windows data)%nat.
Proof.
  unfold _renderProgressSection, windows.
  destruct (primary data) as [p|], (secondary data) as [s|]; cbn [fst snd];
    rewrite ?length_app; cbn [length]; lia.
Qed.

(** X12. The progress section is put together window by window: its
    markup is the markup of the primary window alone followed by that of
    the secondary window alone, and the width rules are pushed behind the
    rules the array already held, two for each window present, primary
    first. A snapshot without windows gives the empty markup and pushes
    nothing. *)
Theorem renderProgressSection_composes (config : Configuration)
    (data : RateLimitData TokenUsage Date) (rules : list jsstring) :
  fst (render config data rules)
  = fst (render config (with_secondary data None) [])
    ++ fst (render config (with_primary data None) [])
  /\ snd (render config data rules)
     = rules ++ snd (render config (with_secondary data None) [])
       ++ snd (render config (with_primary data None) [])
  /\ length (snd (render config data rules)) = (length rules + 2 * windows data)%nat
  /\ (primary data = None -> secondary data = None ->
      render config data rules = (lit "", rules)).
Proof.
  destruct (render_split config data rules) as [H1 H2].
  split; [exact H1|]. split; [exact H2|]. split; [apply render_rules_length|].
  intros P S. unfold _renderProgressSection. rewrite P, S. reflexivity.
Qed.

(** X13. A window that is not outdated is drawn from its clamped
    readings: the value cells show them with one decimal and a percent
    sign, the width rules carry them as numbers, the usage bar has the
    tier of the clamped usage and the time bar has no tier, and the reset
    line has no outdated mark. Clamping the readings beforehand changes
    neither the markup nor the rules. *)
Theorem renderProgressSection_live (config : Configuration)
    (data : RateLimitData TokenUsage Date) (w : UsageWindow Date) (rules : list jsstring) :
  outdated w = false ->
  let time := _clampPercentage (time_percent w) in
  let used := _clampPercentage (used_percent w) in
  (primary data = Some w ->
     includes (fst (render config data rules))
       (bar "time" (lit "") "primary-time-fill" (fixed time ++ lit "%"))
     /\ includes (fst (render config data rules))
          (bar "usage" (_getUsageClass config used false) "primary-usage-fill"
             (fixed used ++ lit "%"))
     /\ includes (fst (render config data rules))
          (reset_line (Date_toLocaleString (reset_time w)) (lit ""))
     /\ (exists rest,
          snd (render config data rules)
          = rules ++ [width_rule "primary-time-fill" (text_of time);
                      width_rule "primary-usage-fill" (text_of used)] ++ rest)
     /\ render config (with_primary data (Some (with_percents w time used))) rules
        = render config data rules)
  /\ (secondary data = Some w ->
     includes (fst (render config data rules))
       (bar "time" (lit "") "secondary-time-fill" (fixed time ++ lit "%"))
     /\ includes (fst (render config data rules))
          (bar "usage" (_getUsageClass config used false) "secondary-usage-fill"
             (fixed used ++ lit "%"))
     /\ includes (fst (render config data rules))
          (reset_line (Date_toLocaleString (reset_time w)) (lit ""))
     /\ (exists before,
          snd (render config data rules)
          = before ++ [width_rule "secondary-time-fill" (text_of time);
                       width_rule "secondary-usage-fill" (text_of used)])
     /\ render config (with_secondary data (Some (with_percents w time used))) rules
        = render config data rules)
  /\ fixed (_clampPercentage NaN) = lit "0.0"
  /\ text_of (_clampPercentage NaN) = lit "0"
  /\ fixed (_clampPercentage (of_Z 150)) = lit "100.0"
  /\ text_of (_clampPercentage (of_Z 150)) = lit "100".
Proof.
  intros O time used. split; [|split; [|repeat split; vm_compute; reflexivity]]; intros P.
  - split; [|split; [|split; [|split]]].
    + unfold _renderProgressSection. rewrite P, O.
      destruct (secondary data); cbn [fst _getProgressClass]; fold time;
        find_in_markup.
    + unfold _renderProgressSection. rewrite P, O.
      destruct (secondary data); cbn [fst _getProgressClass]; fold used;
        find_in_markup.
    + unfold _renderProgressSection. rewrite P, O.
      destruct (secondary data); cbn [fst _getProgressClass];
        find_in_markup.
    + unfold _renderProgressSection. rewrite P, O.
      destruct (secondary data); cbn [snd];
        match goal with
        | |- exists rest, (((?r ++ [_]) ++ [_]) ++ [?x]) ++ [?y] = _ => exists [x; y]
        | |- exists rest, (?r ++ [_]) ++ [_] = _ => exists []
        end;
        rewrite <- ?app_assoc; reflexivity.
    + unfold _renderProgressSection, with_primary, with_percents.
      cbn [primary secondary outdated reset_time time_percent used_percent].
      rewrite P, O. unfold time, used. rewrite !clamp_of_clamped. reflexivity.
  - split; [|split; [|split; [|split]]].
    + unfold _renderProgressSection. rewrite P, O.
      destruct (primary data); cbn [fst _getProgressClass]; fold time;
        find_in_markup.
    + unfold _renderProgressSection. rewrite P, O.
      destruct (primary data); cbn [fst _getProgressClass]; fold used;
        find_in_markup.
    + unfold _renderProgressSection. rewrite P, O.
      destruct (primary data); cbn [fst _getProgressClass];
        find_in_markup.
    + unfold _renderProgressSection. rewrite P, O.
      destruct (primary data); cbn [snd];
        match goal with
        | |- exists before, (?r ++ [_]) ++ [_] = _ => exists r
        end;
        rewrite <- ?app_assoc; reflexivity.
    + unfold _renderProgressSection, with_secondary, with_percents.
      cbn [primary secondary outdated reset_time time_percent used_percent].
      rewrite P, O. unfold time, used. rewrite !clamp_of_clamped. reflexivity.
Qed.

End SectionProperties.

Lemma renderProgressSection_composes_witness :
  _renderProgressSection (fun _ : unit => lit "soon") (fun _ => lit "?") no_settings
    (sample_data None None) [lit "kept"]
  = (lit "", [lit "kept"]).
Proof.
  destruct (@renderProgressSection_composes unit unit (fun _ => lit "soon") (fun _ => lit "?")
              no_settings (sample_data None None) [lit "kept"]) as (_ & _ & _ & H).
  apply H; reflexivity.
Defined.

Lemma renderProgressSection_live_witness :
  let data := sample_data (Some (sample_window false)) None in
  let render := _renderProgressSection (fun _ : unit => lit "soon") (fun _ => lit "?") no_settings in
  includes (fst (render data [])) (bar "time" (lit "") "primary-time-fill" (lit "55.0%"))
  /\ includes (fst (render data [])) (bar "usage" (lit "medium") "primary-usage-fill" (lit "80.0%"))
  /\ snd (render data [])
     = [lit "#primary-time-fill { width: 55%; }"; lit "#primary-usage-fill { width: 80%; }"].
Proof.
  intros data render.
  destruct (@renderProgressSection_live unit unit (fun _ => lit "soon") (fun _ => lit "?")
              no_settings data (sample_window false) [] eq_refl) as [H _].
  destruct (H eq_refl) as (H1 & H2 & _ & _ & _).
  split; [exact H1|]. split; [exact H2|]. vm_compute. reflexivity.
Defined.

(* ------------------------------------------------------------------ *)
(** ** Renderer: the two documents *)

Lemma includes_between_end (before after opening closing middle : jsstring) :
  endsWith before opening = true -> startsWith after closing = true ->
  includes (before ++ middle ++ after) (opening ++ middle ++ closing).
Proof.
  intros B A. rewrite <- (app_nil_r after). apply includes_between; assumption.
Qed.

(** Finding [opening ++ middle ++ closing] in a markup that is a chain of
    pieces, one of which is [middle]. *)
Ltac find_between :=
  match goal with
  | |- includes (?before ++ ?m ++ ?after ++ ?rest) (?opening ++ ?middle ++ ?closing) =>
      constr_eq m middle;
      apply (@includes_between before after opening closing middle rest);
      vm_compute; reflexivity
  | |- includes (?before ++ ?m ++ ?after) (?opening ++ ?middle ++ ?closing) =>
      constr_eq m middle;
      apply (@includes_between_end before after opening closing middle);
      vm_compute; reflexivity
  | |- includes (_ ++ _) _ => apply includes_app_r; find_between
  end.

Lemma includes_prefix (s post : jsstring) : includes (s ++ post) s.
Proof. exists [], post. reflexivity. Qed.

(** Finding a piece of a chain. *)
Ltac find_exact :=
  match goal with
  | |- includes (?s ++ _) ?needle => constr_eq s needle; apply includes_prefix
  | |- includes (_ ++ _) _ => apply includes_app_r; find_exact
  end.

Lemma tier_rule_pieces (tier : string) (color : jsstring) :
  tier_rule tier color
  = (lit ".progress-fill.usage." ++ lit tier ++ lit " {
          background-color: ") ++ color ++ lit " !important;
        }".
Proof. unfold tier_rule. rewrite <- !app_assoc. reflexivity. Qed.

Lemma getUsageClass_with_colors (config : Configuration) (w c : option jsstring)
    (percentage : number) (outdated : bool) :
  _getUsageClass (with_colors config w c) percentage outdated
  = _getUsageClass config percentage outdated.
Proof. reflexivity. Qed.

Lemma count_occ_escaped (value : jsstring) (c : N) :
  In c [60; 62; 34; 39]%N -> count_occ N.eq_dec (_escapeHtml value) c = 0%nat.
Proof.
  intros I. apply count_occ_not_In. intros J.
  destruct (escaped_In _ _ (escaped_escapeHtml value) J) as [-> | H].
  - cbn in I. intuition discriminate.
  - cbn in I. destruct I as [<- | [<- | [<- | [<- | []]]]]; discriminate.
Qed.

Section DocumentProperties.

Variables TokenUsage Date Uri : Type.
Variable formatTokenUsage : TokenUsage -> jsstring.
Variable Date_toLocaleString : Date -> jsstring.
Variable Uri_joinPath : Uri -> list jsstring -> Uri.
Variable asWebviewUri : Uri -> jsstring.
Variable shortest_decimal : number -> jsstring.

Local Notation "'render'" :=
  (@_renderProgressSection TokenUsage Date Date_toLocaleString shortest_decimal).
Local Notation "'getHtml'" :=
  (_getHtml formatTokenUsage Date_toLocaleString Uri_joinPath asWebviewUri shortest_decimal).
Local Notation "'getErrorHtml'" := (_getErrorHtml Uri_joinPath asWebviewUri).

Lemma render_with_colors (config : Configuration) (w c : option jsstring)
    (data : RateLimitData TokenUsage Date) (rules : list jsstring) :
  render (with_colors config w c) data rules = render config data rules.
Proof.
  unfold _renderProgressSection.
  destruct (primary data), (secondary data); rewrite ?getUsageClass_with_colors; reflexivity.
Qed.

Lemma getHtml_same_colors (this : RateLimitWebView Uri) (config : Configuration)
    (w c w' c' : option jsstring) (data : RateLimitData TokenUsage Date) :
  sanitizeColor (Some (config_get w (lit "#f3d898"))) (lit "#f3d898")
  = sanitizeColor (Some (config_get w' (lit "#f3d898"))) (lit "#f3d898") ->
  sanitizeColor (Some (config_get c (lit "#eca7a7"))) (lit "#eca7a7")
  = sanitizeColor (Some (config_get c' (lit "#eca7a7"))) (lit "#eca7a7") ->
  getHtml this (with_colors config w c) data = getHtml this (with_colors config w' c') data.
Proof.
  intros W C. unfold _getHtml. rewrite !render_with_colors.
  destruct (render config data []) as [progressSection widthRules].
  unfold with_colors. cbn [color_warningColor color_criticalColor]. cbv zeta.
  rewrite W, C. reflexivity.
Qed.

(** X14. The colors of the two tiers reach the style element only through
    [sanitizeColor]: the rule of ['medium'] holds the sanitized warning
    color and the rule of ['high'] the sanitized critical color, each
    with its own default as fallback. Two settings with the same
    sanitized colors give the same document, so a color that is refused,
    or empty, renders exactly as if it were unset. *)
Theorem getHtml_colors (this : RateLimitWebView Uri) (config : Configuration)
    (data : RateLimitData TokenUsage Date) :
  includes (getHtml this config data)
    (tier_rule "medium"
       (sanitizeColor (Some (config_get (color_warningColor config) (lit "#f3d898")))
          (lit "#f3d898")))
  /\ includes (getHtml this config data)
       (tier_rule "high"
          (sanitizeColor (Some (config_get (color_criticalColor config) (lit "#eca7a7")))
             (lit "#eca7a7")))
  /\ (forall w c w' c' : option jsstring,
        sanitizeColor (Some (config_get w (lit "#f3d898"))) (lit "#f3d898")
        = sanitizeColor (Some (config_get w' (lit "#f3d898"))) (lit "#f3d898") ->
        sanitizeColor (Some (config_get c (lit "#eca7a7"))) (lit "#eca7a7")
        = sanitizeColor (Some (config_get c' (lit "#eca7a7"))) (lit "#eca7a7") ->
        getHtml this (with_colors config w c) data
        = getHtml this (with_colors config w' c') data)
  /\ getHtml this (with_colors config (Some (lit "red; } body { display: none")) (Some (lit "")))
       data
     = getHtml this (with_colors config None None) data.
Proof.
  split; [|split; [|split]].
  - unfold _getHtml. rewrite tier_rule_pieces.
    destruct (render config data []) as [progressSection widthRules]. cbv zeta.
    find_between.
  - unfold _getHtml. rewrite tier_rule_pieces.
    destruct (render config data []) as [progressSection widthRules]. cbv zeta.
    find_between.
  - intros w c w' c'. apply getHtml_same_colors.
  - apply getHtml_same_colors; vm_compute; reflexivity.
Qed.

(** X15. The inline elements carry the nonce of the instance, the one the
    policy of the same document allows: the style element and the script
    element of the success document, and the script element of the error
    document. *)
Theorem inline_elements_carry_nonce (this : RateLimitWebView Uri) (config : Configuration)
    (data : RateLimitData TokenUsage Date) (errorMessage : jsstring) :
  includes (getHtml this config data) (lit "<style nonce=\q" ++ _nonce this ++ lit "\q>")
  /\ includes (getHtml this config data) (lit "<script nonce=\q" ++ _nonce this ++ lit "\q>")
  /\ includes (getErrorHtml this errorMessage)
       (lit "<script nonce=\q" ++ _nonce this ++ lit "\q>")
  /\ includes (getHtml this config data) (lit "'nonce-" ++ _nonce this ++ lit "';")
  /\ includes (getErrorHtml this errorMessage) (lit "'nonce-" ++ _nonce this ++ lit "';").
Proof.
  split; [|split; [|split; [|split]]].
  - unfold _getHtml. destruct (render config data []) as [progressSection widthRules].
    cbv zeta. find_between.
  - unfold _getHtml. destruct (render config data []) as [progressSection widthRules].
    cbv zeta. find_between.
  - unfold _getErrorHtml. cbv zeta. find_between.
  - unfold _getHtml. destruct (render config data []) as [progressSection widthRules].
    cbv zeta. apply includes_app_r, includes_app_l. cbn [join].
    apply includes_app_r, includes_app_r, includes_app_r, includes_app_r.
    rewrite <- !app_assoc. find_between.
  - unfold _getErrorHtml. cbv zeta. apply includes_app_r, includes_app_l. cbn [join].
    apply includes_app_r, includes_app_r, includes_app_r, includes_app_r.
    rewrite <- !app_assoc. find_between.
Qed.

(** X16. The success document holds the texts of its collaborators as they
    are returned, without escaping: the two token usage lines, the time of
    the snapshot, the address of the style sheet, the progress section and
    the width rules. *)
Theorem getHtml_embeds_texts (this : RateLimitWebView Uri) (config : Configuration)
    (data : RateLimitData TokenUsage Date) :
  includes (getHtml this config data)
    (lit "<strong>Total:</strong> " ++ formatTokenUsage (total_usage data) ++ lit "</div>")
  /\ includes (getHtml this config data)
       (lit "<strong>Last:</strong> " ++ formatTokenUsage (last_usage data) ++ lit "</div>")
  /\ includes (getHtml this config data)
       (lit "Last updated: " ++ Date_toLocaleString (current_time data) ++ lit "<br>")
  /\ includes (getHtml this config data)
       (lit "<link href=\q"
        ++ asWebviewUri (Uri_joinPath (_extensionUri this) [lit "media"; lit "styles.css"])
        ++ lit "\q rel=\qstylesheet\q>")
  /\ includes (getHtml this config data) (fst (render config data []))
  /\ includes (getHtml this config data) (join (lit "\n") (snd (render config data []))).
Proof.
  unfold _getHtml. destruct (render config data []) as [progressSection widthRules].
  cbv zeta. cbn [fst snd].
  split; [find_between|]. split; [find_between|]. split; [find_between|].
  split; [find_between|]. split.
  - find_exact.
  - find_exact.
Qed.

(** X17. The error document takes the message in escaped form, at one
    place: it is a text before, the escaped message, and a text after,
    neither of which depends on the message. So the message adds no [<],
    [>], double quote or apostrophe to the document. *)
Theorem getErrorHtml_message_inert (this : RateLimitWebView Uri) :
  exists before after,
    (forall errorMessage,
       getErrorHtml this errorMessage = before ++ _escapeHtml errorMessage ++ after)
    /\ (forall errorMessage c, In c [60; 62; 34; 39]%N ->
          count_occ N.eq_dec (getErrorHtml this errorMessage) c
          = count_occ N.eq_dec (before ++ after) c).
Proof.
  unfold _getErrorHtml. cbv zeta.
  match goal with
  | |- exists before after,
         (forall errorMessage, ?a ++ ?b ++ ?c ++ ?d ++ ?e ++ _ ++ ?rest = _) /\ _ =>
      exists (a ++ b ++ c ++ d ++ e), rest
  end.
  split.
  - intros errorMessage. rewrite <- !app_assoc. reflexivity.
  - intros errorMessage c I. rewrite <- !app_assoc, !count_occ_app.
    rewrite (@count_occ_escaped errorMessage c I). lia.
Qed.

End DocumentProperties.

Lemma getHtml_colors_witness :
  sample_getHtml sample_object
    (with_colors no_settings (Some (lit "javascript:alert(1)")) (Some (lit " #ABCDEF ")))
    (sample_data None None)
  = sample_getHtml sample_object (with_colors no_settings None (Some (lit "#ABCDEF")))
      (sample_data None None).
Proof.
  destruct (@getHtml_colors unit unit unit (fun _ => lit "0") (fun _ => lit "now")
              (fun u _ => u) (fun _ => sample_stylesheet) (fun _ => lit "?")
              sample_object no_settings (sample_data None None)) as (_ & _ & H & _).
  apply H; vm_compute; reflexivity.
Defined.

Lemma getErrorHtml_message_inert_witness :
  count_occ N.eq_dec (sample_getErrorHtml sample_object (lit "<img src=x onerror='a()'>")) 60%N
  = count_occ N.eq_dec (sample_getErrorHtml sample_object (lit "")) 60%N.
Proof.
  destruct (@getErrorHtml_message_inert unit (fun u _ => u) (fun _ => sample_stylesheet)
              sample_object) as (before & after & _ & H).
  unfold sample_getErrorHtml.
  rewrite (H (lit "<img src=x onerror='a()'>") 60%N), (H (lit "") 60%N);
    [reflexivity | left; reflexivity | left; reflexivity].
Defined.

(* ------------------------------------------------------------------ *)
(** ** PanelLifecycleManager: what an update touches *)

Section UpdateProperties.

Variables TokenUsage Date Uri : Type.
Variable formatTokenUsage : TokenUsage -> jsstring.
Variable Date_toLocaleString : Date -> jsstring.
Variable Uri_joinPath : Uri -> list jsstring -> Uri.
Variable asWebviewUri : Uri -> jsstring.
Variable shortest_decimal : number -> jsstring.

Local Notation "'update'" :=
  (_update formatTokenUsage Date_toLocaleString Uri_joinPath asWebviewUri shortest_decimal).
Local Notation "'getHtml'" :=
  (_getHtml formatTokenUsage Date_toLocaleString Uri_joinPath asWebviewUri shortest_decimal).
Local Notation "'getErrorHtml'" := (_getErrorHtml Uri_joinPath asWebviewUri).
Local Notation "'effect'" :=
  (update_effect formatTokenUsage Date_toLocaleString Uri_joinPath asWebviewUri
     shortest_decimal).

(** The documents read the nonce, the address of the extension and the
    source of the display surface, and nothing else of the instance. *)
Lemma getHtml_reads (a b : RateLimitWebView Uri) (config : Configuration)
    (data : RateLimitData TokenUsage Date) :
  _nonce a = _nonce b -> _extensionUri a = _extensionUri b ->
  webview_cspSource (_panel a) = webview_cspSource (_panel b) ->
  getHtml a config data = getHtml b config data.
Proof.
  intros E1 E2 E3. unfold _getHtml.
  destruct (_renderProgressSection Date_toLocaleString shortest_decimal config data [])
    as [progressSection widthRules].
  cbv zeta. rewrite E1, E2, E3. reflexivity.
Qed.

Lemma getErrorHtml_reads (a b : RateLimitWebView Uri) (errorMessage : jsstring) :
  _nonce a = _nonce b -> _extensionUri a = _extensionUri b ->
  webview_cspSource (_panel a) = webview_cspSource (_panel b) ->
  getErrorHtml a errorMessage = getErrorHtml b errorMessage.
Proof.
  intros E1 E2 E3. unfold _getErrorHtml. cbv zeta. rewrite E1, E2, E3. reflexivity.
Qed.

(** X18. An update writes the markup of its own display surface and the
    log, and nothing else: the singleton slot, the number of objects,
    every other object, and the nonce, extension address, disposal
    registry, content source and reveal history of the instance itself are
    as before. *)
Theorem update_frame (env : Env TokenUsage Date) (this : nat) (w : World Uri)
    (self : RateLimitWebView Uri) :
  nth_error (objects w) this = Some self ->
  let w' := snd (update env this w) in
  fst (update env this w) = Returned tt
  /\ currentPanel w' = currentPanel w
  /\ length (objects w') = length (objects w)
  /\ (forall other, other <> this -> nth_error (objects w') other = nth_error (objects w) other)
  /\ (exists self',
        nth_error (objects w') this = Some self'
        /\ _nonce self' = _nonce self
        /\ _extensionUri self' = _extensionUri self
        /\ _disposables self' = _disposables self
        /\ webview_cspSource (_panel self') = webview_cspSource (_panel self)
        /\ revealed (_panel self') = revealed (_panel self))
  /\ (exists entries, logged w' = logged w ++ entries /\ (length entries <= 1)%nat).
Proof.
  intros H w'. destruct (effect env this w H) as (E1 & E2 & E3 & E4 & E5 & _ & E7).
  repeat (split; [assumption|]).
  eexists. split; [exact E7|].
  destruct (getRateLimitData env) as [result|e]; [|cbn; lia].
  destruct (negb (found result)); [cbn; lia|]. destruct (data result); cbn; lia.
Qed.


(** The markup an update writes, read off the answer of the
    collaborator. *)
Lemma update_objects (env : Env TokenUsage Date) (this : nat) (w : World Uri)
    (self : RateLimitWebView Uri) :
  nth_error (objects w) this = Some self ->
  objects (snd (update env this w))
  = update_at this
      (with_html
         match getRateLimitData env with
         | Returned result =>
             if negb (found result)
             then getErrorHtml self (or_else (error result) (lit "No rate limit data found"))
             else match data result with
                  | None => getErrorHtml self (lit "Rate limit data is undefined")
                  | Some data => getHtml self (configuration env) data
                  end
         | Threw e => getErrorHtml self (caught_message e)
         end)
      (objects w).
Proof.
  intros H.
  unfold _update, update_with, update_try, update_catch, assign_webview_html, bind, deref,
    try_catch, await.
  rewrite H.
  destruct (getRateLimitData env) as [result | e].
  - destruct (found result); cbn [negb]; [destruct (data result)|]; reflexivity.
  - destruct e; reflexivity.
Qed.

Lemma update_at_twice {A : Type} (f g : A -> A) (l : list A) (i : nat) :
  (forall x, f (g x) = g x) -> update_at i f (update_at i g l) = update_at i g l.
Proof.
  intros I. revert i. induction l as [|x l IH]; intros [|i]; cbn [update_at];
    rewrite ?I, ?IH; reflexivity.
Qed.

(** X20. Rendering is idempotent over the answer of the collaborator: a
    second update with the same answer and settings leaves every object,
    the markup included, as the first update left it; only the log can
    grow. *)
Theorem update_twice (env : Env TokenUsage Date) (this : nat) (w : World Uri)
    (self : RateLimitWebView Uri) :
  nth_error (objects w) this = Some self ->
  let w1 := snd (update env this w) in
  let w2 := snd (update env this w1) in
  fst (update env this w1) = Returned tt
  /\ objects w2 = objects w1
  /\ currentPanel w2 = currentPanel w1
  /\ markup_of w2 this = markup_of w1 this
  /\ (length (logged w1) <= length (logged w2))%nat.
Proof.
  intros H w1 w2.
  destruct (effect env this w H)
    as (_ & _ & _ & _ & (self1 & N1 & A1 & A2 & _ & A4 & _) & _ & _).
  fold w1 in N1.
  destruct (effect env this w1 N1) as (R2 & C2 & _ & _ & _ & _ & G2).
  fold w2 in C2, G2.
  assert (O : objects w2 = objects w1).
  { unfold w2. rewrite (@update_objects env this w1 self1 N1).
    unfold w1 at 2. rewrite (@update_objects env this w self H).
    unfold w1. rewrite (@update_objects env this w self H).
    replace (match getRateLimitData env with
             | Returned result =>
                 if negb (found result)
                 then getErrorHtml self1 (or_else (error result) (lit "No rate limit data found"))
                 else match data result with
                      | None => getErrorHtml self1 (lit "Rate limit data is undefined")
                      | Some data => getHtml self1 (configuration env) data
                      end
             | Threw e => getErrorHtml self1 (caught_message e)
             end)
      with (match getRateLimitData env with
            | Returned result =>
                if negb (found result)
                then getErrorHtml self (or_else (error result) (lit "No rate limit data found"))
                else match data result with
                     | None => getErrorHtml self (lit "Rate limit data is undefined")
                     | Some data => getHtml self (configuration env) data
                     end
            | Threw e => getErrorHtml self (caught_message e)
            end).
    - apply update_at_twice. intros x. reflexivity.
    - destruct (getRateLimitData env) as [result|e].
      + destruct (negb (found result)); [symmetry; apply getErrorHtml_reads; assumption|].
        destruct (data result); symmetry;
          [apply getHtml_reads | apply getErrorHtml_reads]; assumption.
      + symmetry. apply getErrorHtml_reads; assumption. }
  split; [exact R2|]. split; [exact O|]. split; [exact C2|]. split.
  - unfold markup_of. rewrite O. reflexivity.
  - rewrite G2, length_app. lia.
Qed.

(** X21. Every text that reaches the error document through an update is
    escaped first: the message of a caught [Error] and the error text the
    collaborator reports stand in the paragraph of the document as
    [_escapeHtml] writes them. *)
Theorem update_escapes_message (env : Env TokenUsage Date) (this : nat) (w : World Uri)
    (self : RateLimitWebView Uri) (message : jsstring) :
  nth_error (objects w) this = Some self ->
  getRateLimitData env = Threw (ErrorObject message)
  \/ (exists result, getRateLimitData env = Returned result /\ found result = false
                     /\ error result = Some message /\ message <> []) ->
  exists markup,
    markup_of (snd (update env this w)) this = Some markup
    /\ markup = getErrorHtml self message
    /\ includes markup (lit "<p>" ++ _escapeHtml message ++ lit "</p>").
Proof.
  intros N C.
  destruct (effect env this w N) as (_ & _ & _ & _ & _ & E6 & _).
  exists (getErrorHtml self message).
  split; [|split; [reflexivity|]].
  - rewrite E6. destruct C as [-> | (result & -> & F & E & D)]; [reflexivity|].
    rewrite F, E. destruct message; [contradiction | reflexivity].
  - unfold _getErrorHtml. cbv zeta. find_between.
Qed.

End UpdateProperties.

Lemma update_frame_witness :
  let w' := snd (sample_update (sample_env (Threw OtherValue)) 0 sample_world) in
  currentPanel w' = Some 0%nat /\ length (objects w') = 1%nat.
Proof.
  intros w'.
  destruct (@update_frame unit unit unit (fun _ => lit "0") (fun _ => lit "now")
              (fun u _ => u) (fun _ => sample_stylesheet) (fun _ => lit "?")
              (sample_env (Threw OtherValue)) 0%nat sample_world sample_object eq_refl)
    as (_ & H1 & H2 & _).
  split; [exact H1 | exact H2].
Defined.


Lemma update_twice_witness :
  let env := sample_env (Returned {| found := true; data := Some (sample_data None None);
                                     error := None |}) in
  let w1 := snd (sample_update env 0 sample_world) in
  objects (snd (sample_update env 0 w1)) = objects w1.
Proof.
  intros env w1.
  destruct (@update_twice unit unit unit (fun _ => lit "0") (fun _ => lit "now")
              (fun u _ => u) (fun _ => sample_stylesheet) (fun _ => lit "?")
              env 0%nat sample_world sample_object eq_refl)
    as (_ & H & _).
  exact H.
Defined.

Lemma update_escapes_message_witness :
  exists markup,
    markup_of (snd (sample_update (sample_env (Threw (ErrorObject (lit "<script>"))))
                      0 sample_world)) 0 = Some markup
    /\ includes markup (lit "<p>&lt;script&gt;</p>").
Proof.
  destruct (@update_escapes_message unit unit unit (fun _ => lit "0") (fun _ => lit "now")
              (fun u _ => u) (fun _ => sample_stylesheet) (fun _ => lit "?")
              (sample_env (Threw (ErrorObject (lit "<script>")))) 0%nat sample_world
              sample_object (lit "<script>") eq_refl (or_introl eq_refl))
    as (markup & H1 & _ & H3).
  exists markup. split; [exact H1 | exact H3].
Defined.

(* ------------------------------------------------------------------ *)
(** ** PanelLifecycleManager: disposal *)

Section DisposeProperties.

Variable Uri : Type.

Local Notation "'released' self" :=
  {| _panel := _panel self; _extensionUri := _extensionUri self; _nonce := _nonce self;
     _disposables := @nil Disposable |} (at level 10).

Lemma dispose_loop_spec (this : nat) (stack : list Disposable) (h : Host Uri) :
  fst (dispose_loop this stack h) = Returned tt
  /\ host_calls (snd (dispose_loop this stack h))
     = host_calls h ++ map (HandleDispose this) stack
  /\ currentPanel (world (snd (dispose_loop this stack h))) = currentPanel (world h)
  /\ logged (world (snd (dispose_loop this stack h))) = logged (world h)
  /\ length (objects (world (snd (dispose_loop this stack h)))) = length (objects (world h))
  /\ (forall other, other <> this ->
        nth_error (objects (world (snd (dispose_loop this stack h)))) other
        = nth_error (objects (world h)) other)
  /\ (forall self : RateLimitWebView Uri,
        nth_error (objects (world h)) this = Some self ->
        nth_error (objects (world (snd (dispose_loop this stack h)))) this
        = Some {| _panel := _panel self; _extensionUri := _extensionUri self;
                  _nonce := _nonce self;
                  _disposables := match stack with
                                  | [] => _disposables self
                                  | _ :: _ => []
                                  end |}).
Proof.
  revert h. induction stack as [|x below IH]; intros h.
  - cbn [dispose_loop done fst snd map]. rewrite app_nil_r.
    repeat split; try reflexivity. intros self ->. destruct self; reflexivity.
  - cbn [dispose_loop]. unfold and_then, in_world, set_disposables, modify_object, host_call.
    cbn [fst snd world host_calls].
    match goal with
    | |- context [dispose_loop this below ?h1] =>
        destruct (IH h1) as (I1 & I2 & I3 & I4 & I5 & I6 & I7)
    end.
    cbn [world host_calls objects currentPanel logged] in *.
    split; [exact I1|]. split; [rewrite I2, <- app_assoc; reflexivity|].
    split; [exact I3|]. split; [exact I4|].
    split; [rewrite I5; apply length_update_at|]. split.
    + intros other D. rewrite (I6 other D), nth_error_update_at.
      destruct (Nat.eqb_spec this other); [congruence | reflexivity].
    + intros self N.
      rewrite (I7 {| _panel := _panel self; _extensionUri := _extensionUri self;
                     _nonce := _nonce self; _disposables := rev below |}).
      * cbn [_panel _extensionUri _nonce _disposables]. destruct below; reflexivity.
      * rewrite nth_error_update_at, Nat.eqb_refl, N. reflexivity.
Qed.

Lemma dispose_spec (on_panel_dispose : H Uri unit) (this : nat) (h h1 : Host Uri)
    (self : RateLimitWebView Uri) :
  on_panel_dispose
    {| world := {| objects := objects (world h); currentPanel := None;
                   logged := logged (world h);
                   pending := pending (world h) |};
       host_calls := host_calls h ++ [PanelDispose this] |}
  = (Returned tt, h1) ->
  nth_error (objects (world h1)) this = Some self ->
  dispose on_panel_dispose this h = dispose_loop this (rev (_disposables self)) h1.
Proof.
  intros P N. unfold dispose, and_then, in_world, write_currentPanel, host_call, deref.
  cbn [fst snd world host_calls]. rewrite P. destruct h1 as [w1 c1].
  cbn [fst snd world host_calls] in *. rewrite N. reflexivity.
Qed.

Lemma dispose_effect (this : nat) (h : Host Uri) (self : RateLimitWebView Uri) :
  nth_error (objects (world h)) this = Some self ->
  let h' := snd (dispose (@done Uri) this h) in
  fst (dispose (@done Uri) this h) = Returned tt
  /\ currentPanel (world h') = None
  /\ nth_error (objects (world h')) this = Some (released self)
  /\ (forall other, other <> this ->
        nth_error (objects (world h')) other = nth_error (objects (world h)) other)
  /\ length (objects (world h')) = length (objects (world h))
  /\ logged (world h') = logged (world h)
  /\ host_calls h'
     = host_calls h ++ PanelDispose this
                       :: map (HandleDispose this) (rev (_disposables self)).
Proof.
  intros N h'. unfold h'.
  rewrite (@dispose_spec (@done Uri) this h _ self eq_refl N).
  match goal with
  | |- context [dispose_loop this ?s ?h1] =>
      destruct (dispose_loop_spec this s h1) as (I1 & I2 & I3 & I4 & I5 & I6 & I7)
  end.
  cbn [world host_calls objects currentPanel logged] in *.
  split; [exact I1|]. split; [exact I3|]. split.
  { rewrite (I7 self N). destruct (rev (_disposables self)) eqn:R; [|reflexivity].
    apply (f_equal (@rev Disposable)) in R. rewrite rev_involutive in R. rewrite R.
    reflexivity. }
  split; [exact I6|]. split; [exact I5|]. split; [exact I4|].
  rewrite I2, <- app_assoc. reflexivity.
Qed.

(** X22. [dispose] empties the singleton slot, whatever it held, calls
    [dispose] on the panel, and then on every handle of the registry, the
    last registered first, each once; the registry is empty afterwards.
    Nothing else changes: the other fields of the instance, the other
    objects, the log. *)
Theorem dispose_releases (this : nat) (h : Host Uri) (self : RateLimitWebView Uri) :
  nth_error (objects (world h)) this = Some self ->
  let h' := snd (dispose (@done Uri) this h) in
  fst (dispose (@done Uri) this h) = Returned tt
  /\ currentPanel (world h') = None
  /\ nth_error (objects (world h')) this = Some (released self)
  /\ (forall other, other <> this ->
        nth_error (objects (world h')) other = nth_error (objects (world h)) other)
  /\ length (objects (world h')) = length (objects (world h))
  /\ logged (world h') = logged (world h)
  /\ host_calls h'
     = host_calls h ++ PanelDispose this
                       :: map (HandleDispose this) (rev (_disposables self))
  /\ (forall x, In (HandleDispose this x) (host_calls h')
                <-> In (HandleDispose this x) (host_calls h) \/ In x (_disposables self)).
Proof.
  intros N h'.
  destruct (@dispose_effect this h self N) as (E1 & E2 & E3 & E4 & E5 & E6 & E7).
  fold h' in E2, E3, E4, E5, E6, E7.
  repeat (split; [assumption|]).
  intros x. rewrite E7, in_app_iff. cbn [In]. rewrite in_map_iff. split.
  - intros [I | [I | (y & I & J)]]; [auto | discriminate|].
    injection I as ->. right. apply in_rev, J.
  - intros [I | I]; [auto|]. right. right. exists x. split; [reflexivity|].
    apply -> in_rev. exact I.
Qed.

Lemma dispose_loop_world (this : nat) (stack : list Disposable) (h1 h2 : Host Uri) :
  world h1 = world h2 ->
  world (snd (dispose_loop this stack h1)) = world (snd (dispose_loop this stack h2)).
Proof.
  revert h1 h2. induction stack as [|x below IH]; intros h1 h2 E; [exact E|].
  cbn [dispose_loop]. unfold and_then, in_world, set_disposables, modify_object, host_call.
  cbn [fst snd world host_calls]. apply IH. cbn [world]. rewrite E. reflexivity.
Qed.

Lemma dispose_done (this : nat) (h : Host Uri) (self : RateLimitWebView Uri) :
  nth_error (objects (world h)) this = Some self ->
  dispose (@done Uri) this h
  = dispose_loop this (rev (_disposables self))
      {| world := {| objects := objects (world h); currentPanel := None;
                     logged := logged (world h);
                     pending := pending (world h) |};
         host_calls := host_calls h ++ [PanelDispose this] |}.
Proof. intros N. apply (@dispose_spec (@done Uri) this h _ self eq_refl N). Qed.

Lemma dispose_loop_pending (this : nat) (stack : list Disposable) (h : Host Uri) :
  pending (world (snd (dispose_loop this stack h))) = pending (world h).
Proof.
  revert h. induction stack as [|x below IH]; intros h; [reflexivity|].
  cbn [dispose_loop]. unfold and_then, in_world, set_disposables, modify_object, host_call.
  cbn [fst snd world host_calls]. rewrite IH. reflexivity.
Qed.

(** [dispose] does not cancel a pending update. *)
Lemma dispose_pending (this : nat) (h : Host Uri) (self : RateLimitWebView Uri) :
  nth_error (objects (world h)) this = Some self ->
  pending (world (snd (dispose (@done Uri) this h))) = pending (world h).
Proof.
  intros N. rewrite (@dispose_done this h self N), dispose_loop_pending. reflexivity.
Qed.

Lemma world_eta (w : World Uri) :
  currentPanel w = None ->
  {| objects := objects w; currentPanel := None; logged := logged w; pending := pending w |}
  = w.
Proof. destruct w as [o c l p]. cbn. intros ->. reflexivity. Qed.

Lemma dispose_nested (this : nat) (h : Host Uri) (self : RateLimitWebView Uri) :
  nth_error (objects (world h)) this = Some self ->
  fst (dispose (onDidDispose this) this h) = Returned tt
  /\ world (snd (dispose (onDidDispose this) this h)) = world (snd (dispose (@done Uri) this h))
  /\ host_calls (snd (dispose (onDidDispose this) this h))
     = host_calls h ++ PanelDispose this :: PanelDispose this
                       :: map (HandleDispose this) (rev (_disposables self)).
Proof.
  intros N.
  set (h0 := {| world := {| objects := objects (world h); currentPanel := None;
                            logged := logged (world h);
                            pending := pending (world h) |};
                host_calls := host_calls h ++ [PanelDispose this] |}).
  assert (N0 : nth_error (objects (world h0)) this = Some self) by exact N.
  destruct (@dispose_effect this h0 self N0) as (B1 & B2 & B3 & _ & _ & _ & B7).
  set (h1 := snd (dispose (@done Uri) this h0)) in *.
  assert (P : onDidDispose this h0 = (Returned tt, h1)).
  { unfold onDidDispose, h1. rewrite <- B1. apply surjective_pairing. }
  assert (E : dispose (onDidDispose this) this h = (Returned tt, h1)).
  { rewrite (@dispose_spec (onDidDispose this) this h h1 _ P B3).
    cbn [_disposables rev dispose_loop]. reflexivity. }
  rewrite E. cbn [fst snd]. split; [reflexivity|]. split.
  - unfold h1. rewrite (@dispose_done this h0 self N0), (@dispose_done this h self N).
    apply dispose_loop_world. reflexivity.
  - rewrite B7. unfold h0. cbn [host_calls]. rewrite <- app_assoc. reflexivity.
Qed.

Lemma dispose_repeated (this : nat) (h : Host Uri) (self : RateLimitWebView Uri) :
  nth_error (objects (world h)) this = Some self ->
  dispose (@done Uri) this (snd (dispose (@done Uri) this h))
  = (Returned tt,
     {| world := world (snd (dispose (@done Uri) this h));
        host_calls := host_calls (snd (dispose (@done Uri) this h)) ++ [PanelDispose this] |}).
Proof.
  intros N. destruct (@dispose_effect this h self N) as (_ & A2 & A3 & _).
  rewrite (@dispose_done this _ _ A3). cbn [_disposables rev dispose_loop].
  rewrite (@world_eta _ A2). reflexivity.
Qed.

(** X23. Disposing twice is harmless. When the host runs the listener of
    [onDidDispose] inside [this._panel.dispose()], which calls [dispose]
    again, the outer call finds the registry empty: the world ends as
    after a single [dispose], each handle has been disposed of once, and
    only the panel has been asked twice. A second [dispose] after the
    first changes nothing but asks the panel once more. *)
Theorem dispose_again (this : nat) (h : Host Uri) (self : RateLimitWebView Uri) :
  nth_error (objects (world h)) this = Some self ->
  let once := snd (dispose (@done Uri) this h) in
  let nested := snd (dispose (onDidDispose this) this h) in
  let twice := snd (dispose (@done Uri) this once) in
  fst (dispose (onDidDispose this) this h) = Returned tt
  /\ world nested = world once
  /\ host_calls nested
     = host_calls h ++ PanelDispose this :: PanelDispose this
                       :: map (HandleDispose this) (rev (_disposables self))
  /\ fst (dispose (@done Uri) this once) = Returned tt
  /\ world twice = world once
  /\ host_calls twice = host_calls once ++ [PanelDispose this].
Proof.
  intros N once nested twice.
  destruct (@dispose_nested this h self N) as (A1 & A2 & A3).
  split; [exact A1|]. split; [exact A2|]. split; [exact A3|].
  unfold twice, once. rewrite (@dispose_repeated this h self N). repeat split.
Qed.

End DisposeProperties.

Lemma dispose_releases_witness :
  let h := {| world := snd (sample_createOrShow (sample_env (Threw OtherValue)) tt
                              (initial_world unit));
              host_calls := [] |} in
  let h' := snd (dispose (@done unit) 0 h) in
  currentPanel (world h') = None
  /\ host_calls h' = [PanelDispose 0; HandleDispose 0 DidReceiveMessageSubscription;
                      HandleDispose 0 DidDisposeSubscription].
Proof.
  intros h h'.
  assert (N : exists self, nth_error (objects (world h)) 0 = Some self
                           /\ _disposables self
                              = [DidDisposeSubscription; DidReceiveMessageSubscription]).
  { eexists. split; vm_compute; reflexivity. }
  destruct N as (self & N & R).
  destruct (@dispose_releases unit 0%nat h self N) as (_ & H1 & _ & _ & _ & _ & H2 & _).
  split; [exact H1|]. fold h' in H2. rewrite H2, R. reflexivity.
Defined.

Lemma dispose_again_witness :
  let h := {| world := sample_world; host_calls := [] |} in
  world (snd (dispose (onDidDispose 0) 0 h)) = world (snd (dispose (@done unit) 0 h)).
Proof.
  intros h.
  destruct (@dispose_again unit 0%nat h sample_object eq_refl) as (_ & H & _).
  exact H.
Defined.

(* ------------------------------------------------------------------ *)
(** ** PanelLifecycleManager: construction, revival and reopening *)

Section ReopenProperties.

Variables TokenUsage Date Uri : Type.
Variable formatTokenUsage : TokenUsage -> jsstring.
Variable Date_toLocaleString : Date -> jsstring.
Variable Uri_joinPath : Uri -> list jsstring -> Uri.
Variable asWebviewUri : Uri -> jsstring.
Variable shortest_decimal : number -> jsstring.
Variable disposed_error : thrown.

Local Notation "'update'" :=
  (_update formatTokenUsage Date_toLocaleString Uri_joinPath asWebviewUri shortest_decimal).
Local Notation "'resumed'" :=
  (resume formatTokenUsage Date_toLocaleString Uri_joinPath asWebviewUri shortest_decimal
     disposed_error).
Local Notation "'show'" := (@createOrShow TokenUsage Date Uri Uri_joinPath).
Local Notation "'construct'" := (@new_RateLimitWebView TokenUsage Date Uri).
Local Notation "'revived'" := (@revive TokenUsage Date Uri).
Local Notation "'getHtml'" :=
  (_getHtml formatTokenUsage Date_toLocaleString Uri_joinPath asWebviewUri shortest_decimal).
Local Notation "'getErrorHtml'" := (_getErrorHtml Uri_joinPath asWebviewUri).
Local Notation "'registrations'" := [DidDisposeSubscription; DidReceiveMessageSubscription].
Local Notation "'document' env self" :=
  match getRateLimitData env with
  | Returned result =>
      if negb (found result)
      then getErrorHtml self (or_else (error result) (lit "No rate limit data found"))
      else match data result with
           | None => getErrorHtml self (lit "Rate limit data is undefined")
           | Some data => getHtml self (configuration env) data
           end
  | Threw e => getErrorHtml self (caught_message e)
  end (at level 10, env at level 9, self at level 9).

(** The constructor: the object is appended to the store and given its
    two registrations. *)
Lemma construct_effect (env : Env TokenUsage Date) (panel : WebviewPanel Uri)
    (extensionUri : Uri) (w : World Uri) :
  let w' := snd (construct env panel extensionUri w) in
  fst (construct env panel extensionUri w) = Returned (length (objects w))
  /\ currentPanel w' = currentPanel w
  /\ length (objects w') = S (length (objects w))
  /\ (forall j, (j < length (objects w))%nat ->
        nth_error (objects w') j = nth_error (objects w) j)
  /\ (exists created,
        nth_error (objects w') (length (objects w)) = Some created
        /\ _nonce created = _generateNonce (randomBytes env)
        /\ _disposables created = registrations
        /\ _extensionUri created = extensionUri
        /\ _panel created = panel).
Proof.
  intros w'. unfold w'. rewrite construct_exact. cbn [fst snd objects currentPanel].
  split; [reflexivity|]. split; [reflexivity|].
  split; [rewrite length_app; cbn [length]; lia|]. split.
  - intros j J. apply nth_error_app1. exact J.
  - eexists. split; [apply nth_error_snoc|]. repeat split.
Qed.

Lemma revive_exact (env : Env TokenUsage Date) (panel : WebviewPanel Uri)
    (extensionUri : Uri) (w : World Uri) :
  revived env panel extensionUri w
  = (Returned tt,
     {| objects := objects w
                   ++ [{| _panel := panel; _extensionUri := extensionUri;
                          _nonce := _generateNonce (randomBytes env);
                          _disposables := registrations |}];
        currentPanel := Some (length (objects w));
        logged := logged w;
        pending := pending w ++ [length (objects w)] |}).
Proof.
  unfold revive, bind. rewrite construct_exact. reflexivity.
Qed.

Lemma existsb_last (this : nat) (l : list nat) :
  existsb (Nat.eqb this) (l ++ [this]) = true.
Proof.
  rewrite existsb_app. cbn [existsb]. rewrite Nat.eqb_refl, orb_true_r. reflexivity.
Qed.

(** A pending update of an instance whose panel is still there runs as
    [_update] does, on the world without that entry of the queue. *)
Lemma resume_open (env : Env TokenUsage Date) (this : nat) (h : Host Uri) :
  existsb (Nat.eqb this) (pending (world h)) = true ->
  panel_disposed h this = false ->
  resumed env this h
  = in_world (update env this)
      {| world := {| objects := objects (world h); currentPanel := currentPanel (world h);
                     logged := logged (world h);
                     pending := remove_first this (pending (world h)) |};
         host_calls := host_calls h |}.
Proof.
  intros P D. unfold resume. rewrite P.
  unfold and_then, in_world at 1, set_pending. cbn [fst snd world host_calls].
  unfold update_on_host, refusal, panel_disposed. cbn [host_calls].
  unfold panel_disposed in D. rewrite D. reflexivity.
Qed.

(** A pending update of an instance whose panel has been disposed of
    rejects with what the setter throws. *)
Lemma resume_closed (env : Env TokenUsage Date) (this : nat) (h : Host Uri)
    (self : RateLimitWebView Uri) :
  existsb (Nat.eqb this) (pending (world h)) = true ->
  panel_disposed h this = true ->
  nth_error (objects (world h)) this = Some self ->
  fst (resumed env this h) = Threw disposed_error
  /\ objects (world (snd (resumed env this h))) = objects (world h)
  /\ currentPanel (world (snd (resumed env this h))) = currentPanel (world h).
Proof.
  intros P D N. unfold resume. rewrite P.
  unfold and_then, update_on_host, refusal, panel_disposed, in_world, set_pending in *.
  cbn [fst snd world host_calls]. rewrite D.
  match goal with
  | |- context [update_with _ _ _ _ _ _ env this ?v] => set (w0 := v)
  end.
  assert (N0 : nth_error (objects w0) this = Some self) by exact N.
  rewrite (@update_refused TokenUsage Date Uri formatTokenUsage Date_toLocaleString Uri_joinPath
             asWebviewUri shortest_decimal env this w0 self disposed_error N0).
  cbn [fst snd world objects currentPanel]. repeat split; reflexivity.
Qed.

(** X24. [revive] always constructs: the instance made around the panel
    of the host is appended to the objects, with a nonce of its own (the
    text of the bytes drawn now, other than the nonce of any instance
    drawn from other bytes) and its two registrations, and stored in the
    singleton slot. Nothing is rendered or logged when [revive] returns:
    the panel is as the host handed it over and the first update is left
    pending. [revive] does not look at the slot first, so an instance the
    slot held stays among the objects as it was, live if it was, and is
    no longer reachable from the slot. *)
Theorem revive_replaces (env : Env TokenUsage Date) (panel : WebviewPanel Uri)
    (extensionUri : Uri) (w : World Uri) :
  let w' := snd (revived env panel extensionUri w) in
  let new := length (objects w) in
  fst (revived env panel extensionUri w) = Returned tt
  /\ currentPanel w' = Some new
  /\ length (objects w') = S new
  /\ (forall j, (j < new)%nat -> nth_error (objects w') j = nth_error (objects w) j)
  /\ live_instances w' = live_instances w ++ [new]
  /\ logged w' = logged w
  /\ pending w' = pending w ++ [new]
  /\ (exists created,
        nth_error (objects w') new = Some created
        /\ _panel created = panel
        /\ _extensionUri created = extensionUri
        /\ _disposables created = registrations
        /\ _nonce created = Buffer_toString_hex (randomBytes env 16%nat)
        /\ (forall i o (env0 : Env TokenUsage Date),
              nth_error (objects w) i = Some o ->
              _nonce o = _generateNonce (randomBytes env0) ->
              randomBytes env0 16%nat <> randomBytes env 16%nat ->
              _nonce o <> _nonce created)).
Proof.
  intros w' new. unfold w'. rewrite revive_exact.
  cbn [fst snd objects currentPanel logged pending].
  split; [reflexivity|]. split; [reflexivity|].
  split; [rewrite length_app; cbn [length]; fold new; lia|]. split.
  { intros j J. apply nth_error_app1. exact J. }
  split.
  { unfold live_instances. cbn [objects]. rewrite live_from_app.
    cbn [live_from is_live _disposables app Nat.add]. reflexivity. }
  split; [reflexivity|]. split; [reflexivity|].
  eexists. split; [apply nth_error_snoc|]. cbn [_panel _extensionUri _disposables _nonce].
  repeat (split; [reflexivity|]).
  intros i o env0 _ N D E. apply D. rewrite N in E.
  apply Buffer_toString_hex_inj in E. exact E.
Qed.

(** X25. Opening with the slot empty creates the panel [codexRateLimit]
    titled [Codex Rate Limit Details], with scripts enabled and local
    resources limited to the [media] folder of the extension, in the
    column of the active editor or, without one, in column One. When
    [createOrShow] returns nothing is rendered or logged yet: the markup
    of the panel is empty and the first update is pending. The document
    is written when that update resumes, on a panel that is still there:
    it is the document of the answer the collaborator gives then. *)
Theorem createOrShow_opens (env : Env TokenUsage Date) (extensionUri : Uri) (w : World Uri) :
  currentPanel w = None ->
  let new := length (objects w) in
  let w' := snd (show env extensionUri w) in
  exists created,
    objects w' = objects w ++ [created]
    /\ currentPanel w' = Some new
    /\ viewType (_panel created) = lit "codexRateLimit"
    /\ title (_panel created) = lit "Codex Rate Limit Details"
    /\ enableScripts (_panel created) = true
    /\ localResourceRoots (_panel created) = [Uri_joinPath extensionUri [lit "media"]]
    /\ showOptions (_panel created)
       = match activeTextEditor env with
         | Some (Some column) => column
         | _ => One
         end
    /\ revealed (_panel created) = []
    /\ webview_cspSource (_panel created) = host_cspSource env
    /\ webview_html (_panel created) = lit ""
    /\ logged w' = logged w
    /\ pending w' = pending w ++ [new]
    /\ (forall (calls : list HostCall) (env' : Env TokenUsage Date),
          let h' := {| world := w'; host_calls := calls |} in
          panel_disposed h' new = false ->
          fst (resumed env' new h') = Returned tt
          /\ markup_of (world (snd (resumed env' new h'))) new = Some (document env' created)
          /\ currentPanel (world (snd (resumed env' new h'))) = Some new
          /\ pending (world (snd (resumed env' new h')))
             = remove_first new (pending w ++ [new])).
Proof.
  intros S new w'.
  pose proof (createOrShow_empty Uri_joinPath env extensionUri w S) as E.
  match type of E with
  | _ = (_, {| objects := _ ++ [?c]; currentPanel := _; logged := _; pending := _ |}) =>
      set (created := c) in *
  end.
  assert (W : w' = {| objects := objects w ++ [created]; currentPanel := Some new;
                      logged := logged w; pending := pending w ++ [new] |})
    by (unfold w'; rewrite E; reflexivity).
  exists created. rewrite W. cbn [objects currentPanel logged pending].
  repeat (split; [reflexivity|]).
  intros calls env' D.
  match type of D with
  | panel_disposed ?v new = false => set (h' := v) in *
  end.
  assert (P : existsb (Nat.eqb new) (pending (world h')) = true).
  { unfold h'. cbn [world pending]. apply existsb_last. }
  rewrite (resume_open env' new h' P D). unfold in_world.
  cbn [fst snd world host_calls objects currentPanel logged pending].
  match goal with
  | |- context [update env' new ?v] => set (w0 := v)
  end.
  assert (N : nth_error (objects w0) new = Some created) by apply nth_error_snoc.
  destruct (update_effect formatTokenUsage Date_toLocaleString Uri_joinPath asWebviewUri
              shortest_decimal env' new w0 N) as (E1 & E2 & _ & _ & _ & E6 & _).
  split; [exact E1|]. split; [exact E6|]. split; [exact E2|].
  apply (update_pending formatTokenUsage Date_toLocaleString Uri_joinPath asWebviewUri
           shortest_decimal env' new w0).
Qed.

Lemma in_world_show (env : Env TokenUsage Date) (extensionUri : Uri) (h : Host Uri) :
  snd (in_world (show env extensionUri) h)
  = {| world := snd (show env extensionUri (world h)); host_calls := host_calls h |}.
Proof. reflexivity. Qed.

(** X26. Closing and opening again gives a new instance. From an empty
    slot: [createOrShow] stores an instance; when the panel is closed the
    host runs the dispose listener, which empties the slot and releases
    the two registrations, the message listener first; the next
    [createOrShow] constructs a second instance with registrations of its
    own and stores that one. Its nonce is the text of the bytes drawn at
    the second construction: it differs from the nonce of the first
    instance whenever the random source gives other bytes, and equals it
    only when the source repeats itself. The first instance stays among
    the objects with an empty registry, so the second is the only live
    instance when none was before. Closing does not cancel the update of
    the first instance: it is still pending, and rejects when it resumes,
    its panel being disposed of. *)
Theorem reopen_after_dispose (env1 env2 env3 : Env TokenUsage Date) (uri1 uri2 : Uri)
    (h : Host Uri) :
  currentPanel (world h) = None ->
  let first := length (objects (world h)) in
  let h1 := snd (in_world (show env1 uri1) h) in
  let h2 := snd (onDidDispose first h1) in
  let h3 := snd (in_world (show env2 uri2) h2) in
  currentPanel (world h1) = Some first
  /\ currentPanel (world h2) = None
  /\ currentPanel (world h3) = Some (S first)
  /\ length (objects (world h3)) = S (S first)
  /\ (exists a b,
        nth_error (objects (world h3)) first = Some a
        /\ nth_error (objects (world h3)) (S first) = Some b
        /\ _nonce a = Buffer_toString_hex (randomBytes env1 16%nat)
        /\ _nonce b = Buffer_toString_hex (randomBytes env2 16%nat)
        /\ (_nonce a = _nonce b <-> randomBytes env1 16%nat = randomBytes env2 16%nat)
        /\ _disposables a = []
        /\ _disposables b = registrations)
  /\ (live_instances (world h) = [] -> live_instances (world h3) = [S first])
  /\ host_calls h3
     = host_calls h ++ [PanelDispose first;
                        HandleDispose first DidReceiveMessageSubscription;
                        HandleDispose first DidDisposeSubscription]
  /\ pending (world h3) = pending (world h) ++ [first; S first]
  /\ fst (resumed env3 first h3) = Threw disposed_error.
Proof.
  intros Empty first h1 h2 h3.
  pose proof (createOrShow_empty Uri_joinPath env1 uri1 (world h) Empty) as E1.
  match type of E1 with
  | _ = (_, {| objects := _ ++ [?c]; currentPanel := _; logged := _; pending := _ |}) =>
      set (a := c) in *
  end.
  assert (W1 : world h1 = {| objects := objects (world h) ++ [a]; currentPanel := Some first;
                             logged := logged (world h);
                             pending := pending (world h) ++ [first] |})
    by (unfold h1, in_world; rewrite E1; reflexivity).
  assert (K1 : host_calls h1 = host_calls h) by reflexivity.
  assert (A5 : nth_error (objects (world h1)) first = Some a)
    by (rewrite W1; apply nth_error_snoc).
  destruct (@dispose_effect Uri first h1 a A5) as (_ & B2 & B3 & B4 & B5 & _ & B7).
  pose proof (@dispose_pending Uri first h1 a A5) as B8.
  change (snd (dispose (@done Uri) first h1)) with h2 in B2, B3, B4, B5, B7, B8.
  rewrite K1 in B7. cbn [a _disposables rev app map] in B7.
  assert (L2 : length (objects (world h2)) = S first).
  { rewrite B5, W1. cbn [objects]. rewrite length_app. cbn [length]. fold first. lia. }
  pose proof (createOrShow_empty Uri_joinPath env2 uri2 (world h2) B2) as E3.
  match type of E3 with
  | _ = (_, {| objects := _ ++ [?c]; currentPanel := _; logged := _; pending := _ |}) =>
      set (b := c) in *
  end.
  assert (W3 : world h3 = {| objects := objects (world h2) ++ [b];
                             currentPanel := Some (S first);
                             logged := logged (world h2);
                             pending := pending (world h2) ++ [S first] |})
    by (unfold h3, in_world; rewrite E3, L2; reflexivity).
  assert (K3 : host_calls h3 = host_calls h2) by reflexivity.
  assert (F : (first < length (objects (world h2)))%nat) by lia.
  assert (O2 : forall j, (j < first)%nat ->
                 nth_error (objects (world h2)) j = nth_error (objects (world h)) j).
  { intros j J. rewrite B4 by lia. rewrite W1. cbn [objects]. apply nth_error_app1. exact J. }
  assert (A3 : nth_error (objects (world h3)) first
               = Some {| _panel := _panel a; _extensionUri := _extensionUri a;
                         _nonce := _nonce a; _disposables := [] |}).
  { rewrite W3. cbn [objects]. rewrite nth_error_app1 by exact F. exact B3. }
  assert (P3 : pending (world h3) = pending (world h) ++ [first; S first]).
  { rewrite W3. cbn [pending]. rewrite B8, W1. cbn [pending]. rewrite <- app_assoc.
    reflexivity. }
  split; [rewrite W1; reflexivity|]. split; [exact B2|].
  split; [rewrite W3; reflexivity|].
  split; [rewrite W3; cbn [objects]; rewrite length_app, L2; cbn [length]; lia|].
  split.
  { eexists. exists b. split; [exact A3|]. split.
    - rewrite W3. cbn [objects]. rewrite <- L2. apply nth_error_snoc.
    - cbn [_nonce _disposables a b]. repeat (split; [reflexivity|]). split; [|auto].
      split; [apply Buffer_toString_hex_inj|].
      intros Q. unfold _generateNonce. rewrite Q. reflexivity. }
  split.
  { intros V. unfold live_instances in *. rewrite W3. cbn [objects].
    rewrite live_from_app, L2.
    cbn [live_from is_live _disposables b app Nat.add].
    replace (live_from 0 (objects (world h2))) with (@nil nat); [reflexivity|].
    symmetry. destruct (live_from 0 (objects (world h2))) as [|k rest] eqn:Q; [reflexivity|].
    exfalso.
    assert (I : In k (live_from 0 (objects (world h2)))) by (rewrite Q; left; reflexivity).
    apply live_from_In in I. destruct I as (_ & o & I & L). rewrite Nat.sub_0_r in I.
    assert (T : (k < S first)%nat) by (rewrite <- L2; apply nth_error_Some; congruence).
    destruct (Nat.eq_dec k first) as [-> | D].
    - rewrite B3 in I. injection I as <-. discriminate L.
    - rewrite (O2 k) in I by lia.
      assert (J : In k (live_from 0 (objects (world h))))
        by (apply (@live_from_intro Uri (objects (world h)) 0%nat k o I L)).
      rewrite V in J. contradiction. }
  split; [rewrite K3; exact B7|]. split; [exact P3|].
  assert (Q : existsb (Nat.eqb first) (pending (world h3)) = true).
  { rewrite P3. rewrite existsb_app. cbn [existsb]. rewrite Nat.eqb_refl.
    rewrite orb_true_r. reflexivity. }
  assert (D : panel_disposed h3 first = true).
  { unfold panel_disposed. rewrite K3, B7, existsb_app. cbn [existsb].
    rewrite Nat.eqb_refl. rewrite orb_true_r. reflexivity. }
  destruct (@resume_closed env3 first h3 _ Q D A3) as (R & _). exact R.
Qed.

(** X27. The slot is emptied by the [dispose] of any instance, not only
    of the one it holds. After [revive] has replaced a live instance,
    closing the panel of the replaced one leaves the slot empty although
    the revived instance is still there with its registrations; the next
    [createOrShow] then constructs a third instance. *)
Theorem dispose_of_replaced_instance (env env' : Env TokenUsage Date)
    (panel : WebviewPanel Uri) (uri uri' : Uri) (h : Host Uri) (old : nat)
    (self : RateLimitWebView Uri) :
  currentPanel (world h) = Some old ->
  nth_error (objects (world h)) old = Some self ->
  let new := length (objects (world h)) in
  let h1 := snd (in_world (revived env panel uri) h) in
  let h2 := snd (onDidDispose old h1) in
  let h3 := snd (in_world (show env' uri') h2) in
  currentPanel (world h1) = Some new
  /\ currentPanel (world h2) = None
  /\ (exists live, nth_error (objects (world h2)) new = Some live
                   /\ _disposables live
                      = [DidDisposeSubscription; DidReceiveMessageSubscription])
  /\ (forall x, In (HandleDispose new x) (host_calls h2) -> In (HandleDispose new x) (host_calls h))
  /\ currentPanel (world h3) = Some (S new)
  /\ length (objects (world h3)) = S (S new).
Proof.
  intros Slot N new h1 h2 h3.
  assert (O : (old < new)%nat) by (apply nth_error_Some; rewrite N; discriminate).
  pose proof (revive_exact env panel uri (world h)) as E1.
  match type of E1 with
  | _ = (_, {| objects := _ ++ [?c]; currentPanel := _; logged := _; pending := _ |}) =>
      set (live := c) in *
  end.
  assert (W1 : world h1 = {| objects := objects (world h) ++ [live]; currentPanel := Some new;
                             logged := logged (world h);
                             pending := pending (world h) ++ [new] |})
    by (unfold h1, in_world; rewrite E1; reflexivity).
  assert (K1 : host_calls h1 = host_calls h) by reflexivity.
  assert (N1 : nth_error (objects (world h1)) old = Some self).
  { rewrite W1. cbn [objects]. rewrite nth_error_app1 by exact O. exact N. }
  destruct (@dispose_effect Uri old h1 self N1) as (_ & B2 & _ & B4 & B5 & _ & D3).
  change (snd (dispose (@done Uri) old h1)) with h2 in B2, B4, B5, D3.
  destruct (createOrShow_empty_effect Uri_joinPath env' uri' (world h2) B2)
    as (_ & F2 & F3 & _).
  assert (W3 : world h3 = snd (show env' uri' (world h2))) by reflexivity.
  rewrite <- W3 in F2, F3. rewrite B5, W1 in F2, F3. cbn [objects] in F2, F3.
  rewrite length_app in F2, F3. cbn [length] in F2, F3. fold new in F2, F3.
  replace (new + 1)%nat with (S new) in F2, F3 by lia.
  split; [rewrite W1; reflexivity|]. split; [exact B2|]. split.
  - exists live. split; [|reflexivity]. rewrite B4 by lia. rewrite W1. apply nth_error_snoc.
  - split; [|split; [exact F2 | exact F3]].
    intros x I. rewrite D3, K1 in I. apply in_app_or in I. destruct I as [I | I]; [exact I|].
    exfalso. destruct I as [I | I]; try discriminate.
    apply in_map_iff in I. destruct I as (y & I & _). injection I as I. lia.
Qed.

End ReopenProperties.

Lemma createOrShow_opens_witness :
  let w' := snd (sample_createOrShow (sample_env (Threw OtherValue)) tt (initial_world unit)) in
  (exists created,
     objects w' = [created]
     /\ localResourceRoots (_panel created) = [tt]
     /\ showOptions (_panel created) = One
     /\ webview_html (_panel created) = lit "")
  /\ logged w' = [] /\ pending w' = [0%nat].
Proof.
  intros w'.
  destruct (@createOrShow_opens unit unit unit (fun _ => lit "0") (fun _ => lit "now")
              (fun u _ => u) (fun _ => sample_stylesheet) (fun _ => lit "?")
              (ErrorObject (lit "Webview is disposed"))
              (sample_env (Threw OtherValue)) tt (initial_world unit) eq_refl)
    as (created & H1 & _ & _ & _ & _ & H6 & H7 & _ & _ & H10 & H11 & H12 & _).
  split; [|split; [exact H11 | exact H12]].
  exists created. split; [exact H1|]. split; [exact H6|]. split; [exact H7 | exact H10].
Defined.

Lemma reopen_after_dispose_witness :
  let env1 := sample_env (Threw OtherValue) in
  let env2 := {| activeTextEditor := None; getRateLimitData := Threw OtherValue;
                 configuration := no_settings;
                 randomBytes := fun n => repeat x2b n;
                 host_cspSource := lit "https://host.test" |} in
  let h := {| world := initial_world unit; host_calls := [] |} in
  let h1 := snd (in_world (sample_createOrShow env1 tt) h) in
  let h2 := snd (onDidDispose 0 h1) in
  let h3 := snd (in_world (sample_createOrShow env2 tt) h2) in
  currentPanel (world h2) = None /\ currentPanel (world h3) = Some 1%nat
  /\ length (objects (world h3)) = 2%nat
  /\ live_instances (world h3) = [1%nat]
  /\ option_map (@_nonce unit) (nth_error (objects (world h3)) 0)
     = Some (lit "2a2a2a2a2a2a2a2a2a2a2a2a2a2a2a2a")
  /\ option_map (@_nonce unit) (nth_error (objects (world h3)) 1)
     = Some (lit "2b2b2b2b2b2b2b2b2b2b2b2b2b2b2b2b")
  /\ fst (sample_resume env1 0 h3) = Threw (ErrorObject (lit "Webview is disposed")).
Proof.
  intros env1 env2 h h1 h2 h3.
  destruct (@reopen_after_dispose unit unit unit (fun _ => lit "0") (fun _ => lit "now")
              (fun u _ => u) (fun _ => sample_stylesheet) (fun _ => lit "?")
              (ErrorObject (lit "Webview is disposed"))
              env1 env2 env1 tt tt h eq_refl)
    as (_ & H2 & H3 & H4 & (a & b & A & B & NA & NB & _) & L & _ & _ & R).
  split; [exact H2|]. split; [exact H3|]. split; [exact H4|].
  split; [exact (L eq_refl)|].
  change (nth_error (objects (world h3)) 0 = Some a) in A.
  change (nth_error (objects (world h3)) 1 = Some b) in B.
  split; [rewrite A; cbn [option_map]; rewrite NA; vm_compute; reflexivity|].
  split; [rewrite B; cbn [option_map]; rewrite NB; vm_compute; reflexivity|].
  exact R.
Defined.

Lemma dispose_of_replaced_instance_witness :
  let env := sample_env (Threw OtherValue) in
  let h := {| world := sample_world; host_calls := [] |} in
  let h1 := snd (in_world (sample_revive env (_panel sample_object) tt) h) in
  let h2 := snd (onDidDispose 0 h1) in
  currentPanel (world h1) = Some 1%nat /\ currentPanel (world h2) = None
  /\ length (objects (world h2)) = 2%nat.
Proof.
  intros env h h1 h2.
  destruct (@dispose_of_replaced_instance unit unit unit (fun u _ => u)
              env env (_panel sample_object) tt tt h 0%nat sample_object eq_refl eq_refl)
    as (H1 & H2 & _).
  split; [exact H1|]. split; [exact H2|]. vm_compute. reflexivity.
Defined.

Lemma revive_replaces_witness :
  let w' := snd (sample_revive (sample_env (Threw OtherValue)) (_panel sample_object) tt
                   sample_world) in
  currentPanel w' = Some 1%nat /\ nth_error (objects w') 0 = Some sample_object
  /\ markup_of w' 1 = Some (lit "") /\ pending w' = [1%nat].
Proof.
  intros w'.
  destruct (@revive_replaces unit unit unit (sample_env (Threw OtherValue)) (_panel sample_object) tt
              sample_world)
    as (_ & H1 & _ & H2 & _ & _ & H3 & (created & H4 & H5 & _)).
  split; [exact H1|]. split; [apply (H2 0%nat); cbn; lia|]. split; [|exact H3].
  unfold markup_of. change (nth_error (objects w') 1 = Some created) in H4.
  rewrite H4. cbn [option_map]. rewrite H5. reflexivity.
Defined.

(* ------------------------------------------------------------------ *)
(** ** PanelLifecycleManager: messages from the display surface *)

Section MessageProperties.

Variables TokenUsage Date Uri : Type.
Variable formatTokenUsage : TokenUsage -> jsstring.
Variable Date_toLocaleString : Date -> jsstring.
Variable Uri_joinPath : Uri -> list jsstring -> Uri.
Variable asWebviewUri : Uri -> jsstring.
Variable shortest_decimal : number -> jsstring.
Variable Message : Type.
Variable JSON_stringify : Message -> jsstring.
Variable message_command : Message -> outcome (option jsstring).

Local Notation "'update'" :=
  (_update formatTokenUsage Date_toLocaleString Uri_joinPath asWebviewUri shortest_decimal).
Local Notation "'receive'" :=
  (onDidReceiveMessage formatTokenUsage Date_toLocaleString Uri_joinPath asWebviewUri
     shortest_decimal JSON_stringify message_command).

Local Notation "'received' message" :=
  {| log_message := lit "WebView received message: " ++ JSON_stringify message;
     log_forceFlush := true |} (at level 10).

(** X28. A message whose [command] is the string [refresh] runs one update
    of the receiving instance: the message and the refresh are logged,
    both with a forced flush, and then [_update] does what it does on its
    own; the slot and the number of objects stay as they are. The
    listener does not look at the slot, so an instance that is not the
    current one refreshes as well. *)
Theorem refresh_message (env : Env TokenUsage Date) (this : nat) (message : Message)
    (w : World Uri) (self : RateLimitWebView Uri) :
  message_command message = Returned (Some (lit "refresh")) ->
  nth_error (objects w) this = Some self ->
  let noted := {| objects := objects w; currentPanel := currentPanel w;
                  logged := logged w ++ [received message;
                                         {| log_message := lit "WebView refresh triggered";
                                            log_forceFlush := true |}];
                  pending := pending w |} in
  receive env this message w = update env this noted
  /\ fst (receive env this message w) = Returned tt
  /\ currentPanel (snd (receive env this message w)) = currentPanel w
  /\ length (objects (snd (receive env this message w))) = length (objects w)
  /\ markup_of (snd (receive env this message w)) this
     = markup_of (snd (update env this w)) this.
Proof.
  intros C N noted.
  assert (E : receive env this message w = update env this noted).
  { unfold onDidReceiveMessage, bind, log, evaluate. rewrite C.
    replace (JsString.eqb (lit "refresh") (lit "refresh")) with true
      by (symmetry; apply jsstring_eqb_eq; reflexivity).
    cbn [fst snd objects currentPanel logged].
    unfold noted. rewrite <- app_assoc. reflexivity. }
  split; [exact E|]. rewrite E.
  assert (N' : nth_error (objects noted) this = Some self) by exact N.
  destruct (update_effect formatTokenUsage Date_toLocaleString Uri_joinPath asWebviewUri
              shortest_decimal env this noted N') as (E1 & E2 & E3 & _ & _ & E6 & _).
  destruct (update_effect formatTokenUsage Date_toLocaleString Uri_joinPath asWebviewUri
              shortest_decimal env this w N) as (_ & _ & _ & _ & _ & F6 & _).
  split; [exact E1|]. split; [exact E2|]. split; [exact E3|].
  rewrite E6, F6. reflexivity.
Qed.

(** X29. Any other message is logged and otherwise ignored: when the
    [command] of the message is not the string [refresh] (another string,
    [Refresh] for instance, or no string at all), the listener returns
    normally and the world is as before except for the one forced log
    entry. A message that is [null] or [undefined] is logged too, and the
    listener then throws on reading [command]: the promise of the
    listener rejects. *)
Theorem other_message (env : Env TokenUsage Date) (this : nat) (message : Message)
    (w : World Uri) :
  let noted := {| objects := objects w; currentPanel := currentPanel w;
                  logged := logged w ++ [received message];
                  pending := pending w |} in
  (forall command, message_command message = Returned command ->
     command <> Some (lit "refresh") ->
     receive env this message w = (Returned tt, noted))
  /\ (forall e, message_command message = Threw e ->
        receive env this message w = (Threw e, noted)).
Proof.
  intros noted. split.
  - intros command C D. unfold onDidReceiveMessage, bind, log, evaluate. rewrite C.
    cbn [fst snd objects currentPanel logged].
    destruct command as [c|]; [|reflexivity].
    destruct (JsString.eqb c (lit "refresh")) eqn:E; [|reflexivity].
    apply jsstring_eqb_eq in E. subst c. contradiction.
  - intros e C. unfold onDidReceiveMessage, bind, log, evaluate. rewrite C. reflexivity.
Qed.

End MessageProperties.

Lemma refresh_message_witness :
  let env := sample_env (Threw (ErrorObject (lit "disk"))) in
  markup_of (snd (onDidReceiveMessage (fun _ => lit "0") (fun _ => lit "now") (fun u _ => u)
                    (fun _ => sample_stylesheet) (fun _ => lit "?")
                    (fun _ : unit => lit "{\qcommand\q:\qrefresh\q}")
                    (fun _ => Returned (Some (lit "refresh")))
                    env 0 tt sample_world)) 0
  = markup_of (snd (sample_update env 0 sample_world)) 0.
Proof.
  intros env.
  destruct (@refresh_message unit unit unit (fun _ => lit "0") (fun _ => lit "now")
              (fun u _ => u) (fun _ => sample_stylesheet) (fun _ => lit "?")
              unit (fun _ => lit "{\qcommand\q:\qrefresh\q}")
              (fun _ => Returned (Some (lit "refresh")))
              env 0%nat tt sample_world sample_object eq_refl eq_refl)
    as (_ & _ & _ & _ & H).
  exact H.
Defined.

Lemma other_message_witness :
  onDidReceiveMessage (fun _ => lit "0") (fun _ => lit "now") (fun u _ => u)
    (fun _ => sample_stylesheet) (fun _ => lit "?")
    (fun _ : unit => lit "{\qcommand\q:\qRefresh\q}")
    (fun _ => Returned (Some (lit "Refresh")))
    (sample_env (Threw OtherValue)) 0 tt sample_world
  = (Returned tt,
     {| objects := [sample_object]; currentPanel := Some 0%nat;
        logged := [{| log_message := lit "WebView received message: {\qcommand\q:\qRefresh\q}";
                      log_forceFlush := true |}];
        pending := [] |}).
Proof.
  destruct (@other_message unit unit unit (fun _ => lit "0") (fun _ => lit "now")
              (fun u _ => u) (fun _ => sample_stylesheet) (fun _ => lit "?")
              unit (fun _ => lit "{\qcommand\q:\qRefresh\q}")
              (fun _ => Returned (Some (lit "Refresh")))
              (sample_env (Threw OtherValue)) 0%nat tt sample_world) as (H & _).
  rewrite (H (Some (lit "Refresh")) eq_refl); [vm_compute; reflexivity|].
  vm_compute. discriminate.
Defined.

(* ------------------------------------------------------------------ *)
(** ** The earlier revision: the policy *)

Lemma nonce_source_plain (nonce : jsstring) :
  ~ In 32%N nonce -> ~ In 59%N nonce ->
  ~ In 32%N (nonce_source nonce) /\ ~ In 59%N (nonce_source nonce)
  /\ nonce_source nonce <> [].
Proof.
  intros S C. unfold nonce_source.
  repeat split; try discriminate; intros I;
    apply in_app_or in I; destruct I as [I | I];
    try (vm_compute in I; intuition discriminate);
    apply in_app_or in I; destruct I as [I | I];
    try (vm_compute in I; intuition discriminate); contradiction.
Qed.

Lemma absent_app (c : N) (a b : jsstring) : ~ In c a -> ~ In c b -> ~ In c (a ++ b).
Proof. intros A B I. apply in_app_or in I. tauto. Qed.

Lemma absent_cons (c x : N) (a : jsstring) : c <> x -> ~ In c a -> ~ In c (x :: a).
Proof. intros N A [E | I]; [congruence | tauto]. Qed.

Lemma legacy_policy_text (src nonce : jsstring) :
  Legacy.policy src nonce
  = lit "default-src 'none'" ++ 59%N ::
    (lit " img-src" ++ 32%N :: src ++ 32%N :: lit "data:") ++ 59%N ::
    (lit " style-src" ++ 32%N :: src ++ 32%N :: nonce_source nonce
       ++ 32%N :: lit "'unsafe-inline'") ++ 59%N ::
    (lit " script-src" ++ 32%N :: nonce_source nonce) ++ 59%N :: [].
Proof.
  unfold Legacy.policy, nonce_source. cbn [join]. rewrite <- !app_assoc.
  repeat (rewrite <- ?app_comm_cons; rewrite <- ?app_assoc). vm_compute. reflexivity.
Qed.

(** X30. The policy of the earlier revision, read as a content security
    policy: it had the four directives of the later one and two sources
    more, [data:] for images and ['unsafe-inline'] for styles; scripts
    were limited to the nonce there as well. The source of the display
    surface is assumed free of semicolons, the nonce free of spaces and
    semicolons. *)
Theorem earlier_policy_directives (src nonce : jsstring) :
  ~ In 59%N src -> ~ In 32%N nonce -> ~ In 59%N nonce ->
  csp_directives (Legacy.policy src nonce)
  = [[lit "default-src"; lit "'none'"];
     lit "img-src" :: words src ++ [lit "data:"];
     lit "style-src" :: words src ++ [nonce_source nonce; lit "'unsafe-inline'"];
     [lit "script-src"; nonce_source nonce]].
Proof.
  intros S N32 N59. destruct (@nonce_source_plain nonce N32 N59) as (T32 & T59 & TN).
  rewrite legacy_policy_text. set (ns := nonce_source nonce) in *.
  unfold csp_directives. rewrite !split_on_app.
  assert (A1 : ~ In 59%N (lit "default-src 'none'")) by (vm_compute; intuition discriminate).
  assert (D : ~ In 59%N (lit "data:")) by (vm_compute; intuition discriminate).
  assert (U : ~ In 59%N (lit "'unsafe-inline'")) by (vm_compute; intuition discriminate).
  assert (A2 : ~ In 59%N (lit " img-src" ++ 32%N :: src ++ 32%N :: lit "data:")).
  { apply absent_app; [vm_compute; intuition discriminate|].
    apply absent_cons; [discriminate|]. apply absent_app; [exact S|].
    apply absent_cons; [discriminate | exact D]. }
  assert (A3 : ~ In 59%N (lit " style-src" ++ 32%N :: src ++ 32%N :: ns
                          ++ 32%N :: lit "'unsafe-inline'")).
  { apply absent_app; [vm_compute; intuition discriminate|].
    apply absent_cons; [discriminate|]. apply absent_app; [exact S|].
    apply absent_cons; [discriminate|]. apply absent_app; [exact T59|].
    apply absent_cons; [discriminate | exact U]. }
  assert (A4 : ~ In 59%N (lit " script-src" ++ 32%N :: ns)).
  { apply absent_app; [vm_compute; intuition discriminate|].
    apply absent_cons; [discriminate | exact T59]. }
  rewrite (@split_on_absent _ _ A1), (@split_on_absent _ _ A2),
    (@split_on_absent _ _ A3), (@split_on_absent _ _ A4).
  cbn [app map split_on]. rewrite !words_app, (@words_token _ TN T32).
  change (words (lit "default-src 'none'")) with [lit "default-src"; lit "'none'"].
  change (words (lit " img-src")) with [lit "img-src"].
  change (words (lit " style-src")) with [lit "style-src"].
  change (words (lit " script-src")) with [lit "script-src"].
  change (words (lit "data:")) with [lit "data:"].
  change (words (lit "'unsafe-inline'")) with [lit "'unsafe-inline'"].
  change (words []) with (@nil jsstring).
  reflexivity.
Qed.

Lemma earlier_policy_directives_witness :
  csp_directives (Legacy.policy (lit "https://host.test") (lit "Ab3"))
  = [[lit "default-src"; lit "'none'"];
     [lit "img-src"; lit "https://host.test"; lit "data:"];
     [lit "style-src"; lit "https://host.test"; lit "'nonce-Ab3'"; lit "'unsafe-inline'"];
     [lit "script-src"; lit "'nonce-Ab3'"]].
Proof.
  rewrite (@earlier_policy_directives (lit "https://host.test") (lit "Ab3"));
    [reflexivity | | | ]; vm_compute; intuition discriminate.
Defined.
